(** * Terminal clicker game: a shallow embedding of [clicker-game.ts]

    The game keeps one mutable [GameState] (points, buildings, upgrades),
    changed by player commands and by a periodic tick, and persisted as a
    JSON document.

    Modelling conventions.
    - A JavaScript [number] is modelled as an exact rational ([Q]); the
      rounding, infinities and NaN of IEEE doubles are outside the model
      (where a double rounds, the model does not: [100 * 1.15] is [115]
      here and [114.99999999999999] as a double).  Numbers are compared
      with [==] ([Qeq]), the numeric equality of [Q].
    - [count] is an integer-valued number ([Z]); [Date.now()] is an integer
      number of milliseconds and is an explicit argument of the operations
      that read the clock.
    - The module-level variables [gameState] and [lastUpdate] and the save
      file are threaded explicitly through the operations.
    - Reading a property of [undefined] (an array index out of range) throws
      a [TypeError] before any write: the operation then has no result
      ([None]) and the state is the one before the call. *)

From Stdlib Require Import ZArith QArith Qround Qpower Lqa Lia.
From Stdlib Require Import List String Ascii Bool.
From Stdlib Require Import DecimalFacts DecimalPos DecimalN.
From stdpp Require Import base list.

Open Scope Q_scope.

(** ** Data model *)

Record Upgrade := mkUpgrade {
  upgradeName : string;
  purchased : bool;
  cost : Q;
  productionMultiplier : Q;
  description : string
}.

Record Building := mkBuilding {
  name : string;
  count : Z;
  baseCost : Q;
  baseProduction : Q;
  upgrades : list Upgrade
}.

Record GameState := mkGameState {
  points : Q;
  totalPointsEarned : Q;
  clickPower : Q;
  buildings : list Building;
  lastSaved : Q
}.

(** Field assignments, as the source writes them. *)

Definition set_purchased (v : bool) (u : Upgrade) : Upgrade :=
  mkUpgrade (upgradeName u) v (cost u) (productionMultiplier u) (description u).

Definition set_count (v : Z) (b : Building) : Building :=
  mkBuilding (name b) v (baseCost b) (baseProduction b) (upgrades b).

Definition set_upgrades (v : list Upgrade) (b : Building) : Building :=
  mkBuilding (name b) (count b) (baseCost b) (baseProduction b) v.

Definition set_points (v : Q) (s : GameState) : GameState :=
  mkGameState v (totalPointsEarned s) (clickPower s) (buildings s) (lastSaved s).

Definition set_totalPointsEarned (v : Q) (s : GameState) : GameState :=
  mkGameState (points s) v (clickPower s) (buildings s) (lastSaved s).

Definition set_buildings (v : list Building) (s : GameState) : GameState :=
  mkGameState (points s) (totalPointsEarned s) (clickPower s) v (lastSaved s).

Definition set_lastSaved (v : Q) (s : GameState) : GameState :=
  mkGameState (points s) (totalPointsEarned s) (clickPower s) (buildings s) v.

(** The state the program starts from; [now] is the value of [Date.now()]
    when the module is initialised. *)

Definition initialBuildings : list Building :=
  [ mkBuilding "Cursor" 0 15 0.1
      [ mkUpgrade "Faster Clicking" false 100 2 "Double the production of Cursors";
        mkUpgrade "Auto Clicker" false 500 3 "Triple the production of Cursors" ];
    mkBuilding "Farm" 0 100 1
      [ mkUpgrade "Fertilizer" false 1000 2 "Double the production of Farms";
        mkUpgrade "Irrigation" false 5000 3 "Triple the production of Farms" ];
    mkBuilding "Factory" 0 1100 8
      [ mkUpgrade "Assembly Line" false 12000 2 "Double the production of Factories";
        mkUpgrade "Automation" false 60000 3 "Triple the production of Factories" ] ].

Definition initialGameState (now : Z) : GameState :=
  mkGameState 0 0 1 initialBuildings (inject_Z now).

(** ** Economy model *)

(** [Math.floor(building.baseCost * Math.pow(1.15, building.count))] *)
Definition getBuildingCost (building : Building) : Q :=
  inject_Z (Qfloor (baseCost building * 1.15 ^ count building)).

(** One iteration of the loop over [building.upgrades]. *)
Definition applyUpgrade (multiplier : Q) (upgrade : Upgrade) : Q :=
  if purchased upgrade then multiplier * productionMultiplier upgrade
  else multiplier.

Definition getBuildingProduction (building : Building) : Q :=
  let multiplier := fold_left applyUpgrade (upgrades building) 1 in
  inject_Z (count building) * baseProduction building * multiplier.

(** [gameState.buildings.reduce((total, b) => total + production(b), 0)] *)
Definition getTotalProduction (s : GameState) : Q :=
  fold_left (fun total building => total + getBuildingProduction building)
            (buildings s) 0.

(** ** Commands *)

Definition click (s : GameState) : GameState :=
  let s1 := set_points (points s + clickPower s) s in
  set_totalPointsEarned (totalPointsEarned s1 + clickPower s1) s1.

(** [gameState.points >= cost] *)
Definition geq (x y : Q) : bool := Qle_bool y x.

Definition buyBuilding (index : nat) (s : GameState) : option (bool * GameState) :=
  match buildings s !! index with
  | None => None
  | Some building =>
      let cost := getBuildingCost building in
      if geq (points s) cost then
        let s1 := set_points (points s - cost) s in
        let building' := set_count (count building + 1) building in
        Some (true, set_buildings (<[index := building']> (buildings s1)) s1)
      else Some (false, s)
  end.

Definition buyUpgrade (buildingIndex upgradeIndex : nat) (s : GameState)
  : option (bool * GameState) :=
  match buildings s !! buildingIndex with
  | None => None
  | Some building =>
      match upgrades building !! upgradeIndex with
      | None => None
      | Some upgrade =>
          if negb (purchased upgrade) && geq (points s) (cost upgrade) then
            let s1 := set_points (points s - cost upgrade) s in
            let upgrade' := set_purchased true upgrade in
            let building' :=
              set_upgrades (<[upgradeIndex := upgrade']> (upgrades building)) building in
            Some (true, set_buildings (<[buildingIndex := building']> (buildings s1)) s1)
          else Some (false, s)
      end
  end.

(** ** Tick loop

    [gameLoop] reads the clock ([now]), credits the production of the time
    since [lastUpdate] and stores [now] in [lastUpdate].  The redraw that
    follows writes to the terminal only. *)

Definition gameLoop (now : Z) (lastUpdate : Z) (s : GameState) : Z * GameState :=
  let elapsed := inject_Z (now - lastUpdate) / 1000 in
  let pointsGained := getTotalProduction s * elapsed in
  let s1 := set_points (points s + pointsGained) s in
  (now, set_totalPointsEarned (totalPointsEarned s1 + pointsGained) s1).

(** ** Numbers as text

    Text is handled as a list of characters; the functions that the source
    calls on strings convert at their boundary. *)

Definition chars (s : string) : list ascii := list_ascii_of_string s.

Fixpoint uint_chars (d : Decimal.uint) : list ascii :=
  match d with
  | Decimal.Nil => []
  | Decimal.D0 d => "0"%char :: uint_chars d
  | Decimal.D1 d => "1"%char :: uint_chars d
  | Decimal.D2 d => "2"%char :: uint_chars d
  | Decimal.D3 d => "3"%char :: uint_chars d
  | Decimal.D4 d => "4"%char :: uint_chars d
  | Decimal.D5 d => "5"%char :: uint_chars d
  | Decimal.D6 d => "6"%char :: uint_chars d
  | Decimal.D7 d => "7"%char :: uint_chars d
  | Decimal.D8 d => "8"%char :: uint_chars d
  | Decimal.D9 d => "9"%char :: uint_chars d
  end.

(** The decimal digits of a natural number, most significant first; ["0"]
    for zero. *)
Definition digitsOf (n : N) : list ascii := uint_chars (N.to_uint n).

Definition isDigit (c : ascii) : bool :=
  let n := N_of_ascii c in (48 <=? n)%N && (n <=? 57)%N.

Definition digitValue (c : ascii) : N := (N_of_ascii c - 48)%N.

Definition digitStep (acc : N) (c : ascii) : N := (acc * 10 + digitValue c)%N.

(** The number a run of digits denotes. *)
Definition digitsValue (ds : list ascii) : N := fold_left digitStep ds 0%N.

Definition zeros (n : nat) : list ascii := repeat "0"%char n.

(** *** [Number::toString] (ECMAScript), on exact rationals

    A positive number is written from the digits [s] and the exponent [e]
    with [s * 10 ^ e] the number and [s] as short as possible.
    [scaleSearch] looks for the least [m] with [num * 10 ^ m / den] an
    integer; a rational with no finite decimal expansion (no double is
    one) is cut off after as many fractional digits as its denominator has
    bits. *)

Fixpoint scaleSearch (fuel : nat) (num den : N) (m : nat) : N * nat :=
  if (num mod den =? 0)%N then ((num / den)%N, m)
  else match fuel with
       | O => ((num / den)%N, m)
       | S fuel' => scaleSearch fuel' (num * 10)%N den (S m)
       end.

Fixpoint stripZeros (fuel : nat) (s : N) (e : nat) : N * nat :=
  match fuel with
  | O => (s, e)
  | S fuel' =>
      if (s mod 10 =? 0)%N then stripZeros fuel' (s / 10)%N (S e) else (s, e)
  end.

(** Digits and exponent of [num / den], for [num > 0]. *)
Definition decimalExpansion (num den : positive) : N * Z :=
  match scaleSearch (Pos.size_nat den) (Npos num) (Npos den) 0 with
  | (s, O) => let (s', e) := stripZeros (Pos.size_nat num) s 0 in (s', Z.of_nat e)
  | (s, m) => (s, (- Z.of_nat m)%Z)
  end.

Definition positiveToString (num den : positive) : list ascii :=
  let (s, e) := decimalExpansion num den in
  let ds := digitsOf s in
  let k := Z.of_nat (length ds) in
  let n := (k + e)%Z in
  if (k <=? n)%Z && (n <=? 21)%Z then ds ++ zeros (Z.to_nat (n - k))
  else if (0 <? n)%Z && (n <=? 21)%Z then
    firstn (Z.to_nat n) ds ++ "."%char :: skipn (Z.to_nat n) ds
  else if (-6 <? n)%Z && (n <=? 0)%Z then
    "0"%char :: "."%char :: zeros (Z.to_nat (- n)) ++ ds
  else
    let mantissa := match ds with
                    | d :: (_ :: _) as rest => d :: "."%char :: rest
                    | _ => ds
                    end in
    mantissa ++ "e"%char :: (if (n - 1 <? 0)%Z then "-"%char else "+"%char)
             :: digitsOf (Z.abs_N (n - 1)).

Definition numberToString (x : Q) : list ascii :=
  match Qnum x with
  | Z0 => ["0"%char]
  | Zpos num => positiveToString num (Qden x)
  | Zneg num => "-"%char :: positiveToString num (Qden x)
  end.

(** *** [Number.prototype.toFixed] (ECMAScript), on exact rationals

    Below [10 ^ 21] the result is the integer [n] nearest to
    [x * 10 ^ fractionDigits] (the larger one of two equally near), written
    with a point before its last [fractionDigits] digits; from [10 ^ 21] on
    it is [Number::toString]. *)

Definition toFixedDigits (x : Q) (fractionDigits : nat) : list ascii :=
  let n := Z.to_N (Qfloor (x * 10 ^ Z.of_nat fractionDigits + (1 # 2))) in
  let m := digitsOf n in
  match fractionDigits with
  | O => m
  | S _ =>
      let m := zeros (S fractionDigits - length m) ++ m in
      let k := length m in
      firstn (k - fractionDigits) m ++ "."%char :: skipn (k - fractionDigits) m
  end.

Definition ltb (x y : Q) : bool := negb (Qle_bool y x).

Definition toFixedChars (x : Q) (fractionDigits : nat) : list ascii :=
  let s := if ltb x 0 then ["-"%char] else [] in
  let x := if ltb x 0 then - x else x in
  if geq x (10 ^ 21) then s ++ numberToString x
  else s ++ toFixedDigits x fractionDigits.

Definition toFixed (x : Q) (fractionDigits : nat) : string :=
  string_of_list_ascii (toFixedChars x fractionDigits).

(** ** Formatter *)

Definition formatNumber (num : Q) : string :=
  if ltb num 1000 then toFixed num 1
  else if ltb num 1000000 then (toFixed (num / 1000) 2 ++ "K")%string
  else if ltb num 1000000000 then (toFixed (num / 1000000) 2 ++ "M")%string
  else (toFixed (num / 1000000000) 2 ++ "B")%string.

(** ** JSON documents

    The values [JSON.parse] builds and [JSON.stringify] traverses.  An
    object is the list of its members, in the order they were created or
    written.  Text is a sequence of characters with codes below 256. *)

#[warnings="-register-all"]
Inductive json :=
| JNull
| JBool (b : bool)
| JNumber (x : Q)
| JString (s : string)
| JArray (elements : list json)
| JObject (members : list (string * json)).

(** Results of the functions that read text: a value, a [SyntaxError], or
    [Unmodelled] for text this development does not follow ([\u] escapes
    from 256 on). *)
Inductive result (A : Type) :=
| Ok (a : A)
| SyntaxError
| Unmodelled.
Arguments Ok {A} a.
Arguments SyntaxError {A}.
Arguments Unmodelled {A}.

Definition bind {A B : Type} (r : result A) (f : A -> result B) : result B :=
  match r with
  | Ok a => f a
  | SyntaxError => SyntaxError
  | Unmodelled => Unmodelled
  end.

Notation "'let*' p ':=' r 'in' k" := (bind r (fun p => k))
  (at level 10, p pattern, r at level 100, k at level 200).

(** *** [JSON.stringify(value, null, 2)] *)

Definition dquote : ascii := ascii_of_N 34.
Definition backslash : ascii := ascii_of_N 92.
Definition newline : ascii := ascii_of_N 10.

Definition hexDigit (n : N) : ascii :=
  if (n <? 10)%N then ascii_of_N (48 + n) else ascii_of_N (87 + n).

(** [QuoteJSONString], one character. *)
Definition quoteChar (c : ascii) : list ascii :=
  let n := N_of_ascii c in
  if (n =? 8)%N then chars "\b"
  else if (n =? 9)%N then chars "\t"
  else if (n =? 10)%N then chars "\n"
  else if (n =? 12)%N then chars "\f"
  else if (n =? 13)%N then chars "\r"
  else if (n =? 34)%N then [backslash; c]
  else if (n =? 92)%N then [backslash; c]
  else if (n <? 32)%N then chars "\u00" ++ [hexDigit (n / 16); hexDigit (n mod 16)]
  else [c].

Definition quote (s : string) : list ascii :=
  dquote :: flat_map quoteChar (chars s) ++ [dquote].

Definition spaces (n : nat) : list ascii := repeat " "%char n.

(** [items] joined by [",\n" + indent], between [open "\n" indent] and
    ["\n" stepback close]. *)
Fixpoint joinItems (indent : nat) (items : list (list ascii)) : list ascii :=
  match items with
  | [] => []
  | [item] => item
  | item :: rest => item ++ ","%char :: newline :: spaces indent ++ joinItems indent rest
  end.

Definition block (open close : ascii) (indent : nat) (items : list (list ascii))
  : list ascii :=
  match items with
  | [] => [open; close]
  | _ => open :: newline :: spaces (indent + 2) ++ joinItems (indent + 2) items
              ++ newline :: spaces indent ++ [close]
  end.

Fixpoint stringifyAt (indent : nat) (value : json) : list ascii :=
  match value with
  | JNull => chars "null"
  | JBool true => chars "true"
  | JBool false => chars "false"
  | JNumber x => numberToString x
  | JString s => quote s
  | JArray elements =>
      block "["%char "]"%char indent (map (stringifyAt (indent + 2)) elements)
  | JObject members =>
      block "{"%char "}"%char indent
        (map (fun member => quote (fst member) ++ ":"%char :: " "%char
                              :: stringifyAt (indent + 2) (snd member)) members)
  end.

Definition JSON_stringify (value : json) : string :=
  string_of_list_ascii (stringifyAt 0 value).

(** *** [JSON.parse] *)

Definition isWhitespace (c : ascii) : bool :=
  let n := N_of_ascii c in
  (n =? 32)%N || (n =? 9)%N || (n =? 10)%N || (n =? 13)%N.

Fixpoint skipWs (input : list ascii) : list ascii :=
  match input with
  | c :: rest => if isWhitespace c then skipWs rest else input
  | [] => []
  end.

Fixpoint readDigits (input : list ascii) : list ascii * list ascii :=
  match input with
  | c :: rest =>
      if isDigit c then let (ds, rest') := readDigits rest in (c :: ds, rest')
      else ([], input)
  | [] => ([], [])
  end.

(** The integer part of a number: one digit, or several not starting
    with 0. *)
Definition validInt (ds : list ascii) : bool :=
  match ds with
  | [] => false
  | [_] => true
  | d :: _ => negb (Ascii.eqb d "0")
  end.

Definition startsWith (c : ascii) (input : list ascii) : bool :=
  match input with
  | c' :: _ => Ascii.eqb c' c
  | [] => false
  end.

Definition readFraction (input : list ascii) : result (list ascii * list ascii) :=
  if startsWith "." input then
    match readDigits (tl input) with
    | ([], _) => SyntaxError
    | r => Ok r
    end
  else Ok ([], input).

Definition readExponentDigits (negative : bool) (input : list ascii)
  : result (Z * list ascii) :=
  match readDigits input with
  | ([], _) => SyntaxError
  | (ds, rest) =>
      let e := Z.of_N (digitsValue ds) in
      Ok (if negative then (- e)%Z else e, rest)
  end.

Definition readExponent (input : list ascii) : result (Z * list ascii) :=
  if startsWith "e" input || startsWith "E" input then
    let rest := tl input in
    if startsWith "-" rest then readExponentDigits true (tl rest)
    else if startsWith "+" rest then readExponentDigits false (tl rest)
    else readExponentDigits false rest
  else Ok (0%Z, input).

(** [int frac? exp?], read as the exact rational it denotes. *)
Definition parseUnsigned (input : list ascii) : result (Q * list ascii) :=
  let (ids, rest) := readDigits input in
  if validInt ids then
    let* (fds, rest) := readFraction rest in
    let* (e, rest) := readExponent rest in
    let mantissa := Z.of_N (digitsValue (ids ++ fds)) in
    Ok (inject_Z mantissa * 10 ^ (e - Z.of_nat (length fds)), rest)
  else SyntaxError.

(** [-? int frac? exp?] *)
Definition parseNumber (input : list ascii) : result (Q * list ascii) :=
  if startsWith "-" input then
    let* (x, rest) := parseUnsigned (tl input) in Ok (- x, rest)
  else parseUnsigned input.

(** What may follow a number in a text: not a digit, a point or an
    exponent mark. *)
Definition endsNumber (rest : list ascii) : bool :=
  match rest with
  | [] => true
  | c :: _ => negb (isDigit c || Ascii.eqb c "." || Ascii.eqb c "e" || Ascii.eqb c "E")
  end.

Definition fractionText (fds : list ascii) : list ascii :=
  match fds with
  | [] => []
  | _ => "."%char :: fds
  end.

Definition hexValue (c : ascii) : option N :=
  let n := N_of_ascii c in
  if (48 <=? n)%N && (n <=? 57)%N then Some (n - 48)%N
  else if (97 <=? n)%N && (n <=? 102)%N then Some (n - 87)%N
  else if (65 <=? n)%N && (n <=? 70)%N then Some (n - 55)%N
  else None.

Definition unicodeEscape (h1 h2 h3 h4 : ascii) : result ascii :=
  match hexValue h1, hexValue h2, hexValue h3, hexValue h4 with
  | Some a, Some b, Some c, Some d =>
      if (a =? 0)%N && (b =? 0)%N then Ok (ascii_of_N (c * 16 + d)) else Unmodelled
  | _, _, _, _ => SyntaxError
  end.

(** The characters of a string literal after its opening quote, up to and
    without the closing quote. *)
Fixpoint parseChars (input : list ascii) : result (list ascii * list ascii) :=
  match input with
  | [] => SyntaxError
  | c :: rest =>
      if Ascii.eqb c dquote then Ok ([], rest)
      else if Ascii.eqb c backslash then
        match rest with
        | [] => SyntaxError
        | e :: rest' =>
            let simple (d : ascii) :=
              let* (cs, r) := parseChars rest' in Ok (d :: cs, r) in
            if Ascii.eqb e dquote then simple dquote
            else if Ascii.eqb e backslash then simple backslash
            else if Ascii.eqb e "/" then simple "/"%char
            else if Ascii.eqb e "b" then simple (ascii_of_N 8)
            else if Ascii.eqb e "f" then simple (ascii_of_N 12)
            else if Ascii.eqb e "n" then simple (ascii_of_N 10)
            else if Ascii.eqb e "r" then simple (ascii_of_N 13)
            else if Ascii.eqb e "t" then simple (ascii_of_N 9)
            else if Ascii.eqb e "u" then
              match rest' with
              | h1 :: h2 :: h3 :: h4 :: rest'' =>
                  let* d := unicodeEscape h1 h2 h3 h4 in
                  let* (cs, r) := parseChars rest'' in Ok (d :: cs, r)
              | _ => SyntaxError
              end
            else SyntaxError
        end
      else if (N_of_ascii c <? 32)%N then SyntaxError
      else let* (cs, r) := parseChars rest in Ok (c :: cs, r)
  end.

Definition parseString (input : list ascii) : result (string * list ascii) :=
  let* (cs, rest) := parseChars input in Ok (string_of_list_ascii cs, rest).

Fixpoint stripPrefix (prefix input : list ascii) : option (list ascii) :=
  match prefix, input with
  | [], _ => Some input
  | p :: prefix', c :: input' =>
      if Ascii.eqb c p then stripPrefix prefix' input' else None
  | _ :: _, [] => None
  end.

Definition parseLiteral (input : list ascii) : result (json * list ascii) :=
  match stripPrefix (chars "true") input with
  | Some r => Ok (JBool true, r)
  | None =>
      match stripPrefix (chars "false") input with
      | Some r => Ok (JBool false, r)
      | None =>
          match stripPrefix (chars "null") input with
          | Some r => Ok (JNull, r)
          | None => SyntaxError
          end
      end
  end.

(** A value, the elements of an array after ["["], the members of an object
    after ["{"].  [fuel] bounds the nesting of the calls; with none left the
    text is not followed any further. *)
Fixpoint parseValue (fuel : nat) (input : list ascii) : result (json * list ascii) :=
  match fuel with
  | O => Unmodelled
  | S fuel' =>
      let input := skipWs input in
      if startsWith "{" input then
        if startsWith "}" (skipWs (tl input)) then
          Ok (JObject [], tl (skipWs (tl input)))
        else let* (ms, r) := parseMembers fuel' (tl input) in Ok (JObject ms, r)
      else if startsWith "[" input then
        if startsWith "]" (skipWs (tl input)) then
          Ok (JArray [], tl (skipWs (tl input)))
        else let* (vs, r) := parseElements fuel' (tl input) in Ok (JArray vs, r)
      else if startsWith dquote input then
        let* (s, r) := parseString (tl input) in Ok (JString s, r)
      else if startsWith "-" input || match input with c :: _ => isDigit c | [] => false end
      then let* (x, r) := parseNumber input in Ok (JNumber x, r)
      else parseLiteral input
  end
with parseElements (fuel : nat) (input : list ascii) : result (list json * list ascii) :=
  match fuel with
  | O => Unmodelled
  | S fuel' =>
      let* (v, rest) := parseValue fuel' input in
      let rest := skipWs rest in
      if startsWith "," rest then
        let* (vs, r) := parseElements fuel' (tl rest) in Ok (v :: vs, r)
      else if startsWith "]" rest then Ok ([v], tl rest)
      else SyntaxError
  end
with parseMembers (fuel : nat) (input : list ascii)
  : result (list (string * json) * list ascii) :=
  match fuel with
  | O => Unmodelled
  | S fuel' =>
      let input := skipWs input in
      if startsWith dquote input then
        let* (key, rest) := parseString (tl input) in
        let rest := skipWs rest in
        if startsWith ":" rest then
          let* (v, rest) := parseValue fuel' (tl rest) in
          let rest := skipWs rest in
          if startsWith "," rest then
            let* (ms, r) := parseMembers fuel' (tl rest) in Ok ((key, v) :: ms, r)
          else if startsWith "}" rest then Ok ([(key, v)], tl rest)
          else SyntaxError
        else SyntaxError
      else SyntaxError
  end.

(** The whole text must be one value between white space.  The fuel is
    more than the calls nest on a text of that length. *)
Definition JSON_parse (text : string) : result json :=
  let input := chars text in
  let* (v, rest) := parseValue (2 * length input + 2) input in
  match skipWs rest with
  | [] => Ok v
  | _ => SyntaxError
  end.

(** ** Persistence

    [gameStateToJSON] is the object graph [JSON.stringify] walks: the
    properties of each object in the order the initialiser creates them.
    [gameStateOfJSON] reads a parsed document back as a [GameState]; it
    accepts the documents of exactly that shape. *)

Definition upgradeToJSON (u : Upgrade) : json :=
  JObject [ ("name"%string, JString (upgradeName u));
            ("purchased"%string, JBool (purchased u));
            ("cost"%string, JNumber (cost u));
            ("productionMultiplier"%string, JNumber (productionMultiplier u));
            ("description"%string, JString (description u)) ].

Definition buildingToJSON (b : Building) : json :=
  JObject [ ("name"%string, JString (name b));
            ("count"%string, JNumber (inject_Z (count b)));
            ("baseCost"%string, JNumber (baseCost b));
            ("baseProduction"%string, JNumber (baseProduction b));
            ("upgrades"%string, JArray (map upgradeToJSON (upgrades b))) ].

Definition gameStateToJSON (s : GameState) : json :=
  JObject [ ("points"%string, JNumber (points s));
            ("totalPointsEarned"%string, JNumber (totalPointsEarned s));
            ("clickPower"%string, JNumber (clickPower s));
            ("buildings"%string, JArray (map buildingToJSON (buildings s)));
            ("lastSaved"%string, JNumber (lastSaved s)) ].

Definition keysAre (expected : list string) (members : list (string * json)) : bool :=
  forallb (fun p => String.eqb (fst p) (snd p)) (combine (map fst members) expected)
  && (length members =? length expected)%nat.

Definition asInteger (x : Q) : option Z :=
  if (Qnum x mod Zpos (Qden x) =? 0)%Z then Some (Qnum x / Zpos (Qden x))%Z else None.

Definition upgradeOfJSON (value : json) : option Upgrade :=
  match value with
  | JObject ([(_, JString n); (_, JBool p); (_, JNumber c); (_, JNumber m);
              (_, JString d)] as members) =>
      if keysAre ["name"; "purchased"; "cost"; "productionMultiplier"; "description"]%string
                 members
      then Some (mkUpgrade n p c m d) else None
  | _ => None
  end.

Definition buildingOfJSON (value : json) : option Building :=
  match value with
  | JObject ([(_, JString n); (_, JNumber c); (_, JNumber bc); (_, JNumber bp);
              (_, JArray us)] as members) =>
      if keysAre ["name"; "count"; "baseCost"; "baseProduction"; "upgrades"]%string members
      then
        match asInteger c, mapM upgradeOfJSON us with
        | Some c', Some us' => Some (mkBuilding n c' bc bp us')
        | _, _ => None
        end
      else None
  | _ => None
  end.

Definition gameStateOfJSON (value : json) : option GameState :=
  match value with
  | JObject ([(_, JNumber p); (_, JNumber t); (_, JNumber cp); (_, JArray bs);
              (_, JNumber ls)] as members) =>
      if keysAre ["points"; "totalPointsEarned"; "clickPower"; "buildings"; "lastSaved"]%string
                 members
      then
        match mapM buildingOfJSON bs with
        | Some bs' => Some (mkGameState p t cp bs' ls)
        | None => None
        end
      else None
  | _ => None
  end.

(** The variables of the program ([gameState], [lastUpdate]) and the save
    file ([None]: no file). *)
Record World := mkWorld {
  gameState : GameState;
  lastUpdate : Z;
  saveFile : option string
}.

Definition set_gameState (s : GameState) (w : World) : World :=
  mkWorld s (lastUpdate w) (saveFile w).

(** [now] is the value [Date.now()] returns. *)
Definition saveGame (now : Z) (w : World) : World :=
  let s := set_lastSaved (inject_Z now) (gameState w) in
  mkWorld s (lastUpdate w) (Some (JSON_stringify (gameStateToJSON s))).

(** The result is the returned boolean and the world after the call.  A
    [SyntaxError] of [JSON.parse] is caught and the call returns [false].
    There is no result ([None]) when the file holds a document that is not a
    [GameState] as [saveGame] writes it, or text outside the model: the
    program then goes on with a state this development does not follow. *)
Definition loadGame (w : World) : option (bool * World) :=
  match saveFile w with
  | Some data =>
      match JSON_parse data with
      | Ok value =>
          match gameStateOfJSON value with
          | Some s => Some (true, set_gameState s w)
          | None => None
          end
      | SyntaxError => Some (false, w)
      | Unmodelled => None
      end
  | None => Some (false, w)
  end.

(** ** Command interpreter *)

(** Characters [String.prototype.trim] removes, among the codes below 256. *)
Definition isTrimmed (c : ascii) : bool :=
  let n := N_of_ascii c in
  ((9 <=? n)%N && (n <=? 13)%N) || (n =? 32)%N || (n =? 160)%N.

Fixpoint trimStart (cs : list ascii) : list ascii :=
  match cs with
  | c :: rest => if isTrimmed c then trimStart rest else cs
  | [] => []
  end.

Definition trim (s : string) : string :=
  string_of_list_ascii (rev (trimStart (rev (trimStart (chars s))))).

Definition lowerChar (c : ascii) : ascii :=
  let n := N_of_ascii c in
  if ((65 <=? n)%N && (n <=? 90)%N)
     || ((192 <=? n)%N && (n <=? 222)%N && negb (n =? 215)%N)
  then ascii_of_N (n + 32) else c.

Definition toLowerCase (s : string) : string :=
  string_of_list_ascii (map lowerChar (chars s)).

Definition purchaseResult (w : World) (r : option (bool * GameState)) : option World :=
  match r with
  | Some (_, s) => Some (set_gameState s w)
  | None => None
  end.

(** One line of input, read when the clock shows [now].  The result is the
    world after the command; there is none when the run ends ([q], an
    uncaught [TypeError]) or leaves the model (see [loadGame]). *)
Definition handleInput (input : string) (now : Z) (w : World) : option World :=
  let input := toLowerCase (trim input) in
  let typed (command : string) := String.eqb input command in
  (if typed "c" then Some (set_gameState (click (gameState w)) w)
  else if typed "1" then purchaseResult w (buyBuilding 0 (gameState w))
  else if typed "2" then purchaseResult w (buyBuilding 1 (gameState w))
  else if typed "3" then purchaseResult w (buyBuilding 2 (gameState w))
  else if typed "1a" then purchaseResult w (buyUpgrade 0 0 (gameState w))
  else if typed "1b" then purchaseResult w (buyUpgrade 0 1 (gameState w))
  else if typed "2a" then purchaseResult w (buyUpgrade 1 0 (gameState w))
  else if typed "2b" then purchaseResult w (buyUpgrade 1 1 (gameState w))
  else if typed "3a" then purchaseResult w (buyUpgrade 2 0 (gameState w))
  else if typed "3b" then purchaseResult w (buyUpgrade 2 1 (gameState w))
  else if typed "s" then Some (saveGame now w)
  else if typed "l" then snd <$> loadGame w
  else if typed "q" then None
  else Some w)%string.

(** ** Runs of the program *)

Inductive Event :=
| Line (input : string) (now : Z)
| Timer (now : Z).

Definition step (e : Event) (w : World) : option World :=
  match e with
  | Line input now => handleInput input now w
  | Timer now =>
      let (t, s) := gameLoop now (lastUpdate w) (gameState w) in
      Some (mkWorld s t (saveFile w))
  end.

(** Module initialisation: [gameState] is created at clock value [t0],
    [lastUpdate] at [t1], then [loadGame()] runs on the file found. *)
Definition startup (t0 t1 : Z) (file : option string) : option World :=
  snd <$> loadGame (mkWorld (initialGameState t0) t1 file).

(** The worlds the program can be in: started where there is no save file,
    or on the file an earlier run left, and then driven by input lines and
    timer ticks. *)
Inductive reachable : World -> Prop :=
| reachable_fresh (t0 t1 : Z) (w : World) :
    startup t0 t1 None = Some w -> reachable w
| reachable_restart (w0 : World) (t0 t1 : Z) (w : World) :
    reachable w0 -> startup t0 t1 (saveFile w0) = Some w -> reachable w
| reachable_step (w : World) (e : Event) (w' : World) :
    reachable w -> step e w = Some w' -> reachable w'.

(** A run from [w] through a sequence of events; [None] once the run has
    ended or left the model. *)
Definition run (events : list Event) (w : World) : option World :=
  fold_left (fun current e =>
               match current with
               | Some w' => step e w'
               | None => None
               end) events (Some w).

(** ** Post-states of the purchases, field by field

    The record a committed purchase is expected to leave: every field is
    copied from the state before the call except the ones the purchase
    writes. *)

Definition boughtBuilding (index : nat) (building : Building) (s : GameState) : GameState :=
  mkGameState (points s - getBuildingCost building) (totalPointsEarned s) (clickPower s)
    (<[index := mkBuilding (name building) (count building + 1) (baseCost building)
                 (baseProduction building) (upgrades building)]> (buildings s))
    (lastSaved s).

Definition boughtUpgrade (buildingIndex upgradeIndex : nat)
    (building : Building) (upgrade : Upgrade) (s : GameState) : GameState :=
  mkGameState (points s - cost upgrade) (totalPointsEarned s) (clickPower s)
    (<[buildingIndex :=
         mkBuilding (name building) (count building) (baseCost building)
           (baseProduction building)
           (<[upgradeIndex :=
                mkUpgrade (upgradeName upgrade) true (cost upgrade)
                  (productionMultiplier upgrade) (description upgrade)]>
              (upgrades building))]> (buildings s))
    (lastSaved s).

(** The upgrade at position [upgradeIndex] of building [buildingIndex]. *)
Definition upgradeAt (buildingIndex upgradeIndex : nat) (s : GameState) : option Upgrade :=
  match buildings s !! buildingIndex with
  | Some building => upgrades building !! upgradeIndex
  | None => None
  end.

(** What a successful [buyBuilding index] may not touch: every field of the
    state but [points], every building but the one at [index], and every
    field of that building but [count]. *)
Definition buyBuilding_frame (index : nat) (s s' : GameState) : Prop :=
  totalPointsEarned s' = totalPointsEarned s /\
  clickPower s' = clickPower s /\
  lastSaved s' = lastSaved s /\
  length (buildings s') = length (buildings s) /\
  (forall k, k <> index -> buildings s' !! k = buildings s !! k) /\
  (forall b, buildings s !! index = Some b ->
     exists b', buildings s' !! index = Some b' /\
       name b' = name b /\ baseCost b' = baseCost b /\
       baseProduction b' = baseProduction b /\ upgrades b' = upgrades b).

(** What a successful [buyUpgrade buildingIndex upgradeIndex] may not touch:
    every field of the state but [points], every other building, every
    field of the building but [upgrades], every other upgrade, and every
    field of the upgrade but [purchased]. *)
Definition buyUpgrade_frame (buildingIndex upgradeIndex : nat) (s s' : GameState) : Prop :=
  totalPointsEarned s' = totalPointsEarned s /\
  clickPower s' = clickPower s /\
  lastSaved s' = lastSaved s /\
  length (buildings s') = length (buildings s) /\
  (forall k, k <> buildingIndex -> buildings s' !! k = buildings s !! k) /\
  (forall b, buildings s !! buildingIndex = Some b ->
     exists b', buildings s' !! buildingIndex = Some b' /\
       name b' = name b /\ count b' = count b /\ baseCost b' = baseCost b /\
       baseProduction b' = baseProduction b /\
       length (upgrades b') = length (upgrades b) /\
       (forall k, k <> upgradeIndex -> upgrades b' !! k = upgrades b !! k) /\
       (forall u, upgrades b !! upgradeIndex = Some u ->
          exists u', upgrades b' !! upgradeIndex = Some u' /\
            upgradeName u' = upgradeName u /\ cost u' = cost u /\
            productionMultiplier u' = productionMultiplier u /\
            description u' = description u)).

(** ** The economy formulas in the words of the specification

    These follow the specification, not the code; the theorems below
    compare them with [getBuildingProduction] and [getTotalProduction]. *)

(** The product of [productionMultiplier] over the upgrades with
    [purchased = true]. *)
Definition purchasedMultiplier (building : Building) : Q :=
  fold_right Qmult 1
    (map productionMultiplier (List.filter purchased (upgrades building))).

(** [count * baseProduction * multiplier] *)
Definition productionFormula (building : Building) : Q :=
  inject_Z (count building) * baseProduction building * purchasedMultiplier building.

(** The sum over the buildings of their production. *)
Definition totalProductionFormula (s : GameState) : Q :=
  fold_right Qplus 0 (map productionFormula (buildings s)).

(** ** Predicates on states *)

(** A number with a finite decimal expansion. *)
Definition decimal (x : Q) : Prop :=
  exists (m : nat) (z : Z), x * 10 ^ Z.of_nat m == inject_Z z.

(** The same state up to the representation of its numbers as fractions. *)
Definition upgrade_equiv (u u' : Upgrade) : Prop :=
  upgradeName u = upgradeName u' /\ purchased u = purchased u' /\
  cost u == cost u' /\ productionMultiplier u == productionMultiplier u' /\
  description u = description u'.

Definition building_equiv (b b' : Building) : Prop :=
  name b = name b' /\ count b = count b' /\ baseCost b == baseCost b' /\
  baseProduction b == baseProduction b' /\
  Forall2 upgrade_equiv (upgrades b) (upgrades b').

Definition state_equiv (s s' : GameState) : Prop :=
  points s == points s' /\ totalPointsEarned s == totalPointsEarned s' /\
  clickPower s == clickPower s' /\
  Forall2 building_equiv (buildings s) (buildings s') /\
  lastSaved s == lastSaved s'.

#[warnings="-register-all"]
Inductive json_equiv : json -> json -> Prop :=
| equiv_null : json_equiv JNull JNull
| equiv_bool b : json_equiv (JBool b) (JBool b)
| equiv_number x y : x == y -> json_equiv (JNumber x) (JNumber y)
| equiv_string s : json_equiv (JString s) (JString s)
| equiv_array vs vs' : Forall2 json_equiv vs vs' -> json_equiv (JArray vs) (JArray vs')
| equiv_object ms ms' :
    Forall2 (fun m m' => fst m = fst m' /\ json_equiv (snd m) (snd m')) ms ms' ->
    json_equiv (JObject ms) (JObject ms').

(** Documents all of whose numbers have a finite decimal expansion. *)
#[warnings="-register-all"]
Inductive decimal_json : json -> Prop :=
| decimal_null : decimal_json JNull
| decimal_bool b : decimal_json (JBool b)
| decimal_number x : decimal x -> decimal_json (JNumber x)
| decimal_string s : decimal_json (JString s)
| decimal_array vs : Forall decimal_json vs -> decimal_json (JArray vs)
| decimal_object ms :
    Forall (fun m => decimal_json (snd m)) ms -> decimal_json (JObject ms).

Definition decimal_upgrade (u : Upgrade) : Prop :=
  decimal (cost u) /\ decimal (productionMultiplier u).

Definition decimal_building (b : Building) : Prop :=
  decimal (baseCost b) /\ decimal (baseProduction b) /\
  Forall decimal_upgrade (upgrades b).

Definition decimal_state (s : GameState) : Prop :=
  decimal (points s) /\ decimal (totalPointsEarned s) /\ decimal (clickPower s) /\
  Forall decimal_building (buildings s) /\ decimal (lastSaved s).

(** Nothing in the economy is negative: the click power, the counts, the
    base productions and the multipliers of the upgrades. *)
Definition nonneg_building (b : Building) : Prop :=
  (0 <= count b)%Z /\ 0 <= baseProduction b /\
  Forall (fun u => 0 <= productionMultiplier u) (upgrades b).

Definition nonneg_economy (s : GameState) : Prop :=
  0 <= clickPower s /\ Forall nonneg_building (buildings s).

(** No upgrade that is purchased in [s] is unpurchased in [s']. *)
Definition purchased_kept (s s' : GameState) : Prop :=
  forall bi ui u,
    upgradeAt bi ui s = Some u -> purchased u = true ->
    exists u', upgradeAt bi ui s' = Some u' /\ purchased u' = true.

(** A run of digits that starts with a digit other than 0. *)
Definition leadingDigit (ds : list ascii) : Prop :=
  exists d rest, ds = d :: rest /\ Ascii.eqb d "0" = false.


(** The first character of the text of a number: a digit or a minus
    sign. *)
Definition numberHead (text : list ascii) : Prop :=
  exists c rest, text = c :: rest /\ (isDigit c = true \/ c = "-"%char).

(** A bound on the nesting of the parser's calls on the text of a
    document. *)
Fixpoint jsonSize (v : json) : nat :=
  match v with
  | JArray vs => S (list_sum (map (fun v => S (jsonSize v)) vs))
  | JObject ms => S (list_sum (map (fun m => S (jsonSize (snd m))) ms))
  | _ => 1
  end.

(** What follows a value inside the text [JSON.stringify] writes: nothing,
    a comma or a line break. *)
Definition endsValue (rest : list ascii) : bool :=
  match rest with
  | [] => true
  | c :: _ => Ascii.eqb c "," || Ascii.eqb c newline
  end.

(** The characters a value can start with: no white space and no
    punctuation of the enclosing array or object. *)
Definition valueStart (c : ascii) : bool :=
  negb (isWhitespace c || Ascii.eqb c "]" || Ascii.eqb c "}" || Ascii.eqb c ","
        || Ascii.eqb c ":").

Definition valueHead (text : list ascii) : Prop :=
  exists c rest, text = c :: rest /\ valueStart c = true.

(** The text of [v], at any indentation and followed by any text a value
    can be followed by, is parsed as [v], up to the representation of the
    numbers. *)
Definition readsBack (v : json) : Prop :=
  decimal_json v ->
  forall (indent : nat) (rest : list ascii) (fuel : nat),
    (jsonSize v <= fuel)%nat -> endsValue rest = true ->
    valueHead (stringifyAt indent v) /\
    exists v', parseValue fuel (stringifyAt indent v ++ rest) = Ok (v', rest) /\
               json_equiv v v'.

(** The invariant of the runs: the numbers of the state have finite decimal
    expansions and nothing in the economy is negative, and the save file,
    if there is one, was written by [saveGame] from such a state. *)
Definition valid_state (s : GameState) : Prop :=
  decimal_state s /\ nonneg_economy s.

Definition valid_world (w : World) : Prop :=
  valid_state (gameState w) /\
  forall data, saveFile w = Some data ->
    exists s, valid_state s /\ data = JSON_stringify (gameStateToJSON s).

(** [text] is [x] in fixed notation with [places] digits after the point:
    an integer part without superfluous zeros, a point and [places] digits,
    which together are the integer nearest to [x * 10 ^ places] (the larger
    one of two equally near). *)
Definition fixedNotation (x : Q) (places : nat) (text : list ascii) : Prop :=
  exists ids fds,
    text = ids ++ "."%char :: fds /\ length fds = places /\
    Forall (fun c => isDigit c = true) ids /\ Forall (fun c => isDigit c = true) fds /\
    validInt ids = true /\
    let n := inject_Z (Z.of_N (digitsValue (ids ++ fds))) in
    n <= x * 10 ^ Z.of_nat places + (1 # 2) /\ x * 10 ^ Z.of_nat places + (1 # 2) < n + 1.

(** The operations on the state in memory, and a sequence of them; a
    purchase that throws leaves the state as it is. *)
Inductive GameOp :=
| DoClick
| DoBuyBuilding (index : nat)
| DoBuyUpgrade (buildingIndex upgradeIndex : nat)
| DoTick (now lastUpdate : Z).

Definition applyOp (s : GameState) (op : GameOp) : GameState :=
  match op with
  | DoClick => click s
  | DoBuyBuilding index =>
      match buyBuilding index s with Some (_, s') => s' | None => s end
  | DoBuyUpgrade bi ui =>
      match buyUpgrade bi ui s with Some (_, s') => s' | None => s end
  | DoTick now lastUpdate => snd (gameLoop now lastUpdate s)
  end.

Definition applyOps (ops : list GameOp) (s : GameState) : GameState :=
  fold_left applyOp ops s.

(** ** Configuration

    The fields no operation writes: [clickPower], and of every building its
    name, base cost, base production and, of every upgrade, its name, cost,
    multiplier and description. *)

Definition sameUpgradeConfig (u u0 : Upgrade) : Prop :=
  upgradeName u = upgradeName u0 /\ cost u == cost u0 /\
  productionMultiplier u == productionMultiplier u0 /\
  description u = description u0.

Definition sameBuildingConfig (b b0 : Building) : Prop :=
  name b = name b0 /\ baseCost b == baseCost b0 /\
  baseProduction b == baseProduction b0 /\
  Forall2 sameUpgradeConfig (upgrades b) (upgrades b0).

Definition sameConfig (s s0 : GameState) : Prop :=
  clickPower s == clickPower s0 /\
  Forall2 sameBuildingConfig (buildings s) (buildings s0).

(** What the states of a run have beyond [valid_state]: the configuration
    of the initial state, and no more points than were earned in total. *)
Definition run_state (s : GameState) : Prop :=
  sameConfig s (initialGameState 0) /\ points s <= totalPointsEarned s.

(** A world whose state, and whose save file if there is one, satisfy [P]
    on top of the invariant of the runs. *)
Definition run_invariant (P : GameState -> Prop) (w : World) : Prop :=
  valid_world w /\ P (gameState w) /\
  forall data, saveFile w = Some data ->
    exists s, valid_state s /\ P s /\ data = JSON_stringify (gameStateToJSON s).

(** The clock values of the ticks of a run, each compared by [clock] with
    the value of [lastUpdate] it finds. *)
Fixpoint clocked (clock : Z -> Z -> bool) (events : list Event) (lastUpdate : Z) : bool :=
  match events with
  | [] => true
  | Line _ _ :: rest => clocked clock rest lastUpdate
  | Timer now :: rest => clock lastUpdate now && clocked clock rest now
  end.

(** A run whose clock never runs backwards. *)
Definition forwardClock (events : list Event) (lastUpdate : Z) : bool :=
  clocked Z.leb events lastUpdate.

(** The events that write the save file: the lines that read [s]. *)
Definition isSave (e : Event) : bool :=
  match e with
  | Line input _ => String.eqb (toLowerCase (trim input)) "s"
  | Timer _ => false
  end.

(** ** Display

    [displayStatus] clears the terminal and writes the lines below, one
    [console.log] each; the result is what the terminal then shows. *)

(** A number inside a template literal. *)
Definition numberText (x : Q) : string := string_of_list_ascii (numberToString x).

(** [String.fromCharCode(code)], for the codes below 256. *)
Definition fromCharCode (code : nat) : string := String (ascii_of_nat code) EmptyString.

(** What a line of the display starts with: the number of the building,
    followed for an upgrade by its letter. *)
Definition buildingLabel (i : nat) : string := numberText (inject_Z (Z.of_nat i + 1)).

Definition upgradeLabel (i j : nat) : string :=
  (buildingLabel i ++ fromCharCode (97 + j))%string.

Definition buildingLine (i : nat) (building : Building) : string :=
  (buildingLabel i ++ ". " ++ name building ++ ": "
   ++ numberText (inject_Z (count building))
   ++ " | Cost: " ++ formatNumber (getBuildingCost building)
   ++ " points | Producing: " ++ formatNumber (getBuildingProduction building)
   ++ " per second")%string.

Definition upgradeLine (i : nat) (building : Building) (j : nat) (upgrade : Upgrade)
  : string :=
  (upgradeLabel i j ++ ". " ++ name building ++ " - " ++ upgradeName upgrade ++ ": "
   ++ formatNumber (cost upgrade) ++ " points | " ++ description upgrade)%string.

Definition buildingLines (s : GameState) : list string :=
  imap buildingLine (buildings s).

(** The inner [forEach]: a line for every upgrade not yet purchased. *)
Definition upgradeLinesOf (i : nat) (building : Building) : list string :=
  concat (imap (fun j upgrade =>
                  if negb (purchased upgrade) then [upgradeLine i building j upgrade]
                  else [])
               (upgrades building)).

Definition upgradeLines (s : GameState) : list string :=
  concat (imap upgradeLinesOf (buildings s)).

Definition displayStatus (s : GameState) : list string :=
  [ "=== TERMINAL CLICKER GAME ==="%string;
    ("Points: " ++ formatNumber (points s) ++ " ("
       ++ formatNumber (getTotalProduction s) ++ " per second)")%string;
    ("Total earned: " ++ formatNumber (totalPointsEarned s))%string;
    String newline "=== BUILDINGS ===" ]
  ++ buildingLines s
  ++ [ String newline "=== UPGRADES ===" ]
  ++ upgradeLines s
  ++ [ String newline "=== COMMANDS ===";
       "C - Click for points"%string;
       "1-3 - Buy building (number corresponds to the building)"%string;
       "1a, 1b, 2a, 2b, 3a, 3b - Buy upgrade"%string;
       "S - Save game"%string;
       "L - Load game"%string;
       "Q - Quit game"%string ].

(** The upgrades of a state that are not purchased, counted. *)
Definition unpurchased (s : GameState) : nat :=
  list_sum (map (fun building =>
                   length (List.filter (fun upgrade => negb (purchased upgrade))
                                       (upgrades building)))
                (buildings s)).

(** ** Accounting

    What the state shows to have been paid: for every building the cost of
    each of its [count] purchases, at the count it then had, and the cost
    of each of its purchased upgrades. *)

Definition upgradeSpend (upgrade : Upgrade) : Q :=
  if purchased upgrade then cost upgrade else 0.

Definition buildingSpend (building : Building) : Q :=
  fold_right Qplus 0
    (map (fun k => getBuildingCost (set_count (Z.of_nat k) building))
         (seq 0 (Z.to_nat (count building))))
  + fold_right Qplus 0 (map upgradeSpend (upgrades building)).

Definition spent (s : GameState) : Q :=
  fold_right Qplus 0 (map buildingSpend (buildings s)).

(** Every point earned is at hand or was spent on what the state shows. *)
Definition accounted (s : GameState) : Prop :=
  points s + spent s == totalPointsEarned s.

(** * Properties *)

(** ** Purchases *)

Lemma geq_true (x y : Q) : geq x y = true <-> y <= x.
Proof. unfold geq. apply Qle_bool_iff. Qed.

Lemma geq_false (x y : Q) : geq x y = false <-> ~ y <= x.
Proof.
  rewrite <- geq_true. destruct (geq x y); split; try congruence; intros H; now elim H.
Qed.

Lemma buyBuilding_commit (s : GameState) (index : nat) (building : Building) :
  buildings s !! index = Some building ->
  getBuildingCost building <= points s ->
  buyBuilding index s = Some (true, boughtBuilding index building s).
Proof.
  intros Hb Hc. unfold buyBuilding. rewrite Hb. cbv zeta.
  apply geq_true in Hc. rewrite Hc. reflexivity.
Qed.

Lemma buyBuilding_reject (s : GameState) (index : nat) (building : Building) :
  buildings s !! index = Some building ->
  ~ getBuildingCost building <= points s ->
  buyBuilding index s = Some (false, s).
Proof.
  intros Hb Hc. unfold buyBuilding. rewrite Hb. cbv zeta.
  apply geq_false in Hc. rewrite Hc. reflexivity.
Qed.

Lemma buyUpgrade_commit (s : GameState) (bi ui : nat) (building : Building) (upgrade : Upgrade) :
  buildings s !! bi = Some building ->
  upgrades building !! ui = Some upgrade ->
  purchased upgrade = false ->
  cost upgrade <= points s ->
  buyUpgrade bi ui s = Some (true, boughtUpgrade bi ui building upgrade s).
Proof.
  intros Hb Hu Hp Hc. unfold buyUpgrade. rewrite Hb, Hu, Hp.
  apply geq_true in Hc. rewrite Hc. reflexivity.
Qed.

Lemma buyUpgrade_reject (s : GameState) (bi ui : nat) (building : Building) (upgrade : Upgrade) :
  buildings s !! bi = Some building ->
  upgrades building !! ui = Some upgrade ->
  purchased upgrade = true \/ ~ cost upgrade <= points s ->
  buyUpgrade bi ui s = Some (false, s).
Proof.
  intros Hb Hu Hor. unfold buyUpgrade. rewrite Hb, Hu.
  destruct Hor as [Hp | Hc].
  - rewrite Hp. reflexivity.
  - apply geq_false in Hc. rewrite Hc, andb_false_r. reflexivity.
Qed.

Lemma upgradeAt_boughtUpgrade (s : GameState) (bi ui : nat) (building : Building) (upgrade : Upgrade) :
  buildings s !! bi = Some building ->
  upgrades building !! ui = Some upgrade ->
  upgradeAt bi ui (boughtUpgrade bi ui building upgrade s)
  = Some (mkUpgrade (upgradeName upgrade) true (cost upgrade)
            (productionMultiplier upgrade) (description upgrade)).
Proof.
  intros Hb Hu. unfold upgradeAt, boughtUpgrade. cbn [buildings].
  rewrite list_lookup_insert_eq by (eapply lookup_lt_Some; eauto).
  cbn [upgrades].
  apply list_lookup_insert_eq. eapply lookup_lt_Some; eauto.
Qed.

Lemma buyBuilding_inv (index : nat) (s s' : GameState) (ok : bool) :
  buyBuilding index s = Some (ok, s') ->
  exists building,
    buildings s !! index = Some building /\
    if ok then getBuildingCost building <= points s /\ s' = boughtBuilding index building s
    else ~ getBuildingCost building <= points s /\ s' = s.
Proof.
  unfold buyBuilding. destruct (buildings s !! index) as [building|] eqn:Hb; [|discriminate].
  cbv zeta. destruct (geq (points s) (getBuildingCost building)) eqn:Hg;
    intros [= <- <-]; exists building; (split; [reflexivity|]).
  - apply geq_true in Hg. split; [assumption|reflexivity].
  - apply geq_false in Hg. split; [assumption|reflexivity].
Qed.

Lemma buyUpgrade_inv (bi ui : nat) (s s' : GameState) (ok : bool) :
  buyUpgrade bi ui s = Some (ok, s') ->
  exists building upgrade,
    buildings s !! bi = Some building /\
    upgrades building !! ui = Some upgrade /\
    if ok then purchased upgrade = false /\ cost upgrade <= points s /\
               s' = boughtUpgrade bi ui building upgrade s
    else (purchased upgrade = true \/ ~ cost upgrade <= points s) /\ s' = s.
Proof.
  unfold buyUpgrade. destruct (buildings s !! bi) as [building|] eqn:Hb; [|discriminate].
  destruct (upgrades building !! ui) as [upgrade|] eqn:Hu; [|discriminate].
  destruct (purchased upgrade) eqn:Hp; cbn [negb andb].
  - intros [= <- <-]. exists building, upgrade. repeat split; try assumption. now left.
  - destruct (geq (points s) (cost upgrade)) eqn:Hg; intros [= <- <-];
      exists building, upgrade; (split; [reflexivity|]); (split; [assumption|]).
    + apply geq_true in Hg. repeat split; assumption.
    + apply geq_false in Hg. split; [now right|reflexivity].
Qed.

Lemma purchased_kept_buildings (s s' : GameState) :
  buildings s' = buildings s -> purchased_kept s s'.
Proof.
  intros Hb bi ui u Hu Hp. exists u. unfold upgradeAt in *. rewrite Hb. now split.
Qed.

Lemma upgradeAt_boughtBuilding (index bi ui : nat) (b : Building) (s : GameState) :
  buildings s !! index = Some b ->
  upgradeAt bi ui (boughtBuilding index b s) = upgradeAt bi ui s.
Proof.
  intros Hb. unfold upgradeAt, boughtBuilding. cbn [buildings].
  destruct (Nat.eq_dec index bi) as [<-|Hne].
  - rewrite list_lookup_insert_eq by (eapply lookup_lt_Some; eauto). now rewrite Hb.
  - now rewrite list_lookup_insert_ne.
Qed.

Lemma purchased_kept_boughtUpgrade (bi ui : nat) (b : Building) (u : Upgrade) (s : GameState) :
  buildings s !! bi = Some b -> upgrades b !! ui = Some u ->
  purchased_kept s (boughtUpgrade bi ui b u s).
Proof.
  intros Hb Hu bi' ui' u' Hu' Hp.
  destruct (Nat.eq_dec bi bi') as [<-|Hne].
  - destruct (Nat.eq_dec ui ui') as [<-|Hne'].
    + rewrite upgradeAt_boughtUpgrade by assumption. eexists. split; reflexivity.
    + exists u'. split; [|exact Hp]. unfold upgradeAt in *. rewrite Hb in Hu'.
      unfold boughtUpgrade. cbn [buildings].
      rewrite list_lookup_insert_eq by (eapply lookup_lt_Some; eauto). cbn [upgrades].
      now rewrite list_lookup_insert_ne.
  - exists u'. split; [|exact Hp]. unfold upgradeAt in *.
    unfold boughtUpgrade. cbn [buildings]. now rewrite list_lookup_insert_ne.
Qed.

Lemma purchased_kept_refl (s : GameState) : purchased_kept s s.
Proof. intros bi ui u Hu Hp. eauto. Qed.

Lemma purchased_kept_trans (s s' s'' : GameState) :
  purchased_kept s s' -> purchased_kept s' s'' -> purchased_kept s s''.
Proof.
  intros H H' bi ui u Hu Hp. destruct (H bi ui u Hu Hp) as (u' & Hu' & Hp'). eauto.
Qed.

Lemma purchased_kept_buyBuilding (index : nat) (s s' : GameState) (ok : bool) :
  buyBuilding index s = Some (ok, s') -> purchased_kept s s'.
Proof.
  intros H. apply buyBuilding_inv in H as (b & Hb & H). destruct ok.
  - destruct H as [_ ->]. intros bi ui u Hu Hp. exists u.
    rewrite upgradeAt_boughtBuilding by assumption. now split.
  - destruct H as [_ ->]. apply purchased_kept_refl.
Qed.

Lemma purchased_kept_buyUpgrade (bi ui : nat) (s s' : GameState) (ok : bool) :
  buyUpgrade bi ui s = Some (ok, s') -> purchased_kept s s'.
Proof.
  intros H. apply buyUpgrade_inv in H as (b & u & Hb & Hu & H). destruct ok.
  - destruct H as (_ & _ & ->). now apply purchased_kept_boughtUpgrade.
  - destruct H as [_ ->]. apply purchased_kept_refl.
Qed.

Lemma purchased_kept_applyOp (op : GameOp) (s : GameState) :
  purchased_kept s (applyOp s op).
Proof.
  destruct op as [|index|bi ui|now lastUpdate]; cbn [applyOp].
  - now apply purchased_kept_buildings.
  - destruct (buyBuilding index s) as [[ok s']|] eqn:H;
      [eapply purchased_kept_buyBuilding; eauto|apply purchased_kept_refl].
  - destruct (buyUpgrade bi ui s) as [[ok s']|] eqn:H;
      [eapply purchased_kept_buyUpgrade; eauto|apply purchased_kept_refl].
  - now apply purchased_kept_buildings.
Qed.

Lemma purchased_kept_applyOps (ops : list GameOp) (s : GameState) :
  purchased_kept s (applyOps ops s).
Proof.
  revert s. induction ops as [|op ops IH]; intros s; [apply purchased_kept_refl|].
  eapply purchased_kept_trans; [apply purchased_kept_applyOp|apply IH].
Qed.



(** C2: for valid indices, [buyUpgrade] succeeds exactly when the upgrade is
    not yet purchased and [points >= upgrade.cost]; a success debits
    [points] by the upgrade's cost and sets [purchased]; otherwise the call
    returns failure and the state as it was.  After a success every
    further attempt on the same upgrade fails, whatever the funds are and
    whatever clicks, purchases and ticks came in between. *)
Theorem buyUpgrade_once (s : GameState) (bi ui : nat) (building : Building) (upgrade : Upgrade) :
  buildings s !! bi = Some building ->
  upgrades building !! ui = Some upgrade ->
  ((exists s', buyUpgrade bi ui s = Some (true, s'))
     <-> purchased upgrade = false /\ cost upgrade <= points s) /\
  (purchased upgrade = false -> cost upgrade <= points s ->
     let s' := boughtUpgrade bi ui building upgrade s in
     buyUpgrade bi ui s = Some (true, s') /\
     points s' = points s - cost upgrade /\
     purchased <$> upgradeAt bi ui s' = Some true) /\
  (purchased upgrade = true \/ ~ cost upgrade <= points s ->
     buyUpgrade bi ui s = Some (false, s)) /\
  (forall s', buyUpgrade bi ui s = Some (true, s') ->
     forall (ops : list GameOp) (funds : Q),
       let later := set_points funds (applyOps ops s') in
       buyUpgrade bi ui later = Some (false, later)).
Proof.
  intros Hb Hu.
  assert (Hcommit := buyUpgrade_commit s bi ui building upgrade Hb Hu).
  assert (Hreject := buyUpgrade_reject s bi ui building upgrade Hb Hu).
  assert (Hcases : purchased upgrade = false /\ cost upgrade <= points s \/
                   (purchased upgrade = true \/ ~ cost upgrade <= points s)).
  { destruct (purchased upgrade); [right; now left|].
    destruct (Qlt_le_dec (points s) (cost upgrade)) as [Hlt|Hle].
    - right; right. now apply Qlt_not_le.
    - left. now split. }
  split; [|split; [|split]].
  - split.
    + intros [s' Hs']. destruct Hcases as [H|H]; [exact H|].
      rewrite (Hreject H) in Hs'. discriminate.
    + intros [Hp Hc]. eexists. now apply Hcommit.
  - intros Hp Hc s'. subst s'. split; [now apply Hcommit|]. split; [reflexivity|].
    rewrite upgradeAt_boughtUpgrade by assumption. reflexivity.
  - exact Hreject.
  - intros s' Hs' ops funds later. destruct Hcases as [[Hp Hc]|H].
    + rewrite (Hcommit Hp Hc) in Hs'. injection Hs' as <-.
      pose proof (upgradeAt_boughtUpgrade s bi ui building upgrade Hb Hu) as Hat.
      destruct (purchased_kept_applyOps ops _ bi ui _ Hat eq_refl) as (u' & Hu' & Hp').
      unfold upgradeAt in Hu'.
      destruct (buildings (applyOps ops (boughtUpgrade bi ui building upgrade s)) !! bi)
        as [b'|] eqn:Hb'; [|discriminate].
      eapply (buyUpgrade_reject later bi ui b'); [exact Hb'|exact Hu'|now left].
    + rewrite (Hreject H) in Hs'. discriminate.
Qed.

Lemma buyUpgrade_once_witness :
  let s := set_points 100 (initialGameState 0) in
  exists s',
    buyUpgrade 0 0 s = Some (true, s') /\
    let later := set_points 1000000 (applyOps [DoClick; DoTick 500 0; DoBuyBuilding 0] s') in
    buyUpgrade 0 0 later = Some (false, later).
Proof.
  eexists. split; [reflexivity|].
  refine (proj2 (proj2 (proj2
    (buyUpgrade_once (set_points 100 (initialGameState 0)) 0 0 _ _ eq_refl eq_refl)))
    _ eq_refl [DoClick; DoTick 500 0; DoBuyBuilding 0] 1000000).
Defined.

(** ** Frame of the purchases *)

Lemma boughtBuilding_frame (index : nat) (building : Building) (s : GameState) :
  buildings s !! index = Some building ->
  buyBuilding_frame index s (boughtBuilding index building s).
Proof.
  intros Hb. unfold buyBuilding_frame, boughtBuilding. cbn.
  repeat split.
  - apply length_insert.
  - intros k Hk. apply list_lookup_insert_ne. congruence.
  - intros b Hb'. rewrite Hb in Hb'. injection Hb' as <-.
    eexists. split.
    + apply list_lookup_insert_eq. eapply lookup_lt_Some; eauto.
    + cbn. repeat split.
Qed.

Lemma boughtUpgrade_frame (bi ui : nat) (building : Building) (upgrade : Upgrade) (s : GameState) :
  buildings s !! bi = Some building ->
  upgrades building !! ui = Some upgrade ->
  buyUpgrade_frame bi ui s (boughtUpgrade bi ui building upgrade s).
Proof.
  intros Hb Hu. unfold buyUpgrade_frame, boughtUpgrade. cbn.
  repeat split.
  - apply length_insert.
  - intros k Hk. apply list_lookup_insert_ne. congruence.
  - intros b Hb'. rewrite Hb in Hb'. injection Hb' as <-.
    eexists. split.
    + apply list_lookup_insert_eq. eapply lookup_lt_Some; eauto.
    + cbn. repeat split.
      * apply length_insert.
      * intros k Hk. apply list_lookup_insert_ne. congruence.
      * intros u Hu'. rewrite Hu in Hu'. injection Hu' as <-.
        eexists. split.
        -- apply list_lookup_insert_eq. eapply lookup_lt_Some; eauto.
        -- cbn. repeat split.
Qed.

(** C10: a successful [buyBuilding i] changes only [points] and the count of
    building [i]; a successful [buyUpgrade i j] changes only [points] and
    the [purchased] flag of upgrade [j] of building [i].  The other fields
    of the state, the other buildings and the other upgrades are the ones
    before the call. *)
Theorem purchase_frame (s s' : GameState) :
  (forall index, buyBuilding index s = Some (true, s') -> buyBuilding_frame index s s') /\
  (forall bi ui, buyUpgrade bi ui s = Some (true, s') -> buyUpgrade_frame bi ui s s').
Proof.
  split.
  - intros index H. apply buyBuilding_inv in H as (building & Hb & _ & ->).
    now apply boughtBuilding_frame.
  - intros bi ui H. apply buyUpgrade_inv in H as (building & upgrade & Hb & Hu & _ & _ & ->).
    now apply boughtUpgrade_frame.
Qed.

Lemma purchase_frame_witness :
  let s := set_points 200 (initialGameState 0) in
  exists s1 s2,
    (buyBuilding 1 s = Some (true, s1) /\ buyBuilding_frame 1 s s1) /\
    (buyUpgrade 0 0 s = Some (true, s2) /\ buyUpgrade_frame 0 0 s s2).
Proof.
  eexists. eexists. split.
  - split; [reflexivity|].
    exact (proj1 (purchase_frame (set_points 200 (initialGameState 0)) _) 1%nat eq_refl).
  - split; [reflexivity|].
    exact (proj2 (purchase_frame (set_points 200 (initialGameState 0)) _) 0%nat 0%nat eq_refl).
Defined.

(** ** Economy model *)

Lemma applyUpgrade_fold (us : list Upgrade) (acc : Q) :
  fold_left applyUpgrade us acc
  == acc * fold_right Qmult 1 (map productionMultiplier (List.filter purchased us)).
Proof.
  revert acc. induction us as [|u us IH]; intros acc; cbn [fold_left List.filter].
  - cbn. ring.
  - rewrite IH. unfold applyUpgrade. destruct (purchased u); cbn [map fold_right].
    + ring.
    + reflexivity.
Qed.

Lemma getBuildingProduction_formula (building : Building) :
  getBuildingProduction building == productionFormula building.
Proof.
  unfold getBuildingProduction, productionFormula, purchasedMultiplier.
  cbv zeta. rewrite applyUpgrade_fold. ring.
Qed.

Lemma sum_fold (bs : list Building) (acc : Q) :
  fold_left (fun total building => total + getBuildingProduction building) bs acc
  == acc + fold_right Qplus 0 (map productionFormula bs).
Proof.
  revert acc. induction bs as [|b bs IH]; intros acc; cbn [fold_left map fold_right].
  - ring.
  - rewrite IH, getBuildingProduction_formula. ring.
Qed.

(** C7: the production of a building is [count * baseProduction *
    multiplier], the multiplier being the product of [productionMultiplier]
    over exactly the purchased upgrades of that building; it is 0 when
    [count] is 0, whatever the upgrades; and the total production is the sum
    of the productions of the buildings. *)
Theorem production_formulas :
  (forall building, getBuildingProduction building == productionFormula building) /\
  (forall building, count building = 0%Z -> getBuildingProduction building == 0) /\
  (forall s, getTotalProduction s == totalProductionFormula s) /\
  (forall s, getTotalProduction s
             == fold_right Qplus 0 (map getBuildingProduction (buildings s))).
Proof.
  split; [|split; [|split]].
  - exact getBuildingProduction_formula.
  - intros building H0. unfold getBuildingProduction. rewrite H0. cbv zeta.
    change (inject_Z 0) with 0. ring.
  - intros s. unfold getTotalProduction, totalProductionFormula.
    rewrite sum_fold. ring.
  - intros s. unfold getTotalProduction. rewrite sum_fold.
    rewrite Qplus_0_l. induction (buildings s) as [|b bs IH]; cbn [map fold_right].
    + reflexivity.
    + rewrite IH, getBuildingProduction_formula. reflexivity.
Qed.

Lemma production_formulas_witness :
  let farm := mkBuilding "Farm" 0 100 1
                [ mkUpgrade "Fertilizer" true 1000 2 "Double the production of Farms" ] in
  count farm = 0%Z /\ getBuildingProduction farm == 0.
Proof.
  split; [reflexivity|].
  exact (proj1 (proj2 production_formulas)
           (mkBuilding "Farm" 0 100 1
              [ mkUpgrade "Fertilizer" true 1000 2 "Double the production of Farms" ])
           eq_refl).
Defined.

Lemma floor_bounds (x : Q) : inject_Z (Qfloor x) <= x /\ x < inject_Z (Qfloor x) + 1.
Proof.
  split; [apply Qfloor_le|].
  pose proof (Qlt_floor x) as H. rewrite inject_Z_plus in H. exact H.
Qed.

Lemma pow_succ (n : Z) : 1.15 ^ (n + 1) == 1.15 ^ n * 1.15.
Proof. rewrite Qpower_plus by discriminate. reflexivity. Qed.

Lemma cost_growth (building : Building) (n : Z) :
  let c := fun k => getBuildingCost (set_count k building) in
  1.15 * c n - 1 < c (n + 1)%Z /\ c (n + 1)%Z < 1.15 * c n + 1.15.
Proof.
  cbv zeta. unfold getBuildingCost, set_count. cbn [baseCost count].
  set (x := baseCost building * 1.15 ^ n).
  assert (Hx : baseCost building * 1.15 ^ (n + 1) == 1.15 * x).
  { unfold x. rewrite pow_succ. ring. }
  rewrite (Qfloor_comp _ _ Hx).
  destruct (floor_bounds x) as [H1 H2].
  destruct (floor_bounds (1.15 * x)) as [H3 H4].
  split; lra.
Qed.




(** ** Tick loop *)

Lemma inject_Z_sub (x y : Z) : inject_Z (x - y) = inject_Z x - inject_Z y.
Proof. unfold Z.sub, Qminus. now rewrite inject_Z_plus, inject_Z_opp. Qed.


(** ** Digits *)

Lemma digitsValue_fold (ds : list ascii) : digitsValue ds = fold_left digitStep ds 0%N.
Proof. reflexivity. Qed.

Lemma of_uint_acc_fold (d : Decimal.uint) (acc : positive) :
  N.pos (Pos.of_uint_acc d acc) = fold_left digitStep (uint_chars d) (N.pos acc).
Proof.
  revert acc. induction d; intros acc; cbn [Pos.of_uint_acc uint_chars fold_left];
    [reflexivity | rewrite IHd; f_equal; unfold digitStep, digitValue; cbn; lia ..].
Qed.

Lemma of_uint_fold (d : Decimal.uint) :
  Pos.of_uint d = fold_left digitStep (uint_chars d) 0%N.
Proof.
  induction d; cbn [Pos.of_uint uint_chars fold_left];
    [reflexivity | exact IHd | rewrite of_uint_acc_fold; reflexivity ..].
Qed.

Lemma digitsValue_digitsOf (n : N) : digitsValue (digitsOf n) = n.
Proof.
  unfold digitsOf. rewrite digitsValue_fold, <- of_uint_fold.
  apply DecimalN.Unsigned.of_to.
Qed.

Lemma uint_chars_digits (d : Decimal.uint) : Forall (fun c => isDigit c = true) (uint_chars d).
Proof. induction d; cbn [uint_chars]; constructor; auto. Qed.

Lemma digitsOf_digits (n : N) : Forall (fun c => isDigit c = true) (digitsOf n).
Proof. apply uint_chars_digits. Qed.

Lemma nzhead_chars (d : Decimal.uint) :
  Decimal.nzhead d = Decimal.Nil \/ leadingDigit (uint_chars (Decimal.nzhead d)).
Proof.
  induction d; cbn [Decimal.nzhead]; auto;
    right; eexists; eexists; cbn [uint_chars]; split; reflexivity.
Qed.

Lemma to_uint_normal (n : N) : Decimal.unorm (N.to_uint n) = N.to_uint n.
Proof.
  rewrite <- DecimalN.Unsigned.to_of, DecimalN.Unsigned.of_to. reflexivity.
Qed.

Lemma digitsOf_cases (n : N) :
  (n = 0%N /\ digitsOf n = ["0"%char]) \/ (n <> 0%N /\ leadingDigit (digitsOf n)).
Proof.
  destruct n as [|p]; [left; split; reflexivity|right].
  split; [discriminate|].
  unfold digitsOf. rewrite <- to_uint_normal.
  pose proof (DecimalPos.Unsigned.to_uint_nonzero p) as Hnz.
  assert (Hne : Decimal.nzhead (N.to_uint (N.pos p)) <> Decimal.Nil).
  { intros H. apply DecimalFacts.unorm_0 in H. rewrite to_uint_normal in H.
    cbn in H. contradiction. }
  rewrite DecimalFacts.unorm_nzhead by exact Hne.
  destruct (nzhead_chars (N.to_uint (N.pos p))) as [H|H]; [contradiction|exact H].
Qed.

Lemma digitsOf_validInt (n : N) : validInt (digitsOf n) = true.
Proof.
  destruct (digitsOf_cases n) as [[_ ->]|[_ (d & rest & -> & Hd)]]; [reflexivity|].
  cbn. destruct rest; [reflexivity|]. now rewrite Hd.
Qed.

Lemma readDigits_app (ds rest : list ascii) :
  Forall (fun c => isDigit c = true) ds ->
  match rest with c :: _ => isDigit c = false | [] => True end ->
  readDigits (ds ++ rest) = (ds, rest).
Proof.
  intros Hds Hrest. induction Hds as [|c ds Hc _ IH]; cbn [app readDigits].
  - destruct rest as [|c rest]; [reflexivity|]. cbn [readDigits]. now rewrite Hrest.
  - now rewrite Hc, IH.
Qed.

Lemma digitsValue_app (ds ds' : list ascii) :
  digitsValue (ds ++ ds') = fold_left digitStep ds' (digitsValue ds).
Proof. unfold digitsValue. apply fold_left_app. Qed.

Lemma digitStep_zeros (n : nat) (acc : N) :
  fold_left digitStep (zeros n) acc = (acc * 10 ^ N.of_nat n)%N.
Proof.
  revert acc. induction n as [|n IH]; intros acc.
  - cbn. lia.
  - cbn [zeros repeat fold_left]. fold (zeros n). rewrite IH.
    unfold digitStep, digitValue. cbn [N_of_ascii].
    rewrite Nnat.Nat2N.inj_succ, N.pow_succ_r'. cbn. lia.
Qed.


(** ** Finite decimal expansions *)

Lemma gauss_pow10 (k : nat) (d p : Z) :
  Z.gcd d 10 = 1%Z -> (d | p * 10 ^ Z.of_nat k)%Z -> (d | p)%Z.
Proof.
  intros Hg. induction k as [|k IH].
  - cbn. now rewrite Z.mul_1_r.
  - rewrite Nat2Z.inj_succ, Z.pow_succ_r by lia. intros H. apply IH.
    apply (Z.gauss d 10); [|exact Hg].
    replace (10 * (p * 10 ^ Z.of_nat k))%Z with (p * (10 * 10 ^ Z.of_nat k))%Z by ring.
    exact H.
Qed.

(** If some power of ten clears the denominator [d], one does whose
    exponent [j] has [2 ^ j <= d]. *)
Lemma pow10_bound (m : nat) : forall d p : Z,
  (0 < d)%Z -> (d | p * 10 ^ Z.of_nat m)%Z ->
  exists j : nat, (d | p * 10 ^ Z.of_nat j)%Z /\ (2 ^ Z.of_nat j <= d)%Z.
Proof.
  induction m as [|m IH]; intros d p Hd Hdiv.
  - exists 0%nat. split; [exact Hdiv|cbn; lia].
  - destruct (Z.eq_dec (Z.gcd d 10) 1%Z) as [Hg|Hg].
    + exists 0%nat. split; [|cbn; lia].
      cbn. rewrite Z.mul_1_r. eapply gauss_pow10; eauto.
    + set (g := Z.gcd d 10) in *.
      assert (Hg0 : (0 <= g)%Z) by apply Z.gcd_nonneg.
      assert (Hgd : (g | d)%Z) by apply Z.gcd_divide_l.
      assert (Hg10 : (g | 10)%Z) by apply Z.gcd_divide_r.
      assert (Hgne : g <> 0%Z).
      { intros H0. rewrite H0 in Hg10. destruct Hg10 as [x Hx]. lia. }
      assert (Hg2 : (2 <= g)%Z) by lia.
      destruct Hgd as [d' Hd']. destruct Hg10 as [t Ht].
      assert (Hd'pos : (0 < d')%Z) by nia.
      assert (Hdiv' : (d' | (p * t) * 10 ^ Z.of_nat m)%Z).
      { apply (Z.mul_divide_cancel_l _ _ g); [exact Hgne|].
        rewrite Nat2Z.inj_succ, Z.pow_succ_r in Hdiv by lia.
        replace (g * d')%Z with d by lia.
        replace (g * (p * t * 10 ^ Z.of_nat m))%Z
          with (p * (10 * 10 ^ Z.of_nat m))%Z by (rewrite Ht; ring).
        exact Hdiv. }
      destruct (IH d' (p * t)%Z Hd'pos Hdiv') as (j & Hj & Hpow).
      exists (S j). rewrite Nat2Z.inj_succ, !Z.pow_succ_r by lia. split.
      * replace d with (g * d')%Z by lia.
        replace (p * (10 * 10 ^ Z.of_nat j))%Z
          with (g * (p * t * 10 ^ Z.of_nat j))%Z by (rewrite Ht; ring).
        now apply Z.mul_divide_mono_l.
      * assert (0 < 2 ^ Z.of_nat j)%Z by (apply Z.pow_pos_nonneg; lia). nia.
Qed.

Lemma size_nat_gt (p : positive) : (Z.pos p < 2 ^ Z.of_nat (Pos.size_nat p))%Z.
Proof.
  induction p as [p IH|p IH|]; cbn [Pos.size_nat];
    rewrite ?Nat2Z.inj_succ, ?Z.pow_succ_r by lia; cbn; lia.
Qed.

Lemma pow2_size_nat (j : nat) (d : positive) :
  (2 ^ Z.of_nat j <= Z.pos d)%Z -> (j <= Pos.size_nat d)%nat.
Proof.
  intros H. pose proof (size_nat_gt d) as Hs.
  assert (Hlt : (2 ^ Z.of_nat j < 2 ^ Z.of_nat (Pos.size_nat d))%Z) by lia.
  apply Z.pow_lt_mono_r_iff in Hlt; lia.
Qed.

Lemma scaleSearch_exact (fuel : nat) : forall (num den : N) (m j : nat),
  den <> 0%N -> (j <= fuel)%nat -> ((num * 10 ^ N.of_nat j) mod den = 0)%N ->
  exists s k, scaleSearch fuel num den m = (s, (m + k)%nat) /\
              (s * den = num * 10 ^ N.of_nat k)%N.
Proof.
  induction fuel as [|fuel IH]; intros num den m j Hden Hj Hmod.
  - assert (j = 0%nat) by lia. subst j. cbn in Hmod. rewrite N.mul_1_r in Hmod.
    cbn [scaleSearch]. rewrite Hmod. cbn.
    exists (num / den)%N, 0%nat. split; [now rewrite Nat.add_0_r|].
    cbn. rewrite N.mul_1_r, N.mul_comm. symmetry. now apply N.Div0.div_exact.
  - cbn [scaleSearch]. destruct (num mod den =? 0)%N eqn:Hm.
    + apply N.eqb_eq in Hm. exists (num / den)%N, 0%nat.
      split; [now rewrite Nat.add_0_r|].
      cbn. rewrite N.mul_1_r, N.mul_comm. symmetry. now apply N.Div0.div_exact.
    + apply N.eqb_neq in Hm. destruct j as [|j].
      { cbn in Hmod. rewrite N.mul_1_r in Hmod. contradiction. }
      destruct (IH (num * 10)%N den (S m) j Hden ltac:(lia)) as (s & k & Hs & Hk).
      { rewrite Nnat.Nat2N.inj_succ, N.pow_succ_r' in Hmod.
        now rewrite <- N.mul_assoc. }
      exists s, (S k). split.
      * rewrite Hs. f_equal. lia.
      * rewrite Hk, Nnat.Nat2N.inj_succ, N.pow_succ_r'. lia.
Qed.

Lemma stripZeros_value (fuel : nat) : forall (s : N) (e : nat),
  exists s' k, stripZeros fuel s e = (s', (e + k)%nat) /\
               (s' * 10 ^ N.of_nat k = s)%N.
Proof.
  induction fuel as [|fuel IH]; intros s e; cbn [stripZeros].
  - exists s, 0%nat. split; [now rewrite Nat.add_0_r|cbn; lia].
  - destruct (s mod 10 =? 0)%N eqn:Hm.
    + apply N.eqb_eq in Hm.
      destruct (IH (s / 10)%N (S e)) as (s' & k & Hs & Hk).
      exists s', (S k). split.
      * rewrite Hs. f_equal. lia.
      * rewrite Nnat.Nat2N.inj_succ, N.pow_succ_r'.
        replace (s' * (10 * 10 ^ N.of_nat k))%N with (10 * (s' * 10 ^ N.of_nat k))%N by lia.
        rewrite Hk. symmetry. now apply N.Div0.div_exact.
    + exists s, 0%nat. split; [now rewrite Nat.add_0_r|cbn; lia].
Qed.

Lemma pow10_nat (k : nat) : 10 ^ Z.of_nat k == inject_Z (Z.of_N (10 ^ N.of_nat k)).
Proof.
  rewrite N2Z.inj_pow, nat_N_Z. change (Z.of_N 10) with 10%Z.
  rewrite Zpower_Qpower by lia. reflexivity.
Qed.

Lemma pow10_nonzero (e : Z) : ~ 10 ^ e == 0.
Proof.
  apply Qpower_not_0. discriminate.
Qed.

Lemma pow10_opp (e : Z) : 10 ^ (- e) == / 10 ^ e.
Proof. apply Qpower_opp. Qed.

Lemma pow10_add (a b : Z) : 10 ^ (a + b) == 10 ^ a * 10 ^ b.
Proof. apply Qpower_plus. discriminate. Qed.

Lemma inject_N_mul (a b : N) :
  inject_Z (Z.of_N (a * b)) = inject_Z (Z.of_N a) * inject_Z (Z.of_N b).
Proof. now rewrite N2Z.inj_mul, inject_Z_mult. Qed.

(** [s * den = num * 10 ^ k] read in [Q]. *)
Lemma scaled_value (s : N) (num den : positive) (k : nat) :
  (s * N.pos den = N.pos num * 10 ^ N.of_nat k)%N ->
  inject_Z (Z.of_N s) * 10 ^ (- Z.of_nat k) == Z.pos num # den.
Proof.
  intros H.
  assert (H' : inject_Z (Z.of_N s) * inject_Z (Z.pos den)
               == inject_Z (Z.pos num) * 10 ^ Z.of_nat k).
  { rewrite pow10_nat.
    change (Z.pos den) with (Z.of_N (N.pos den)).
    change (Z.pos num) with (Z.of_N (N.pos num)).
    rewrite <- !inject_N_mul, H. reflexivity. }
  rewrite pow10_opp, (Qmake_Qdiv (Z.pos num) den).
  pose proof (pow10_nonzero (Z.of_nat k)) as Hnz.
  set (P := 10 ^ Z.of_nat k) in *.
  assert (Hden : ~ inject_Z (Z.pos den) == 0) by discriminate.
  set (D := inject_Z (Z.pos den)) in *. set (X := inject_Z (Z.of_N s)) in *.
  set (Y := inject_Z (Z.pos num)) in *.
  apply (Qmult_inj_r _ _ (D * P)).
  { intros H0. apply Qmult_integral in H0. tauto. }
  transitivity (X * D); [field; exact Hnz|].
  rewrite H'. field. exact Hden.
Qed.

Lemma decimal_divides (num den : positive) :
  decimal (Z.pos num # den) ->
  exists m : nat, (Z.pos den | Z.pos num * 10 ^ Z.of_nat m)%Z.
Proof.
  intros (m & z & H). exists m. exists z.
  apply inject_Z_injective. rewrite !inject_Z_mult, <- H.
  rewrite Zpower_Qpower by lia. change (inject_Z 10) with 10.
  set (P := 10 ^ Z.of_nat m). rewrite (Qmake_Qdiv (Z.pos num) den).
  field. discriminate.
Qed.

Lemma decimalExpansion_value (num den : positive) :
  decimal (Z.pos num # den) ->
  exists s e, decimalExpansion num den = (s, e) /\ s <> 0%N /\
              inject_Z (Z.of_N s) * 10 ^ e == Z.pos num # den.
Proof.
  intros Hdec. destruct (decimal_divides _ _ Hdec) as (m & Hdiv).
  destruct (pow10_bound m _ _ (Pos2Z.is_pos den) Hdiv) as (j & Hj & Hpow).
  apply pow2_size_nat in Hpow.
  assert (Hmod : ((N.pos num * 10 ^ N.of_nat j) mod N.pos den = 0)%N).
  { apply N2Z.inj. rewrite N2Z.inj_mod, N2Z.inj_mul, N2Z.inj_pow, nat_N_Z.
    cbn [Z.of_N]. apply Z.mod_divide in Hj; [exact Hj|lia]. }
  destruct (scaleSearch_exact (Pos.size_nat den) (N.pos num) (N.pos den) 0 j
              ltac:(discriminate) Hpow Hmod) as (s & k & Hs & Hk).
  unfold decimalExpansion. rewrite Hs. cbn [Nat.add].
  assert (Hs0 : s <> 0%N).
  { intros ->. rewrite N.mul_0_l in Hk. symmetry in Hk.
    apply N.eq_mul_0 in Hk. destruct Hk as [Hk|Hk]; [discriminate|].
    apply N.pow_nonzero in Hk; [exact Hk|discriminate]. }
  destruct k as [|k].
  - destruct (stripZeros_value (Pos.size_nat num) s 0) as (s' & k' & Hs' & Hk').
    rewrite Hs'. cbn [Nat.add]. exists s', (Z.of_nat k'). split; [reflexivity|]. split.
    + intros ->. rewrite N.mul_0_l in Hk'. congruence.
    + rewrite pow10_nat, <- inject_N_mul, Hk'.
      transitivity (inject_Z (Z.of_N s) * 10 ^ (- Z.of_nat 0));
        [|now apply scaled_value].
      change (10 ^ (- Z.of_nat 0)) with 1. ring.
  - exists s, (- Z.of_nat (S k))%Z. split; [reflexivity|]. split; [exact Hs0|].
    now apply scaled_value.
Qed.

(** ** Numbers: reading back what [Number::toString] writes *)

Lemma digit_not (c c' : ascii) :
  isDigit c = true -> isDigit c' = false -> Ascii.eqb c c' = false.
Proof.
  intros H H'. destruct (Ascii.eqb_spec c c') as [->|]; [congruence|reflexivity].
Qed.

Lemma endsNumber_head (rest : list ascii) :
  endsNumber rest = true ->
  match rest with c :: _ => isDigit c = false | [] => True end /\
  startsWith "." rest = false /\ startsWith "e" rest = false /\
  startsWith "E" rest = false.
Proof.
  destruct rest as [|c rest]; [now repeat split|].
  cbn [endsNumber startsWith]. rewrite negb_true_iff, !orb_false_iff. tauto.
Qed.

Lemma readExponent_none (rest : list ascii) :
  endsNumber rest = true -> readExponent rest = Ok (0%Z, rest).
Proof.
  intros H. apply endsNumber_head in H as (_ & _ & He & HE).
  unfold readExponent. now rewrite He, HE.
Qed.

Lemma readExponent_some (e : Z) (rest : list ascii) :
  match rest with c :: _ => isDigit c = false | [] => True end ->
  readExponent ("e"%char :: (if (e <? 0)%Z then "-"%char else "+"%char)
                  :: digitsOf (Z.abs_N e) ++ rest)
  = Ok (e, rest).
Proof.
  intros Hrest. unfold readExponent. cbn [startsWith tl Ascii.eqb orb].
  change (Ascii.eqb "e" "e") with true. cbn [orb].
  assert (Hread : readDigits (digitsOf (Z.abs_N e) ++ rest) = (digitsOf (Z.abs_N e), rest))
    by (apply readDigits_app; [apply digitsOf_digits|exact Hrest]).
  assert (Hne : digitsOf (Z.abs_N e) <> []).
  { intros H0. pose proof (digitsOf_validInt (Z.abs_N e)) as Hv. rewrite H0 in Hv.
    discriminate. }
  destruct (e <? 0)%Z eqn:Hneg; cbn [startsWith tl];
    unfold readExponentDigits; rewrite Hread;
    destruct (digitsOf (Z.abs_N e)) as [|d ds] eqn:Hds; try contradiction;
    rewrite <- Hds, digitsValue_digitsOf; do 2 f_equal.
  - apply Z.ltb_lt in Hneg. rewrite N2Z.inj_abs_N. lia.
  - apply Z.ltb_ge in Hneg. rewrite N2Z.inj_abs_N. lia.
Qed.

Lemma parseUnsigned_parts (ids fds tail rest : list ascii) (e : Z) :
  Forall (fun c => isDigit c = true) ids -> validInt ids = true ->
  Forall (fun c => isDigit c = true) fds ->
  match tail with c :: _ => isDigit c = false | [] => True end ->
  startsWith "." tail = false ->
  readExponent tail = Ok (e, rest) ->
  parseUnsigned (ids ++ fractionText fds ++ tail)
  = Ok (inject_Z (Z.of_N (digitsValue (ids ++ fds))) * 10 ^ (e - Z.of_nat (length fds)),
        rest).
Proof.
  intros Hids Hvalid Hfds Htail Hpoint Hexp. unfold parseUnsigned.
  rewrite readDigits_app; [|exact Hids|].
  2:{ destruct fds; cbn [fractionText app]; [exact Htail|reflexivity]. }
  rewrite Hvalid. destruct fds as [|f fds]; cbn [fractionText app].
  - unfold readFraction. rewrite Hpoint. cbn [bind]. rewrite Hexp. reflexivity.
  - unfold readFraction. cbn [startsWith tl].
    change (Ascii.eqb "." ".") with true. cbv iota.
    change (f :: fds ++ tail) with ((f :: fds) ++ tail).
    rewrite readDigits_app by assumption. cbn [bind]. rewrite Hexp. reflexivity.
Qed.

Lemma zeros_digits (n : nat) : Forall (fun c => isDigit c = true) (zeros n).
Proof. induction n; cbn; constructor; auto. Qed.

Lemma digitsValue_zeros_r (ds : list ascii) (n : nat) :
  digitsValue (ds ++ zeros n) = (digitsValue ds * 10 ^ N.of_nat n)%N.
Proof. now rewrite digitsValue_app, digitStep_zeros. Qed.

Lemma digitsValue_zeros_l (n : nat) (ds : list ascii) :
  digitsValue ("0"%char :: zeros n ++ ds) = digitsValue ds.
Proof.
  change ("0"%char :: zeros n ++ ds) with (zeros (S n) ++ ds).
  rewrite digitsValue_app. unfold digitsValue at 1. now rewrite digitStep_zeros.
Qed.

Lemma validInt_leading (ds more : list ascii) :
  leadingDigit ds -> validInt (ds ++ more) = true.
Proof.
  intros (d & rest & -> & Hd). cbn. destruct (rest ++ more); [reflexivity|].
  now rewrite Hd.
Qed.

Lemma validInt_firstn (ds : list ascii) (n : nat) :
  leadingDigit ds -> (0 < n)%nat -> validInt (firstn n ds) = true.
Proof.
  intros (d & rest & -> & Hd) Hn. destruct n as [|n]; [lia|]. cbn.
  destruct (firstn n rest); [reflexivity|]. now rewrite Hd.
Qed.

(** The text of a positive number with a finite decimal expansion is read
    back as that number. *)
Lemma positiveToString_parse (num den : positive) (rest : list ascii) :
  decimal (Z.pos num # den) -> endsNumber rest = true ->
  exists x, parseUnsigned (positiveToString num den ++ rest) = Ok (x, rest) /\
            x == Z.pos num # den.
Proof.
  intros Hdec Hrest.
  destruct (decimalExpansion_value num den Hdec) as (s & e & Hexp & Hs0 & Hval).
  destruct (endsNumber_head rest Hrest) as (Hnd & Hpoint & _).
  pose proof (readExponent_none rest Hrest) as Hnoexp.
  unfold positiveToString. rewrite Hexp.
  destruct (digitsOf_cases s) as [[? _]|[_ Hlead]]; [contradiction|].
  pose proof (digitsOf_digits s) as Hdigits.
  pose proof (digitsValue_digitsOf s) as Hvalue.
  set (ds := digitsOf s) in *. set (k := Z.of_nat (length ds)).
  assert (Hk : (0 < k)%Z).
  { destruct Hlead as (d & r & Hds & _). unfold k. rewrite Hds. cbn [length]. lia. }
  cbv zeta.
  destruct ((k <=? k + e)%Z && (k + e <=? 21)%Z) eqn:HA.
  { (* digits followed by zeros *)
    apply andb_true_iff in HA as [HA _]. apply Z.leb_le in HA.
    eexists. split.
    - pose proof (parseUnsigned_parts (ds ++ zeros (Z.to_nat (k + e - k))) [] rest rest 0) as H.
      cbn [fractionText app] in H. rewrite app_nil_r in H. apply H; auto.
      + apply Forall_app. split; [exact Hdigits|apply zeros_digits].
      + now apply validInt_leading.
    - rewrite digitsValue_zeros_r, Hvalue, inject_N_mul, <- pow10_nat. cbn [length].
      rewrite <- Hval. replace (Z.of_nat (Z.to_nat (k + e - k))) with e by lia.
      change (10 ^ (0 - Z.of_nat 0)) with 1. ring. }
  destruct ((0 <? k + e)%Z && (k + e <=? 21)%Z) eqn:HB.
  { (* a point inside the digits *)
    apply andb_true_iff in HB as [HB HB']. apply Z.ltb_lt in HB. apply Z.leb_le in HB'.
    assert (He : (e < 0)%Z).
    { apply andb_false_iff in HA as [HA|HA];
        [apply Z.leb_gt in HA|apply Z.leb_gt in HA]; lia. }
    set (n := Z.to_nat (k + e)).
    assert (Hlen : length (skipn n ds) = Z.to_nat (- e)).
    { rewrite length_skipn. unfold n, k. lia. }
    destruct (skipn n ds) as [|f fds] eqn:Hskip; [cbn in Hlen; lia|].
    eexists. split.
    - pose proof (parseUnsigned_parts (firstn n ds) (f :: fds) rest rest 0) as H.
      cbn [fractionText] in H. rewrite <- app_assoc. apply H; auto.
      + apply Forall_take. exact Hdigits.
      + apply validInt_firstn; [exact Hlead|unfold n; lia].
      + rewrite <- Hskip. apply Forall_drop. exact Hdigits.
    - rewrite Hlen, <- Hskip, firstn_skipn, Hvalue, <- Hval.
      replace (0 - Z.of_nat (Z.to_nat (- e)))%Z with e by lia. reflexivity. }
  destruct ((-6 <? k + e)%Z && (k + e <=? 0)%Z) eqn:HC.
  { (* zero, a point, zeros and the digits *)
    apply andb_true_iff in HC as [_ HC]. apply Z.leb_le in HC.
    destruct Hlead as (d & r & Hds & Hd).
    eexists. split.
    - pose proof (parseUnsigned_parts ["0"%char] (zeros (Z.to_nat (- (k + e))) ++ ds)
                    rest rest 0) as H.
      assert (Hne : exists f fds, zeros (Z.to_nat (- (k + e))) ++ ds = f :: fds).
      { rewrite Hds. destruct (zeros (Z.to_nat (- (k + e)))); cbn; eauto. }
      destruct Hne as (f & fds & Hne). rewrite Hne in H. cbn [fractionText] in H.
      rewrite <- Hne in H. cbn [app] in H. cbn [app]. apply H; auto.
      apply Forall_app. split; [apply zeros_digits|exact Hdigits].
    - cbn [app]. rewrite digitsValue_zeros_l, Hvalue, <- Hval.
      rewrite length_app. unfold zeros at 1. rewrite repeat_length.
      replace (0 - Z.of_nat (Z.to_nat (- (k + e)) + length ds))%Z with e
        by (unfold k; lia).
      reflexivity. }
  (* exponent notation *)
  destruct Hlead as (d & r & Hds & Hd).
  assert (Hmant : (match ds with
                   | d :: (_ :: _) as rest => d :: "."%char :: rest
                   | _ => ds
                   end) = [d] ++ fractionText r).
  { rewrite Hds. destruct r; reflexivity. }
  assert (Hdr : isDigit d = true /\ Forall (fun c => isDigit c = true) r).
  { rewrite Hds in Hdigits. inversion Hdigits as [|? ? H1 H2]. split; assumption. }
  rewrite Hmant. eexists. split.
  - rewrite <- !app_assoc.
    change (("e"%char :: ?x :: ?y) ++ rest) with ("e"%char :: x :: y ++ rest).
    apply parseUnsigned_parts.
    + repeat constructor. apply Hdr.
    + reflexivity.
    + apply Hdr.
    + reflexivity.
    + reflexivity.
    + cbn [app]. apply readExponent_some. exact Hnd.
  - cbn [app]. rewrite <- Hds, Hvalue, <- Hval.
    replace (k + e - 1 - Z.of_nat (length r))%Z with e; [reflexivity|].
    unfold k. rewrite Hds. cbn [length]. lia.
Qed.

Lemma parseUnsigned_head (input : list ascii) (r : Q * list ascii) :
  parseUnsigned input = Ok r ->
  exists d rest, input = d :: rest /\ isDigit d = true.
Proof.
  unfold parseUnsigned. destruct input as [|c rest]; [discriminate|].
  cbn [readDigits]. destruct (isDigit c) eqn:Hc; [eauto|discriminate].
Qed.

Lemma positiveToString_head (num den : positive) :
  decimal (Z.pos num # den) ->
  exists d rest, positiveToString num den = d :: rest /\ isDigit d = true.
Proof.
  intros Hdec.
  destruct (positiveToString_parse num den [] Hdec eq_refl) as (x & Hx & _).
  rewrite app_nil_r in Hx. eapply parseUnsigned_head; eauto.
Qed.

Lemma decimal_opp (x : Q) : decimal x -> decimal (- x).
Proof.
  intros (m & z & H). exists m, (- z)%Z. rewrite inject_Z_opp, <- H. ring.
Qed.

Lemma decimal_comp (x y : Q) : x == y -> decimal x -> decimal y.
Proof. intros Hxy (m & z & H). exists m, z. now rewrite <- Hxy. Qed.

Lemma numberToString_parse (x : Q) (rest : list ascii) :
  decimal x -> endsNumber rest = true ->
  numberHead (numberToString x) /\
  exists x', parseNumber (numberToString x ++ rest) = Ok (x', rest) /\ x' == x.
Proof.
  intros Hdec Hrest. destruct x as [num den]. unfold numberToString. cbn [Qnum Qden].
  destruct (endsNumber_head rest Hrest) as (Hnd & Hpoint & _).
  destruct num as [|num|num].
  - split; [exists "0"%char, []; auto|].
    unfold parseNumber. cbn [app startsWith]. change (Ascii.eqb "0" "-") with false.
    cbv iota.
    pose proof (parseUnsigned_parts ["0"%char] [] rest rest 0) as H.
    cbn [fractionText app] in H. rewrite H; auto using readExponent_none.
    eexists. split; [reflexivity|]. reflexivity.
  - destruct (positiveToString_head num den Hdec) as (d & tl & Htext & Hd).
    split; [exists d, tl; auto|].
    destruct (positiveToString_parse num den rest Hdec Hrest) as (x' & Hx' & Heq).
    exists x'. split; [|exact Heq].
    unfold parseNumber. rewrite Htext in *. cbn [app startsWith].
    rewrite (digit_not d "-" Hd eq_refl). exact Hx'.
  - assert (Hpos : decimal (Z.pos num # den)).
    { apply decimal_opp in Hdec. exact Hdec. }
    split; [exists "-"%char, (positiveToString num den); auto|].
    destruct (positiveToString_parse num den rest Hpos Hrest) as (x' & Hx' & Heq).
    exists (- x'). split.
    + unfold parseNumber. cbn [app startsWith tl].
      change (Ascii.eqb "-" "-") with true. cbv iota. rewrite Hx'. reflexivity.
    + rewrite Heq. reflexivity.
Qed.

(** ** Strings: reading back what [QuoteJSONString] writes *)

Lemma parseChars_quoteChar (c : ascii) (tail : list ascii) :
  parseChars (quoteChar c ++ tail)
  = let* (cs, r) := parseChars tail in Ok (c :: cs, r).
Proof.
  destruct c as [[] [] [] [] [] [] [] []]; reflexivity.
Qed.

Lemma parseChars_quoted (cs rest : list ascii) :
  parseChars (flat_map quoteChar cs ++ dquote :: rest) = Ok (cs, rest).
Proof.
  induction cs as [|c cs IH]; [reflexivity|].
  cbn [flat_map]. rewrite <- app_assoc, parseChars_quoteChar, IH. reflexivity.
Qed.

Lemma parseString_quote (s : string) (rest : list ascii) :
  exists body, quote s ++ rest = dquote :: body /\ parseString body = Ok (s, rest).
Proof.
  exists (flat_map quoteChar (chars s) ++ dquote :: rest). split.
  { unfold quote. cbn [app]. now rewrite <- app_assoc. }
  unfold parseString. rewrite parseChars_quoted. cbn [bind]. unfold chars.
  now rewrite string_of_list_ascii_of_string.
Qed.

(** ** Documents: reading back what [JSON.stringify] writes *)

Lemma json_induction (P : json -> Prop) :
  P JNull -> (forall b, P (JBool b)) -> (forall x, P (JNumber x)) ->
  (forall s, P (JString s)) ->
  (forall vs, Forall P vs -> P (JArray vs)) ->
  (forall ms, Forall (fun m => P (snd m)) ms -> P (JObject ms)) ->
  forall v, P v.
Proof.
  intros Hnull Hbool Hnum Hstr Harr Hobj.
  fix IH 1. intros [ |b|x|s|vs|ms].
  - exact Hnull.
  - apply Hbool.
  - apply Hnum.
  - apply Hstr.
  - apply Harr. induction vs as [|v vs IHvs]; constructor; [apply IH|exact IHvs].
  - apply Hobj. induction ms as [|m ms IHms]; constructor; [apply IH|exact IHms].
Qed.

Lemma skipWs_start (c : ascii) (rest : list ascii) :
  valueStart c = true -> skipWs (c :: rest) = c :: rest.
Proof.
  unfold valueStart. rewrite negb_true_iff, !orb_false_iff. intros [[[[H _] _] _] _].
  cbn [skipWs]. now rewrite H.
Qed.

Lemma skipWs_spaces (n : nat) (text : list ascii) : skipWs (spaces n ++ text) = skipWs text.
Proof. induction n as [|n IH]; [reflexivity|exact IH]. Qed.

Lemma skipWs_break (n : nat) (text : list ascii) :
  skipWs (newline :: spaces n ++ text) = skipWs text.
Proof. cbn [skipWs]. change (isWhitespace newline) with true. apply skipWs_spaces. Qed.

Lemma skipWs_idem (text : list ascii) : skipWs (skipWs text) = skipWs text.
Proof.
  induction text as [|c text IH]; [reflexivity|]. cbn [skipWs].
  destruct (isWhitespace c) eqn:Hc; [exact IH|]. cbn [skipWs]. now rewrite Hc.
Qed.

Lemma parseValue_skipWs (fuel : nat) (text : list ascii) :
  parseValue fuel (skipWs text) = parseValue fuel text.
Proof. destruct fuel; [reflexivity|]. cbn [parseValue]. now rewrite skipWs_idem. Qed.

Lemma parseValue_skip (fuel : nat) (text text' : list ascii) :
  skipWs text = skipWs text' -> parseValue fuel text = parseValue fuel text'.
Proof. intros H. now rewrite <- (parseValue_skipWs fuel text), H, parseValue_skipWs. Qed.

Lemma parseElements_skip (fuel : nat) (text text' : list ascii) :
  skipWs text = skipWs text' -> parseElements fuel text = parseElements fuel text'.
Proof.
  intros H. destruct fuel; [reflexivity|]. cbn [parseElements].
  now rewrite (parseValue_skip fuel text text' H).
Qed.

Lemma parseMembers_skip (fuel : nat) (text text' : list ascii) :
  skipWs text = skipWs text' -> parseMembers fuel text = parseMembers fuel text'.
Proof. intros H. destruct fuel; [reflexivity|]. cbn [parseMembers]. now rewrite H. Qed.

Lemma numberHead_start (text : list ascii) :
  numberHead text ->
  exists c rest, text = c :: rest /\ valueStart c = true /\
    Ascii.eqb c "{" = false /\ Ascii.eqb c "[" = false /\
    Ascii.eqb c dquote = false /\
    Ascii.eqb c "-" || isDigit c = true.
Proof.
  intros (c & rest & -> & Hc). exists c, rest. split; [reflexivity|].
  destruct Hc as [Hc| ->]; [|repeat split; reflexivity].
  assert (Hnot : forall c', isDigit c' = false -> Ascii.eqb c c' = false)
    by (intros c'; now apply digit_not).
  unfold valueStart. rewrite !Hnot by reflexivity.
  assert (Hws : isWhitespace c = false).
  { destruct (isWhitespace c) eqn:Hw; [|reflexivity].
    unfold isWhitespace in Hw. unfold isDigit in Hc.
    rewrite !orb_true_iff, !N.eqb_eq in Hw. rewrite andb_true_iff, !N.leb_le in Hc. lia. }
  rewrite Hws, Hc. repeat split.
Qed.

Lemma skipWs_close (i : nat) (c : ascii) (rest : list ascii) :
  valueStart c = false -> isWhitespace c = false ->
  skipWs (newline :: spaces i ++ c :: rest) = c :: rest.
Proof. intros _ Hc. rewrite skipWs_break. cbn [skipWs]. now rewrite Hc. Qed.

Lemma parseElements_items (indent i : nat) (rest : list ascii) (vs : list json) :
  vs <> [] -> Forall readsBack vs -> Forall decimal_json vs ->
  forall fuel, (list_sum (map (fun v => S (jsonSize v)) vs) <= fuel)%nat ->
  exists vs',
    parseElements fuel (joinItems indent (map (stringifyAt indent) vs)
                          ++ newline :: spaces i ++ "]"%char :: rest)
    = Ok (vs', rest) /\ Forall2 json_equiv vs vs'.
Proof.
  induction vs as [|v vs IH]; [contradiction|]. intros _ Hread Hdec fuel Hfuel.
  apply Forall_cons in Hread as [Hv Hread]. apply Forall_cons in Hdec as [Hdv Hdec].
  cbn [map list_sum fold_right] in Hfuel. destruct fuel as [|fuel]; [lia|].
  cbn [parseElements]. destruct vs as [|v2 more].
  - cbn [map joinItems].
    destruct (Hv Hdv indent (newline :: spaces i ++ "]"%char :: rest) fuel
                ltac:(lia) eq_refl) as (_ & v' & Hparse & Hequiv).
    rewrite Hparse. cbn [bind]. rewrite skipWs_close by reflexivity.
    cbn [startsWith tl]. change (Ascii.eqb "]" ",") with false.
    change (Ascii.eqb "]" "]") with true. cbv iota.
    exists [v']. split; [reflexivity|]. constructor; [exact Hequiv|constructor].
  - change (joinItems indent (map (stringifyAt indent) (v :: v2 :: more)))
      with (stringifyAt indent v ++ ","%char :: newline :: spaces indent
              ++ joinItems indent (map (stringifyAt indent) (v2 :: more))).
    rewrite <- app_assoc. cbn [app]. rewrite <- app_assoc.
    match goal with
    | |- context [parseValue fuel (stringifyAt indent v ++ ?r)] =>
        destruct (Hv Hdv indent r fuel ltac:(lia) eq_refl)
          as (_ & v' & Hparse & Hequiv)
    end.
    rewrite Hparse. cbn [bind skipWs]. change (isWhitespace ",") with false.
    cbv iota. cbn [startsWith tl]. change (Ascii.eqb "," ",") with true. cbv iota.
    destruct (IH ltac:(discriminate) Hread Hdec fuel) as (vs' & Hvs' & Hequivs).
    { cbn [map list_sum fold_right] in *. lia. }
    rewrite (parseElements_skip fuel _ _
               (skipWs_break indent
                  (joinItems indent (map (stringifyAt indent) (v2 :: more))
                     ++ newline :: spaces i ++ "]"%char :: rest))).
    rewrite Hvs'. cbn [bind]. exists (v' :: vs'). split; [reflexivity|].
    constructor; assumption.
Qed.

Lemma list_sum_cons (x : nat) (l : list nat) : list_sum (x :: l) = (x + list_sum l)%nat.
Proof. reflexivity. Qed.

Lemma parseMembers_step (fuel : nat) (text body afterKey afterColon rest1 : list ascii)
    (k : string) (v' : json) :
  skipWs text = dquote :: body ->
  parseString body = Ok (k, afterKey) ->
  skipWs afterKey = ":"%char :: afterColon ->
  parseValue fuel afterColon = Ok (v', rest1) ->
  parseMembers (S fuel) text
  = if startsWith "," (skipWs rest1) then
      let* (ms, r) := parseMembers fuel (tl (skipWs rest1)) in Ok ((k, v') :: ms, r)
    else if startsWith "}" (skipWs rest1) then Ok ([(k, v')], tl (skipWs rest1))
    else SyntaxError.
Proof.
  intros Htext Hkey Hcolon Hvalue. cbn [parseMembers]. rewrite Htext.
  cbn [startsWith tl]. change (Ascii.eqb dquote dquote) with true. cbv iota.
  rewrite Hkey. cbn [bind]. rewrite Hcolon. cbn [startsWith tl].
  change (Ascii.eqb ":" ":") with true. cbv iota. rewrite Hvalue. reflexivity.
Qed.

Lemma memberText_parts (indent : nat) (k : string) (v : json) (tail : list ascii) :
  exists body,
    skipWs ((quote k ++ ":"%char :: " "%char :: stringifyAt indent v) ++ tail)
    = dquote :: body /\
    parseString body = Ok (k, ":"%char :: " "%char :: stringifyAt indent v ++ tail).
Proof.
  rewrite <- app_assoc. cbn [app].
  destruct (parseString_quote k (":"%char :: " "%char :: stringifyAt indent v ++ tail))
    as (body & Hq & Hps).
  exists body. rewrite Hq. split; [reflexivity|exact Hps].
Qed.

Lemma parseMembers_items (indent i : nat) (rest : list ascii) (ms : list (string * json)) :
  ms <> [] -> Forall (fun m => readsBack (snd m)) ms ->
  Forall (fun m => decimal_json (snd m)) ms ->
  forall fuel, (list_sum (map (fun m => S (jsonSize (snd m))) ms) <= fuel)%nat ->
  exists ms',
    parseMembers fuel
      (joinItems indent
         (map (fun member => quote (fst member) ++ ":"%char :: " "%char
                               :: stringifyAt indent (snd member)) ms)
         ++ newline :: spaces i ++ "}"%char :: rest)
    = Ok (ms', rest) /\
    Forall2 (fun m m' => fst m = fst m' /\ json_equiv (snd m) (snd m')) ms ms'.
Proof.
  induction ms as [|[k v] ms IH]; [contradiction|]. intros _ Hread Hdec fuel Hfuel.
  apply Forall_cons in Hread as [Hv Hread]. apply Forall_cons in Hdec as [Hdv Hdec].
  cbn [fst snd] in *.
  cbn [map snd] in Hfuel. rewrite list_sum_cons in Hfuel.
  destruct fuel as [|fuel]; [lia|].
  destruct ms as [|m2 more].
  - cbn [map joinItems fst snd].
    set (tail := newline :: spaces i ++ "}"%char :: rest).
    destruct (memberText_parts indent k v tail) as (body & Htext & Hkey).
    destruct (Hv Hdv indent tail fuel ltac:(lia) eq_refl) as (_ & v' & Hparse & Hequiv).
    rewrite (parseMembers_step fuel _ body _ (" "%char :: stringifyAt indent v ++ tail)
               tail k v' Htext Hkey eq_refl).
    2:{ rewrite <- Hparse. apply parseValue_skip. reflexivity. }
    unfold tail. rewrite skipWs_close by reflexivity.
    cbn [startsWith tl]. change (Ascii.eqb "}" ",") with false.
    change (Ascii.eqb "}" "}") with true. cbv iota.
    exists [(k, v')]. split; [reflexivity|]. constructor; [now split|constructor].
  - set (more' := m2 :: more) in *.
    change (joinItems indent
              (map (fun member => quote (fst member) ++ ":"%char :: " "%char
                                    :: stringifyAt indent (snd member)) ((k, v) :: more')))
      with ((quote k ++ ":"%char :: " "%char :: stringifyAt indent v)
              ++ ","%char :: newline :: spaces indent
              ++ joinItems indent
                   (map (fun member => quote (fst member) ++ ":"%char :: " "%char
                                         :: stringifyAt indent (snd member)) more')).
    rewrite <- app_assoc.
    match goal with
    | |- context [parseMembers (S fuel) (?item ++ ?t)] => set (tail := t)
    end.
    destruct (memberText_parts indent k v tail) as (body & Htext & Hkey).
    destruct (Hv Hdv indent tail fuel ltac:(lia) eq_refl) as (_ & v' & Hparse & Hequiv).
    rewrite (parseMembers_step fuel _ body _ (" "%char :: stringifyAt indent v ++ tail)
               tail k v' Htext Hkey eq_refl).
    2:{ rewrite <- Hparse. apply parseValue_skip. reflexivity. }
    unfold tail. cbn [app skipWs]. change (isWhitespace ",") with false. cbv iota.
    cbn [startsWith tl]. change (Ascii.eqb "," ",") with true. cbv iota.
    destruct (IH ltac:(discriminate) Hread Hdec fuel) as (ms' & Hms' & Hequivs).
    { lia. }
    rewrite <- app_assoc.
    match goal with
    | |- context [parseMembers fuel (newline :: spaces indent ++ ?t)] =>
        rewrite (parseMembers_skip fuel _ _ (skipWs_break indent t))
    end.
    rewrite Hms'. cbn [bind]. exists ((k, v') :: ms'). split; [reflexivity|].
    constructor; [now split|assumption].
Qed.

Lemma joinItems_head (indent : nat) (item : list ascii) (items : list (list ascii))
    (tail : list ascii) :
  valueHead item ->
  exists c rest, joinItems indent (item :: items) ++ tail = c :: rest /\
                 valueStart c = true.
Proof.
  intros (c & r & -> & Hc). destruct items; cbn; eauto.
Qed.

Lemma endsValue_endsNumber (rest : list ascii) :
  endsValue rest = true -> endsNumber rest = true.
Proof.
  destruct rest as [|c rest]; [reflexivity|]. cbn [endsValue endsNumber].
  rewrite orb_true_iff. intros [H|H]; apply Ascii.eqb_eq in H; subst; reflexivity.
Qed.

Lemma valueStart_facts (c : ascii) :
  valueStart c = true ->
  isWhitespace c = false /\ Ascii.eqb c "]" = false /\ Ascii.eqb c "}" = false.
Proof.
  unfold valueStart. rewrite negb_true_iff, !orb_false_iff. tauto.
Qed.

(** Every document whose numbers have a finite decimal expansion is read
    back from its text. *)
Lemma stringifyAt_readsBack (v : json) : readsBack v.
Proof.
  induction v as [ |b|x|s|vs IH|ms IH] using json_induction;
    intros Hdec indent rest fuel Hfuel Hrest;
    (destruct fuel as [|fuel]; [cbn in Hfuel; lia|]).
  - split; [eexists; eexists; split; reflexivity|].
    exists JNull. split; [reflexivity|constructor].
  - split; [destruct b; eexists; eexists; split; reflexivity|].
    exists (JBool b). split; [destruct b; reflexivity|constructor].
  - inversion Hdec as [ | |? Hx| | | ]; subst.
    destruct (numberToString_parse x rest Hx (endsValue_endsNumber _ Hrest))
      as (Hhead & x' & Hparse & Heq).
    destruct (numberHead_start _ Hhead) as (c & r & Htext & Hc & H1 & H2 & H3 & H4).
    split; [exists c, r; auto|].
    exists (JNumber x'). split; [|now constructor].
    cbn [stringifyAt] in *. rewrite Htext in *. cbn [app] in *.
    cbn [parseValue]. rewrite skipWs_start by exact Hc.
    cbn [startsWith]. rewrite H1, H2, H3, H4. rewrite Hparse. reflexivity.
  - split; [eexists; eexists; split; reflexivity|].
    exists (JString s). split; [|constructor].
    cbn [stringifyAt].
    destruct (parseString_quote s rest) as (body & Hq & Hps). rewrite Hq.
    cbn [parseValue skipWs]. change (isWhitespace dquote) with false. cbv iota.
    cbn [startsWith tl]. change (Ascii.eqb dquote "{") with false.
    change (Ascii.eqb dquote "[") with false.
    change (Ascii.eqb dquote dquote) with true. cbv iota.
    rewrite Hps. reflexivity.
  - split; [destruct vs; eexists; eexists; split; reflexivity|].
    inversion Hdec as [ | | | |? Hvs| ]; subst.
    destruct vs as [|v vs].
    { exists (JArray []). split; [reflexivity|repeat constructor]. }
    cbn [jsonSize] in Hfuel.
    destruct (parseElements_items (indent + 2) indent rest (v :: vs)
                ltac:(discriminate) IH Hvs fuel ltac:(lia)) as (vs' & Hparse & Hequiv).
    exists (JArray vs'). split; [|now constructor].
    assert (Hhead : valueHead (stringifyAt (indent + 2) v)).
    { apply Forall_cons in IH as [Hv _]. apply Forall_cons in Hvs as [Hdv _].
      exact (proj1 (Hv Hdv (indent + 2)%nat [] (jsonSize v) (le_n _) eq_refl)). }
    cbn [stringifyAt map]. unfold block.
    set (items := stringifyAt (indent + 2) v :: map (stringifyAt (indent + 2)) vs) in *.
    destruct (joinItems_head (indent + 2) _ (map (stringifyAt (indent + 2)) vs)
                (newline :: spaces indent ++ "]"%char :: rest) Hhead)
      as (c & r & Hjoin & Hc).
    fold items in Hjoin. change (map (stringifyAt (indent + 2)) (v :: vs)) with items in Hparse.
    destruct (valueStart_facts c Hc) as (Hws & Hclose & _).
    assert (Htext : (("["%char :: newline :: spaces (indent + 2)
                       ++ joinItems (indent + 2) items
                       ++ newline :: spaces indent ++ ["]"%char]) ++ rest)
                    = "["%char :: newline :: spaces (indent + 2)
                       ++ joinItems (indent + 2) items
                       ++ newline :: spaces indent ++ "]"%char :: rest).
    { cbn [app]. do 2 f_equal. rewrite <- !app_assoc. cbn [app].
      now rewrite <- app_assoc. }
    rewrite Htext. cbn [parseValue skipWs]. change (isWhitespace "[") with false.
    cbv iota. cbn [startsWith tl]. change (Ascii.eqb "[" "{") with false.
    change (Ascii.eqb "[" "[") with true. cbv iota.
    rewrite skipWs_break, Hjoin. cbn [skipWs]. rewrite Hws. cbn [startsWith].
    rewrite Hclose.
    rewrite (parseElements_skip fuel _ _ (skipWs_break (indent + 2) _)) in *.
    rewrite <- Hjoin, Hparse. reflexivity.
  - split; [destruct ms; eexists; eexists; split; reflexivity|].
    inversion Hdec as [ | | | | |? Hms]; subst.
    destruct ms as [|[k v] ms].
    { exists (JObject []). split; [reflexivity|repeat constructor]. }
    cbn [jsonSize] in Hfuel.
    destruct (parseMembers_items (indent + 2) indent rest ((k, v) :: ms)
                ltac:(discriminate) IH Hms fuel ltac:(lia)) as (ms' & Hparse & Hequiv).
    exists (JObject ms'). split; [|now constructor].
    cbn [stringifyAt map fst snd]. unfold block.
    set (f := fun member : string * json =>
                quote (fst member) ++ ":"%char :: " "%char
                  :: stringifyAt (indent + 2) (snd member)) in *.
    set (items := (quote k ++ ":"%char :: " "%char :: stringifyAt (indent + 2) v)
                    :: map f ms) in *.
    assert (Hhead : valueHead (quote k ++ ":"%char :: " "%char
                                 :: stringifyAt (indent + 2) v)).
    { eexists; eexists; split; reflexivity. }
    destruct (joinItems_head (indent + 2) _ (map f ms)
                (newline :: spaces indent ++ "}"%char :: rest) Hhead)
      as (c & r & Hjoin & Hc).
    fold items in Hjoin. change (map f ((k, v) :: ms)) with items in Hparse.
    destruct (valueStart_facts c Hc) as (Hws & _ & Hclose).
    assert (Htext : (("{"%char :: newline :: spaces (indent + 2)
                       ++ joinItems (indent + 2) items
                       ++ newline :: spaces indent ++ ["}"%char]) ++ rest)
                    = "{"%char :: newline :: spaces (indent + 2)
                       ++ joinItems (indent + 2) items
                       ++ newline :: spaces indent ++ "}"%char :: rest).
    { cbn [app]. do 2 f_equal. rewrite <- !app_assoc. cbn [app].
      now rewrite <- app_assoc. }
    rewrite Htext. cbn [parseValue skipWs]. change (isWhitespace "{") with false.
    cbv iota. cbn [startsWith tl]. change (Ascii.eqb "{" "{") with true. cbv iota.
    rewrite skipWs_break, Hjoin. cbn [skipWs]. rewrite Hws. cbn [startsWith].
    rewrite Hclose.
    rewrite (parseMembers_skip fuel _ _ (skipWs_break (indent + 2) _)) in *.
    rewrite <- Hjoin, Hparse. reflexivity.
Qed.

Lemma joinItems_length (indent : nat) (items : list (list ascii)) :
  (list_sum (map (@length ascii) items) + length items
   <= S (length (joinItems indent items)))%nat.
Proof.
  induction items as [|item items IH]; [cbn; lia|].
  cbn [map length]. rewrite list_sum_cons. destruct items as [|item2 items].
  - cbn. lia.
  - change (joinItems indent (item :: item2 :: items))
      with (item ++ ","%char :: newline :: spaces indent ++ joinItems indent (item2 :: items)).
    rewrite length_app. cbn [length] in *. rewrite length_app. lia.
Qed.

Lemma block_length (open close : ascii) (indent : nat) (items : list (list ascii)) :
  (S (list_sum (map (@length ascii) items) + length items)
   <= length (block open close indent items))%nat.
Proof.
  unfold block. destruct items as [|item items]; [cbn; lia|].
  pose proof (joinItems_length (indent + 2) (item :: items)) as H.
  set (J := joinItems (indent + 2) (item :: items)) in *.
  set (L := (list_sum (map (@length ascii) (item :: items)) + length (item :: items))%nat) in *.
  cbn [length]. rewrite !length_app. cbn [length]. rewrite length_app. cbn [length]. lia.
Qed.

Lemma list_sum_le {A : Type} (f g : A -> nat) (l : list A) :
  Forall (fun a => (f a <= g a)%nat) l ->
  (list_sum (map f l) <= list_sum (map g l))%nat.
Proof.
  induction 1 as [|a l Ha _ IH]; [reflexivity|].
  cbn [map]. rewrite !list_sum_cons. lia.
Qed.

Lemma list_sum_succ {A : Type} (f : A -> nat) (l : list A) :
  list_sum (map (fun a => S (f a)) l) = (list_sum (map f l) + length l)%nat.
Proof.
  induction l as [|a l IH]; [reflexivity|].
  cbn [map length]. rewrite !list_sum_cons, IH. lia.
Qed.

Lemma jsonSize_length (v : json) :
  decimal_json v -> forall indent, (jsonSize v <= length (stringifyAt indent v))%nat.
Proof.
  induction v as [ |b|x|s|vs IH|ms IH] using json_induction; intros Hdec indent.
  - cbn. lia.
  - destruct b; cbn; lia.
  - inversion Hdec as [ | |? Hx| | | ]; subst.
    destruct (numberToString_parse x [] Hx eq_refl) as ((c & r & Htext & _) & _).
    cbn [stringifyAt jsonSize]. rewrite Htext. cbn. lia.
  - cbn [stringifyAt jsonSize]. unfold quote. cbn [length]. lia.
  - inversion Hdec as [ | | | |? Hvs| ]; subst.
    cbn [stringifyAt jsonSize].
    pose proof (block_length "[" "]" indent (map (stringifyAt (indent + 2)) vs)) as H.
    rewrite map_map, length_map in H. rewrite list_sum_succ.
    assert (Hle : (list_sum (map jsonSize vs)
                   <= list_sum (map (fun v => length (stringifyAt (indent + 2) v)) vs))%nat).
    { apply list_sum_le. rewrite Forall_forall in *. intros v Hv. apply IH; auto. }
    lia.
  - inversion Hdec as [ | | | | |? Hms]; subst.
    cbn [stringifyAt jsonSize].
    match goal with
    | |- context [block _ _ _ (map ?f ms)] =>
        pose proof (block_length "{" "}" indent (map f ms)) as H; set (text := f) in *
    end.
    rewrite map_map, length_map in H. rewrite list_sum_succ.
    assert (Hle : (list_sum (map (fun m => jsonSize (snd m)) ms)
                   <= list_sum (map (fun m => length (text m)) ms))%nat).
    { apply list_sum_le. rewrite Forall_forall in *. intros m Hm.
      unfold text. rewrite length_app. cbn [length].
      specialize (IH m Hm (Hms m Hm) (indent + 2)%nat). lia. }
    lia.
Qed.

(** [JSON.parse(JSON.stringify(v, null, 2))] is [v], up to the
    representation of the numbers. *)
Lemma JSON_parse_stringify (v : json) :
  decimal_json v ->
  exists v', JSON_parse (JSON_stringify v) = Ok v' /\ json_equiv v v'.
Proof.
  intros Hdec. unfold JSON_parse, JSON_stringify, chars.
  rewrite list_ascii_of_string_of_list_ascii.
  pose proof (jsonSize_length v Hdec 0%nat) as Hsize.
  destruct (stringifyAt_readsBack v Hdec 0%nat []
              (2 * length (stringifyAt 0 v) + 2)%nat
              ltac:(lia) eq_refl) as (_ & v' & Hparse & Hequiv).
  rewrite app_nil_r in Hparse. rewrite Hparse. cbn [bind skipWs].
  exists v'. split; [reflexivity|exact Hequiv].
Qed.

(** ** Game states: reading back what [saveGame] writes *)

Ltac invert_equiv :=
  repeat match goal with
    | H : json_equiv (JObject _) _ |- _ => inversion H; subst; clear H
    | H : json_equiv (JArray _) _ |- _ => inversion H; subst; clear H
    | H : json_equiv (JNumber _) _ |- _ => inversion H; subst; clear H
    | H : json_equiv (JString _) _ |- _ => inversion H; subst; clear H
    | H : json_equiv (JBool _) _ |- _ => inversion H; subst; clear H
    | H : Forall2 _ (_ :: _) _ |- _ => inversion H; subst; clear H
    | H : Forall2 _ [] _ |- _ => inversion H; subst; clear H
    | H : _ /\ _ |- _ => destruct H
    | p : (string * json)%type |- _ => destruct p; cbn [fst snd] in *
    end; subst.

Lemma asInteger_inject (z : Z) (y : Q) : inject_Z z == y -> asInteger y = Some z.
Proof.
  destruct y as [n d]. unfold Qeq, asInteger. cbn [Qnum Qden inject_Z].
  intros H. assert (Hn : n = (z * Z.pos d)%Z) by lia. subst n.
  rewrite Z.mod_mul by lia. cbn [Z.eqb]. rewrite Z.div_mul by lia. reflexivity.
Qed.

Lemma mapM_equiv {A : Type} (toJ : A -> json) (ofJ : json -> option A) (R : A -> A -> Prop) :
  (forall a v', json_equiv (toJ a) v' -> exists a', ofJ v' = Some a' /\ R a a') ->
  forall l vs', Forall2 json_equiv (map toJ l) vs' ->
  exists l', mapM ofJ vs' = Some l' /\ Forall2 R l l'.
Proof.
  intros Hone. induction l as [|a l IH]; intros vs' H; cbn [map] in H.
  - inversion H; subst. exists []. split; [reflexivity|constructor].
  - inversion H as [|? v' ? vs'' Hv Hvs]; subst.
    destruct (Hone a v' Hv) as (a' & Ha' & HR).
    destruct (IH vs'' Hvs) as (l' & Hl' & HRs).
    exists (a' :: l'). split; [|now constructor].
    cbn [mapM]. rewrite Ha'. cbn. rewrite Hl'. reflexivity.
Qed.

Lemma upgradeOfJSON_equiv (u : Upgrade) (v' : json) :
  json_equiv (upgradeToJSON u) v' ->
  exists u', upgradeOfJSON v' = Some u' /\ upgrade_equiv u u'.
Proof.
  unfold upgradeToJSON. intros H. invert_equiv.
  eexists. split; [reflexivity|]. repeat split; assumption.
Qed.

Lemma buildingOfJSON_equiv (b : Building) (v' : json) :
  json_equiv (buildingToJSON b) v' ->
  exists b', buildingOfJSON v' = Some b' /\ building_equiv b b'.
Proof.
  unfold buildingToJSON. intros H. invert_equiv.
  match goal with
  | H : Forall2 json_equiv (map upgradeToJSON _) ?vs |- _ =>
      destruct (mapM_equiv upgradeToJSON upgradeOfJSON upgrade_equiv
                  upgradeOfJSON_equiv _ vs H) as (us' & Hus' & Hequiv)
  end.
  match goal with
  | H : inject_Z (count b) == _ |- _ => apply asInteger_inject in H as Hc
  end.
  eexists. split.
  - unfold buildingOfJSON. cbn [keysAre]. rewrite Hc, Hus'. reflexivity.
  - repeat split; assumption.
Qed.

Lemma gameStateOfJSON_equiv (s : GameState) (v' : json) :
  json_equiv (gameStateToJSON s) v' ->
  exists s', gameStateOfJSON v' = Some s' /\ state_equiv s s'.
Proof.
  unfold gameStateToJSON. intros H. invert_equiv.
  match goal with
  | H : Forall2 json_equiv (map buildingToJSON _) ?vs |- _ =>
      destruct (mapM_equiv buildingToJSON buildingOfJSON building_equiv
                  buildingOfJSON_equiv _ vs H) as (bs' & Hbs' & Hequiv)
  end.
  eexists. split.
  - unfold gameStateOfJSON. cbn [keysAre]. rewrite Hbs'. reflexivity.
  - repeat split; assumption.
Qed.

(** ** Closure of the finite decimal expansions *)

Lemma decimal_inject_Z (z : Z) : decimal (inject_Z z).
Proof. exists 0%nat, z. change (10 ^ Z.of_nat 0) with 1. ring. Qed.

Lemma pow10_nat_add (a b : nat) :
  10 ^ Z.of_nat (a + b) == 10 ^ Z.of_nat a * 10 ^ Z.of_nat b.
Proof. rewrite Nat2Z.inj_add. apply pow10_add. Qed.

Lemma pow10_nat_Z (a : nat) : 10 ^ Z.of_nat a == inject_Z (10 ^ Z.of_nat a).
Proof. rewrite Zpower_Qpower by lia. reflexivity. Qed.

Lemma decimal_plus (x y : Q) : decimal x -> decimal y -> decimal (x + y).
Proof.
  intros (mx & zx & Hx) (my & zy & Hy).
  exists (mx + my)%nat, (zx * 10 ^ Z.of_nat my + zy * 10 ^ Z.of_nat mx)%Z.
  rewrite inject_Z_plus, !inject_Z_mult, <- !pow10_nat_Z, <- Hx, <- Hy, pow10_nat_add.
  ring.
Qed.

Lemma decimal_mult (x y : Q) : decimal x -> decimal y -> decimal (x * y).
Proof.
  intros (mx & zx & Hx) (my & zy & Hy). exists (mx + my)%nat, (zx * zy)%Z.
  rewrite inject_Z_mult, <- Hx, <- Hy, pow10_nat_add. ring.
Qed.

Lemma decimal_minus (x y : Q) : decimal x -> decimal y -> decimal (x - y).
Proof. intros Hx Hy. apply decimal_plus; [exact Hx|now apply decimal_opp]. Qed.

Lemma decimal_thousandth (x : Q) : decimal x -> decimal (x / 1000).
Proof.
  intros (m & z & H). exists (m + 3)%nat, z.
  rewrite pow10_nat_add, <- H. change (10 ^ Z.of_nat 3) with 1000. field.
Qed.

Lemma decimal_applyUpgrade (us : list Upgrade) (acc : Q) :
  Forall decimal_upgrade us -> decimal acc -> decimal (fold_left applyUpgrade us acc).
Proof.
  intros Hus. revert acc. induction Hus as [|u us [_ Hu] _ IH]; intros acc Hacc; [exact Hacc|].
  cbn [fold_left]. apply IH. unfold applyUpgrade.
  destruct (purchased u); [now apply decimal_mult|exact Hacc].
Qed.

Lemma decimal_production (b : Building) :
  decimal_building b -> decimal (getBuildingProduction b).
Proof.
  intros (_ & Hbp & Hus). unfold getBuildingProduction. cbv zeta.
  repeat apply decimal_mult; [apply decimal_inject_Z|exact Hbp|].
  apply decimal_applyUpgrade; [exact Hus|apply decimal_inject_Z].
Qed.

Lemma decimal_totalProduction (s : GameState) :
  Forall decimal_building (buildings s) -> decimal (getTotalProduction s).
Proof.
  unfold getTotalProduction. generalize (decimal_inject_Z 0).
  change (inject_Z 0) with 0. generalize 0 as acc.
  induction (buildings s) as [|b bs IH]; intros acc Hacc Hbs; [exact Hacc|].
  apply Forall_cons in Hbs as [Hb Hbs]. cbn [fold_left]. apply IH; [|exact Hbs].
  apply decimal_plus; [exact Hacc|now apply decimal_production].
Qed.

(** ** Signs in the economy *)

Lemma nonneg_applyUpgrade (us : list Upgrade) (acc : Q) :
  Forall (fun u => 0 <= productionMultiplier u) us -> 0 <= acc ->
  0 <= fold_left applyUpgrade us acc.
Proof.
  intros Hus. revert acc. induction Hus as [|u us Hu _ IH]; intros acc Hacc; [exact Hacc|].
  cbn [fold_left]. apply IH. unfold applyUpgrade.
  destruct (purchased u); [now apply Qmult_le_0_compat|exact Hacc].
Qed.

Lemma nonneg_production (b : Building) :
  nonneg_building b -> 0 <= getBuildingProduction b.
Proof.
  intros (Hc & Hbp & Hus). unfold getBuildingProduction. cbv zeta.
  repeat apply Qmult_le_0_compat; [|exact Hbp|].
  - change 0 with (inject_Z 0). now rewrite <- Zle_Qle.
  - apply nonneg_applyUpgrade; [exact Hus|discriminate].
Qed.

Lemma nonneg_sum (bs : list Building) (acc : Q) :
  Forall nonneg_building bs -> 0 <= acc ->
  0 <= fold_left (fun total building => total + getBuildingProduction building) bs acc.
Proof.
  intros Hbs. revert acc. induction Hbs as [|b bs Hb _ IH]; intros acc Hacc; [exact Hacc|].
  cbn [fold_left]. apply IH. pose proof (nonneg_production b Hb). lra.
Qed.

Lemma nonneg_totalProduction (s : GameState) :
  Forall nonneg_building (buildings s) -> 0 <= getTotalProduction s.
Proof. intros H. apply nonneg_sum; [exact H|apply Qle_refl]. Qed.

(** ** The invariant of the runs *)

Ltac decimal_constant :=
  first [ exact (decimal_inject_Z _)
        | exists 1%nat, 1%Z; reflexivity ].

Lemma valid_initial (now : Z) : valid_state (initialGameState now).
Proof.
  split.
  - unfold decimal_state, initialGameState, initialBuildings. cbn.
    repeat split; try decimal_constant.
    repeat constructor; cbn; try decimal_constant.
  - unfold nonneg_economy, initialGameState, initialBuildings. cbn.
    split; [discriminate|].
    repeat constructor; cbn; try discriminate; try lia.
Qed.

Lemma valid_click (s : GameState) : valid_state s -> valid_state (click s).
Proof.
  intros [(Hp & Ht & Hc & Hb & Hl) Hn]. split; [|exact Hn].
  unfold click. repeat split; cbn; auto using decimal_plus.
Qed.

Lemma valid_boughtBuilding (index : nat) (b : Building) (s : GameState) :
  buildings s !! index = Some b -> valid_state s -> valid_state (boughtBuilding index b s).
Proof.
  intros Hb [(Hp & Ht & Hc & Hbs & Hl) [Hcp Hn]].
  pose proof (Forall_lookup_1 _ _ _ _ Hbs Hb) as (Hd1 & Hd2 & Hd3).
  pose proof (Forall_lookup_1 _ _ _ _ Hn Hb) as (Hn1 & Hn2 & Hn3).
  split; [|split; [exact Hcp|]]; unfold boughtBuilding; cbn.
  - repeat split; cbn; auto.
    + apply decimal_minus; [exact Hp|apply decimal_inject_Z].
    + apply Forall_insert; [exact Hbs|]. repeat split; assumption.
  - apply Forall_insert; [exact Hn|]. repeat split; cbn; try assumption. lia.
Qed.

Lemma valid_boughtUpgrade (bi ui : nat) (b : Building) (u : Upgrade) (s : GameState) :
  buildings s !! bi = Some b -> upgrades b !! ui = Some u ->
  valid_state s -> valid_state (boughtUpgrade bi ui b u s).
Proof.
  intros Hb Hu [(Hp & Ht & Hc & Hbs & Hl) [Hcp Hn]].
  pose proof (Forall_lookup_1 _ _ _ _ Hbs Hb) as (Hd1 & Hd2 & Hd3).
  pose proof (Forall_lookup_1 _ _ _ _ Hn Hb) as (Hn1 & Hn2 & Hn3).
  pose proof (Forall_lookup_1 _ _ _ _ Hd3 Hu) as (Hu1 & Hu2).
  pose proof (Forall_lookup_1 _ _ _ _ Hn3 Hu) as Hu3. cbn beta in Hu3.
  split; [|split; [exact Hcp|]]; unfold boughtUpgrade; cbn.
  - repeat split; cbn; auto.
    + apply decimal_minus; assumption.
    + apply Forall_insert; [exact Hbs|]. repeat split; cbn; try assumption.
      apply Forall_insert; [exact Hd3|]. split; assumption.
  - apply Forall_insert; [exact Hn|]. repeat split; cbn; try assumption.
    apply Forall_insert; [exact Hn3|]. exact Hu3.
Qed.

Lemma valid_buyBuilding (index : nat) (s s' : GameState) (ok : bool) :
  buyBuilding index s = Some (ok, s') -> valid_state s -> valid_state s'.
Proof.
  intros H Hs. apply buyBuilding_inv in H as (b & Hb & H).
  destruct ok; destruct H as [_ ->]; [now apply valid_boughtBuilding|exact Hs].
Qed.

Lemma valid_buyUpgrade (bi ui : nat) (s s' : GameState) (ok : bool) :
  buyUpgrade bi ui s = Some (ok, s') -> valid_state s -> valid_state s'.
Proof.
  intros H Hs. apply buyUpgrade_inv in H as (b & u & Hb & Hu & H).
  destruct ok.
  - destruct H as (_ & _ & ->). now apply valid_boughtUpgrade.
  - destruct H as [_ ->]. exact Hs.
Qed.

Lemma valid_gameLoop (now lastUpdate : Z) (s : GameState) :
  valid_state s -> valid_state (snd (gameLoop now lastUpdate s)).
Proof.
  intros [(Hp & Ht & Hc & Hb & Hl) Hn]. split; [|exact Hn].
  assert (Hgain : decimal (getTotalProduction s * (inject_Z (now - lastUpdate) / 1000))).
  { apply decimal_mult; [now apply decimal_totalProduction|].
    apply decimal_thousandth, decimal_inject_Z. }
  unfold gameLoop. repeat split; cbn; auto using decimal_plus.
Qed.

Lemma valid_set_lastSaved (now : Z) (s : GameState) :
  valid_state s -> valid_state (set_lastSaved (inject_Z now) s).
Proof.
  intros [(Hp & Ht & Hc & Hb & Hl) Hn]. split; [|exact Hn].
  repeat split; cbn; auto. apply decimal_inject_Z.
Qed.

Lemma Forall_equiv {A : Type} (P : A -> Prop) (R : A -> A -> Prop) (l l' : list A) :
  (forall x y, R x y -> P x -> P y) -> Forall2 R l l' -> Forall P l -> Forall P l'.
Proof.
  intros HR H. induction H as [|x y l l' Hxy _ IH]; intros Hl; [constructor|].
  apply Forall_cons in Hl as [Hx Hl]. constructor; eauto.
Qed.

Lemma valid_equiv (s s' : GameState) : state_equiv s s' -> valid_state s -> valid_state s'.
Proof.
  intros (Ep & Et & Ec & Eb & El) [(Hp & Ht & Hc & Hb & Hl) [Hcp Hn]].
  split; [|split].
  - repeat split; eauto using decimal_comp.
    eapply Forall_equiv; [|exact Eb|exact Hb].
    intros b b' (_ & _ & E1 & E2 & E3) (H1 & H2 & H3).
    repeat split; eauto using decimal_comp.
    eapply Forall_equiv; [|exact E3|exact H3].
    intros u u' (_ & _ & F1 & F2 & _) [G1 G2]. split; eauto using decimal_comp.
  - now rewrite <- Ec.
  - eapply Forall_equiv; [|exact Eb|exact Hn].
    intros b b' (_ & E0 & _ & E2 & E3) (H1 & H2 & H3).
    repeat split; [now rewrite <- E0|now rewrite <- E2|].
    eapply Forall_equiv; [|exact E3|exact H3].
    intros u u' (_ & _ & _ & F2 & _) G. cbn beta in *. now rewrite <- F2.
Qed.

Lemma decimal_gameStateToJSON (s : GameState) :
  decimal_state s -> decimal_json (gameStateToJSON s).
Proof.
  intros (Hp & Ht & Hc & Hb & Hl). unfold gameStateToJSON.
  constructor. repeat constructor; cbn [snd]; try assumption.
  rewrite Forall_map. eapply Forall_impl; [exact Hb|].
  intros b (H1 & H2 & H3). unfold buildingToJSON.
  constructor. repeat constructor; cbn [snd]; try assumption.
  - apply decimal_inject_Z.
  - rewrite Forall_map. eapply Forall_impl; [exact H3|].
    intros u [G1 G2]. unfold upgradeToJSON.
    constructor. repeat constructor; cbn [snd]; assumption.
Qed.

(** A file written by [saveGame] loads, and gives the state it was written
    from. *)
Lemma loadGame_written (w : World) (s : GameState) :
  saveFile w = Some (JSON_stringify (gameStateToJSON s)) -> decimal_state s ->
  exists s', loadGame w = Some (true, set_gameState s' w) /\ state_equiv s s'.
Proof.
  intros Hfile Hdec.
  destruct (JSON_parse_stringify _ (decimal_gameStateToJSON s Hdec)) as (v' & Hparse & Hequiv).
  destruct (gameStateOfJSON_equiv s v' Hequiv) as (s' & Hs' & Hstate).
  exists s'. split; [|exact Hstate].
  unfold loadGame. rewrite Hfile, Hparse, Hs'. reflexivity.
Qed.

Lemma handleInput_cases (input : string) (now : Z) (w w' : World) :
  handleInput input now w = Some w' ->
  w' = w \/
  w' = set_gameState (click (gameState w)) w \/
  (exists index ok s', buyBuilding index (gameState w) = Some (ok, s') /\
                       w' = set_gameState s' w) \/
  (exists bi ui ok s', buyUpgrade bi ui (gameState w) = Some (ok, s') /\
                       w' = set_gameState s' w) \/
  w' = saveGame now w \/
  (exists ok, loadGame w = Some (ok, w')).
Proof.
  unfold handleInput. cbv beta zeta.
  assert (Hbuy : forall r, purchaseResult w r = Some w' ->
                   exists ok s', r = Some (ok, s') /\ w' = set_gameState s' w).
  { intros [[ok s']|]; cbn; [|discriminate]. intros [= <-]. eauto. }
  repeat match goal with
    | |- (if ?c then _ else _) = _ -> _ => destruct c
    end; intros H;
    try (apply Hbuy in H as (ok & s' & Hr & ->));
    try (injection H as <-);
    try discriminate;
    eauto 10.
  right; right; right; right; right.
  destruct (loadGame w) as [[ok w'']|]; cbn in H; [|discriminate].
  injection H as <-. eauto.
Qed.

Lemma valid_set_gameState (s : GameState) (w : World) :
  valid_world w -> valid_state s -> valid_world (set_gameState s w).
Proof. intros [_ Hfile] Hs. split; [exact Hs|exact Hfile]. Qed.

Lemma valid_saveGame (now : Z) (w : World) : valid_world w -> valid_world (saveGame now w).
Proof.
  intros [Hs _]. pose proof (valid_set_lastSaved now _ Hs) as Hs'.
  split; [exact Hs'|]. cbn. intros data [= <-]. eauto.
Qed.

Lemma valid_loadGame (w w' : World) (ok : bool) :
  loadGame w = Some (ok, w') -> valid_world w -> valid_world w'.
Proof.
  intros Hload Hw. destruct (saveFile w) as [data|] eqn:Hfile.
  - destruct Hw as [Hs Hdata]. destruct (Hdata data Hfile) as (s0 & Hs0 & ->).
    destruct (loadGame_written w s0 Hfile (proj1 Hs0)) as (s' & Hload' & Hequiv).
    rewrite Hload' in Hload. injection Hload as <- <-.
    apply valid_set_gameState; [now split|]. eapply valid_equiv; eauto.
  - unfold loadGame in Hload. rewrite Hfile in Hload. now injection Hload as <- <-.
Qed.

Lemma valid_step (e : Event) (w w' : World) :
  step e w = Some w' -> valid_world w -> valid_world w'.
Proof.
  destruct e as [input now|now]; cbn [step].
  - intros H Hw.
    destruct (handleInput_cases _ _ _ _ H)
      as [->|[->|[(i & ok & s' & Hb & ->)|[(bi & ui & ok & s' & Hb & ->)|[->|[ok Hl]]]]]].
    + exact Hw.
    + apply valid_set_gameState; [exact Hw|]. apply valid_click, Hw.
    + apply valid_set_gameState; [exact Hw|]. eapply valid_buyBuilding; [exact Hb|apply Hw].
    + apply valid_set_gameState; [exact Hw|]. eapply valid_buyUpgrade; [exact Hb|apply Hw].
    + now apply valid_saveGame.
    + eapply valid_loadGame; eauto.
  - intros [= <-] [Hs Hfile].
    split; [exact (valid_gameLoop now (lastUpdate w) _ Hs)|exact Hfile].
Qed.

Lemma valid_startup (t0 t1 : Z) (file : option string) (w : World) :
  (forall data, file = Some data ->
     exists s, valid_state s /\ data = JSON_stringify (gameStateToJSON s)) ->
  startup t0 t1 file = Some w -> valid_world w.
Proof.
  intros Hfile. unfold startup.
  destruct (loadGame _) as [[ok w'']|] eqn:Hload; cbn; [|discriminate].
  intros [= <-]. eapply valid_loadGame; [exact Hload|].
  split; [apply valid_initial|exact Hfile].
Qed.

(** Every world of a run satisfies the invariant. *)
Lemma reachable_valid (w : World) : reachable w -> valid_world w.
Proof.
  induction 1 as [t0 t1 w Hstart|w0 t0 t1 w _ IH Hstart|w e w' _ IH Hstep].
  - eapply valid_startup; [|exact Hstart]. discriminate.
  - eapply valid_startup; [|exact Hstart]. apply IH.
  - eapply valid_step; eauto.
Qed.

(** ** Formatter *)

Lemma ltb_true (x y : Q) : ltb x y = true <-> x < y.
Proof.
  unfold ltb. rewrite negb_true_iff, <- not_true_iff_false, Qle_bool_iff. split.
  - apply Qnot_le_lt.
  - apply Qlt_not_le.
Qed.

Lemma ltb_false (x y : Q) : ltb x y = false <-> y <= x.
Proof. unfold ltb. rewrite negb_false_iff. apply Qle_bool_iff. Qed.

Lemma digitsValue_padded (n : nat) (ds : list ascii) :
  digitsValue (zeros n ++ ds) = digitsValue ds.
Proof.
  rewrite digitsValue_app. unfold digitsValue. now rewrite digitStep_zeros, N.mul_0_l.
Qed.

Lemma toFixedDigits_fixed (x : Q) (f : nat) :
  0 <= x -> fixedNotation x (S f) (toFixedDigits x (S f)).
Proof.
  intros Hx. unfold toFixedDigits.
  set (r := x * 10 ^ Z.of_nat (S f) + (1 # 2)).
  set (n := Z.to_N (Qfloor r)).
  assert (Hr : 0 <= r).
  { unfold r. assert (0 < 10 ^ Z.of_nat (S f)) by (apply Qpower_0_lt; reflexivity).
    assert (0 <= x * 10 ^ Z.of_nat (S f)) by (apply Qmult_le_0_compat; lra). lra. }
  assert (Hn : Z.of_N n = Qfloor r).
  { unfold n. rewrite Z2N.id; [reflexivity|].
    change 0%Z with (Qfloor 0). now apply Qfloor_resp_le. }
  set (m0 := digitsOf n).
  set (m := zeros (S (S f) - length m0) ++ m0).
  assert (Hlen : length m = Nat.max (S (S f)) (length m0)).
  { unfold m. rewrite length_app. unfold zeros. rewrite repeat_length. lia. }
  assert (Hdigits : Forall (fun c => isDigit c = true) m).
  { apply Forall_app. split; [apply zeros_digits|apply digitsOf_digits]. }
  exists (firstn (length m - S f) m), (skipn (length m - S f) m).
  split; [reflexivity|]. split; [rewrite length_skipn; lia|].
  split; [now apply Forall_take|]. split; [now apply Forall_drop|]. split.
  - destruct (le_lt_dec (S (S f)) (length m0)) as [Hle|Hlt].
    + assert (Hm : m = m0).
      { unfold m. replace (S (S f) - length m0)%nat with 0%nat by lia. reflexivity. }
      rewrite Hm. apply validInt_firstn; [|lia].
      destruct (digitsOf_cases n) as [[_ H0]|[_ H]]; [|exact H].
      fold m0 in H0. rewrite H0 in Hle. cbn in Hle. lia.
    + replace (length m - S f)%nat with 1%nat by lia.
      unfold m. replace (S (S f) - length m0)%nat with (S (S f - length m0)) by lia.
      reflexivity.
  - rewrite firstn_skipn. unfold m. rewrite digitsValue_padded.
    unfold m0. rewrite digitsValue_digitsOf, Hn.
    destruct (floor_bounds r) as [H1 H2]. split; assumption.
Qed.

Lemma toFixedChars_fixed (x : Q) (f : nat) :
  0 <= x -> x < 10 ^ 21 -> fixedNotation x (S f) (toFixedChars x (S f)).
Proof.
  intros H0 H21. unfold toFixedChars.
  assert (Hneg : ltb x 0 = false) by now apply ltb_false.
  rewrite Hneg.
  assert (Hbig : geq x (10 ^ 21) = false) by (apply geq_false; now apply Qlt_not_le).
  rewrite Hbig. cbn [app]. now apply toFixedDigits_fixed.
Qed.

Lemma toFixed_scaled (x : Q) (suffix : string) :
  0 <= x -> x < 10 ^ 21 ->
  exists t, (toFixed x 2 ++ suffix)%string = (string_of_list_ascii t ++ suffix)%string /\
            fixedNotation x 2 t.
Proof.
  intros H0 H21. exists (toFixedChars x 2). split; [reflexivity|].
  now apply toFixedChars_fixed.
Qed.




(** ** Invariants of the operations *)



(** ** Persistence *)

Lemma state_equiv_counts (s s' : GameState) :
  state_equiv s s' ->
  map count (buildings s') = map count (buildings s) /\
  map (fun b => map purchased (upgrades b)) (buildings s')
  = map (fun b => map purchased (upgrades b)) (buildings s).
Proof.
  intros (_ & _ & _ & Hb & _).
  induction Hb as [|b b' bs bs' (_ & Hc & _ & _ & Hu) _ [IH1 IH2]]; [now split|].
  cbn [map]. rewrite IH1, IH2, Hc. split; [reflexivity|]. f_equal.
  clear -Hu. induction Hu as [|u u' us us' (_ & Hp & _) _ IH]; [reflexivity|].
  cbn [map]. now rewrite IH, Hp.
Qed.





(** ** Scenarios *)

(** Fifteen clicks on a fresh state, then building 1: the purchase takes
    the 15 points and the player owns one Cursor. *)
Example fifteen_clicks_then_cursor :
  exists w,
    run (repeat (Line "c" 0) 15 ++ [Line "1" 0]) (mkWorld (initialGameState 0) 0 None)
    = Some w /\
    points (gameState w) == 0 /\
    totalPointsEarned (gameState w) == 15 /\
    count <$> buildings (gameState w) !! 0%nat = Some 1%Z.
Proof. eexists. split; [vm_compute; reflexivity|]. repeat split. Qed.

(** Starting without a save file: [loadGame] returns [false] and the fresh
    state stays. *)
Example startup_without_save :
  startup 0 0 None = Some (mkWorld (initialGameState 0) 0 None).
Proof. reflexivity. Qed.

(** Saving after a click and a tick, then buying a Farm and loading: the
    state is the saved one again. *)
Example save_buy_load :
  exists w w',
    run [Line "c" 0; Timer 100; Line "s" 200] (mkWorld (set_points 115 (initialGameState 0)) 0 None)
    = Some w /\
    run [Line "2" 300; Line "l" 400] w = Some w' /\
    points (gameState w) == 116 /\ points (gameState w') == 116 /\
    count <$> buildings (gameState w') !! 1%nat = Some 0%Z.
Proof.
  eexists. eexists. split; [vm_compute; reflexivity|].
  split; [vm_compute; reflexivity|]. repeat split.
Qed.

(** * Further properties *)

(** ** What a command and a run leave alone *)

Lemma loadGame_frame (w w' : World) (ok : bool) :
  loadGame w = Some (ok, w') ->
  lastUpdate w' = lastUpdate w /\ saveFile w' = saveFile w.
Proof.
  intros H. enough (w' = w \/ exists s, w' = set_gameState s w) as [->|[s ->]] by now split.
  revert H. unfold loadGame. destruct (saveFile w) as [data|]; [|intros [= <- <-]; now left].
  destruct (JSON_parse data) as [value| |]; [|intros [= <- <-]; now left|discriminate].
  destruct (gameStateOfJSON value) as [s|]; [|discriminate]. intros [= <- <-]. eauto.
Qed.

Lemma purchaseResult_frame (w w' : World) (r : option (bool * GameState)) :
  purchaseResult w r = Some w' ->
  lastUpdate w' = lastUpdate w /\ saveFile w' = saveFile w.
Proof. destruct r as [[ok s]|]; [|discriminate]. now intros [= <-]. Qed.

Lemma handleInput_effect (input : string) (now : Z) (w w' : World) :
  handleInput input now w = Some w' ->
  lastUpdate w' = lastUpdate w /\
  if String.eqb (toLowerCase (trim input)) "s" then w' = saveGame now w
  else saveFile w' = saveFile w.
Proof.
  unfold handleInput. cbv zeta. set (cmd := toLowerCase (trim input)).
  assert (Hnot : forall c, String.eqb cmd c = true -> c <> "s"%string ->
            String.eqb cmd "s" = false).
  { intros c Hcmd Hc. apply String.eqb_eq in Hcmd. apply String.eqb_neq. congruence. }
  assert (Hbuy : forall c r, String.eqb cmd c = true -> c <> "s"%string ->
            purchaseResult w r = Some w' ->
            lastUpdate w' = lastUpdate w /\
            if String.eqb cmd "s" then w' = saveGame now w
            else saveFile w' = saveFile w).
  { intros c r Hcmd Hc H. rewrite (Hnot c Hcmd Hc). eapply purchaseResult_frame; eauto. }
  destruct (String.eqb cmd "c") eqn:E1.
  { rewrite (Hnot _ E1) by discriminate. now intros [= <-]. }
  destruct (String.eqb cmd "1") eqn:E2; [apply (Hbuy _ _ E2); discriminate|].
  destruct (String.eqb cmd "2") eqn:E3; [apply (Hbuy _ _ E3); discriminate|].
  destruct (String.eqb cmd "3") eqn:E4; [apply (Hbuy _ _ E4); discriminate|].
  destruct (String.eqb cmd "1a") eqn:E5; [apply (Hbuy _ _ E5); discriminate|].
  destruct (String.eqb cmd "1b") eqn:E6; [apply (Hbuy _ _ E6); discriminate|].
  destruct (String.eqb cmd "2a") eqn:E7; [apply (Hbuy _ _ E7); discriminate|].
  destruct (String.eqb cmd "2b") eqn:E8; [apply (Hbuy _ _ E8); discriminate|].
  destruct (String.eqb cmd "3a") eqn:E9; [apply (Hbuy _ _ E9); discriminate|].
  destruct (String.eqb cmd "3b") eqn:E10; [apply (Hbuy _ _ E10); discriminate|].
  destruct (String.eqb cmd "s") eqn:E11; [intros [= <-]; split; reflexivity|].
  destruct (String.eqb cmd "l") eqn:E12.
  { destruct (loadGame w) as [[ok w'']|] eqn:Hload; cbn; [|discriminate].
    intros [= <-]. eapply loadGame_frame; eauto. }
  destruct (String.eqb cmd "q"); [discriminate|]. now intros [= <-].
Qed.

Lemma run_stopped (events : list Event) :
  fold_left (fun current e =>
               match current with
               | Some w' => step e w'
               | None => None
               end) events None = None.
Proof. induction events as [|e es IH]; [reflexivity|exact IH]. Qed.

Lemma run_cons (e : Event) (events : list Event) (w : World) :
  run (e :: events) w = match step e w with Some w' => run events w' | None => None end.
Proof. unfold run. cbn [fold_left]. destruct (step e w); [reflexivity|apply run_stopped]. Qed.


Lemma reachable_run (events : list Event) (w w' : World) :
  reachable w -> run events w = Some w' -> reachable w'.
Proof.
  revert w. induction events as [|e es IH]; intros w Hw; [now intros [= <-]|].
  rewrite run_cons. destruct (step e w) as [w1|] eqn:Hstep; [|discriminate].
  apply IH. eapply reachable_step; eauto.
Qed.

(** ** Invariants of the runs, in general *)

Section RunInvariant.

Variable P : GameState -> Prop.
Variable clock : Z -> Z -> bool.
Hypothesis P_initial : forall now, P (initialGameState now).
Hypothesis P_click : forall s, valid_state s -> P s -> P (click s).
Hypothesis P_buyBuilding : forall index s ok s',
  valid_state s -> P s -> buyBuilding index s = Some (ok, s') -> P s'.
Hypothesis P_buyUpgrade : forall bi ui s ok s',
  valid_state s -> P s -> buyUpgrade bi ui s = Some (ok, s') -> P s'.
Hypothesis P_gameLoop : forall now lastUpdate s,
  clock lastUpdate now = true -> valid_state s -> P s ->
  P (snd (gameLoop now lastUpdate s)).
Hypothesis P_lastSaved : forall now s, P s -> P (set_lastSaved (inject_Z now) s).
Hypothesis P_equiv : forall s s', state_equiv s s' -> P s -> P s'.

Lemma invariant_loadGame (w w' : World) (ok : bool) :
  loadGame w = Some (ok, w') -> run_invariant P w -> run_invariant P w'.
Proof.
  intros Hload (Hw & HP & Hfile).
  split; [eapply valid_loadGame; eauto|].
  destruct (saveFile w) as [data|] eqn:Hdata.
  - destruct (Hfile data eq_refl) as (s0 & Hs0 & HP0 & ->).
    destruct (loadGame_written w s0 Hdata (proj1 Hs0)) as (s' & Hload' & Hequiv).
    rewrite Hload' in Hload. injection Hload as <- <-. cbn.
    split; [eapply P_equiv; eauto|]. rewrite Hdata. exact Hfile.
  - unfold loadGame in Hload. rewrite Hdata in Hload. injection Hload as <- <-.
    split; [exact HP|]. rewrite Hdata. exact Hfile.
Qed.

Lemma invariant_step (e : Event) (w w' : World) :
  clocked clock [e] (lastUpdate w) = true ->
  step e w = Some w' -> run_invariant P w -> run_invariant P w'.
Proof.
  intros Hclock Hstep Hinv. pose proof Hinv as (Hw & HP & Hfile).
  split; [eapply valid_step; eauto|].
  destruct e as [input now|now]; cbn [step] in Hstep.
  - destruct (handleInput_cases _ _ _ _ Hstep)
      as [->|[->|[(i & ok & s' & Hb & ->)|[(bi & ui & ok & s' & Hb & ->)|[->|[ok Hl]]]]]];
      cbn [gameState saveFile set_gameState saveGame].
    + now split.
    + split; [apply P_click; [apply Hw|exact HP]|exact Hfile].
    + split; [eapply P_buyBuilding; [apply Hw|exact HP|exact Hb]|exact Hfile].
    + split; [eapply P_buyUpgrade; [apply Hw|exact HP|exact Hb]|exact Hfile].
    + split; [now apply P_lastSaved|]. intros data [= <-].
      eexists. split; [apply valid_set_lastSaved, Hw|]. split; [|reflexivity].
      now apply P_lastSaved.
    + exact (proj2 (invariant_loadGame _ _ _ Hl Hinv)).
  - injection Hstep as <-. cbn [gameState saveFile]. cbn in Hclock.
    rewrite andb_true_r in Hclock.
    split; [apply P_gameLoop; [exact Hclock|apply Hw|exact HP]|exact Hfile].
Qed.

Lemma invariant_run (events : list Event) (w w' : World) :
  clocked clock events (lastUpdate w) = true ->
  run events w = Some w' -> run_invariant P w -> run_invariant P w'.
Proof.
  revert w. induction events as [|e es IH]; intros w Hclock; [now intros [= <-]|].
  rewrite run_cons. destruct (step e w) as [w1|] eqn:Hstep; [|discriminate].
  intros Hrun Hinv. apply (IH w1); [|exact Hrun|].
  - destruct e as [input now|now]; cbn [clocked] in Hclock.
    + cbn [step] in Hstep. apply handleInput_effect in Hstep as [-> _]. exact Hclock.
    + injection Hstep as <-. cbn [lastUpdate]. now apply andb_prop in Hclock.
  - eapply invariant_step; [|exact Hstep|exact Hinv].
    destruct e as [input now|now]; [reflexivity|]. cbn [clocked] in *.
    apply andb_prop in Hclock as [-> _]. reflexivity.
Qed.

Lemma invariant_startup (t0 t1 : Z) (file : option string) (w : World) :
  (forall data, file = Some data ->
     exists s, valid_state s /\ P s /\ data = JSON_stringify (gameStateToJSON s)) ->
  startup t0 t1 file = Some w -> run_invariant P w.
Proof.
  intros Hfile. unfold startup.
  destruct (loadGame _) as [[ok w'']|] eqn:Hload; cbn; [|discriminate].
  intros [= <-]. eapply invariant_loadGame; [exact Hload|].
  split; [|split; [apply P_initial|exact Hfile]].
  split; [apply valid_initial|]. cbn. intros data Hdata.
  destruct (Hfile data Hdata) as (s & Hs & _ & ->). eauto.
Qed.

(** A property of states that the initial state has, that every operation
    keeps and that does not depend on the representation of the numbers
    holds in every world of a run, and of the state its save file holds. *)
Lemma reachable_invariant (w : World) :
  (forall lastUpdate now, clock lastUpdate now = true) ->
  reachable w -> run_invariant P w.
Proof.
  intros Hclock Hreach.
  induction Hreach as [t0 t1 w Hstart|w0 t0 t1 w _ IH Hstart|w e w' _ IH Hstep].
  - eapply invariant_startup; [|exact Hstart]. discriminate.
  - eapply invariant_startup; [|exact Hstart]. apply IH.
  - eapply invariant_step; [|exact Hstep|exact IH].
    destruct e as [input now|now]; [reflexivity|]. cbn. now rewrite Hclock.
Qed.

End RunInvariant.

(** ** The configuration *)

Lemma sameUpgradeConfig_refl (u : Upgrade) : sameUpgradeConfig u u.
Proof. repeat split; reflexivity. Qed.

Lemma sameUpgrades_refl (us : list Upgrade) : Forall2 sameUpgradeConfig us us.
Proof. induction us; constructor; auto using sameUpgradeConfig_refl. Qed.

Lemma sameBuildingConfig_refl (b : Building) : sameBuildingConfig b b.
Proof. repeat split; try reflexivity. apply sameUpgrades_refl. Qed.

Lemma sameBuildings_refl (bs : list Building) : Forall2 sameBuildingConfig bs bs.
Proof. induction bs; constructor; auto using sameBuildingConfig_refl. Qed.

Lemma sameConfig_refl (s : GameState) : sameConfig s s.
Proof. split; [reflexivity|apply sameBuildings_refl]. Qed.

Lemma sameUpgradeConfig_trans (u1 u2 u3 : Upgrade) :
  sameUpgradeConfig u1 u2 -> sameUpgradeConfig u2 u3 -> sameUpgradeConfig u1 u3.
Proof.
  intros (A1 & A2 & A3 & A4) (B1 & B2 & B3 & B4).
  repeat split; try congruence; etransitivity; eassumption.
Qed.

Lemma sameBuildingConfig_trans (b1 b2 b3 : Building) :
  sameBuildingConfig b1 b2 -> sameBuildingConfig b2 b3 -> sameBuildingConfig b1 b3.
Proof.
  intros (A1 & A2 & A3 & A4) (B1 & B2 & B3 & B4).
  repeat split; try congruence; try (etransitivity; eassumption).
  eapply Forall2_trans; [|exact A4|exact B4]. apply sameUpgradeConfig_trans.
Qed.

Lemma sameConfig_trans (s1 s2 s3 : GameState) :
  sameConfig s1 s2 -> sameConfig s2 s3 -> sameConfig s1 s3.
Proof.
  intros [A1 A2] [B1 B2]. split; [etransitivity; eassumption|].
  eapply Forall2_trans; [|exact A2|exact B2]. apply sameBuildingConfig_trans.
Qed.

Lemma sameConfig_buildings (s s' : GameState) :
  clickPower s' = clickPower s -> buildings s' = buildings s -> sameConfig s' s.
Proof. intros H1 H2. split; rewrite ?H1, ?H2; [reflexivity|apply sameBuildings_refl]. Qed.

Lemma sameBuildings_insert (bs : list Building) (i : nat) (b b' : Building) :
  bs !! i = Some b -> sameBuildingConfig b' b ->
  Forall2 sameBuildingConfig (<[i := b']> bs) bs.
Proof.
  intros Hb Hsame. rewrite <- (list_insert_id bs i b Hb) at 2.
  apply Forall2_insert; [apply sameBuildings_refl|exact Hsame].
Qed.

Lemma sameConfig_buyBuilding (index : nat) (s s' : GameState) (ok : bool) :
  buyBuilding index s = Some (ok, s') -> sameConfig s' s.
Proof.
  intros H. apply buyBuilding_inv in H as (b & Hb & H).
  destruct ok; destruct H as [_ ->]; [|apply sameConfig_refl].
  split; [reflexivity|]. cbn. eapply sameBuildings_insert; [exact Hb|].
  repeat split; try reflexivity. apply sameUpgrades_refl.
Qed.

Lemma sameConfig_buyUpgrade (bi ui : nat) (s s' : GameState) (ok : bool) :
  buyUpgrade bi ui s = Some (ok, s') -> sameConfig s' s.
Proof.
  intros H. apply buyUpgrade_inv in H as (b & u & Hb & Hu & H).
  destruct ok; [destruct H as (_ & _ & ->)|destruct H as [_ ->]; apply sameConfig_refl].
  split; [reflexivity|]. cbn. eapply sameBuildings_insert; [exact Hb|].
  repeat split; try reflexivity. cbn.
  rewrite <- (list_insert_id (upgrades b) ui u Hu) at 2.
  apply Forall2_insert; [apply sameUpgrades_refl|]. repeat split; reflexivity.
Qed.

Lemma sameConfig_applyOp (s : GameState) (op : GameOp) : sameConfig (applyOp s op) s.
Proof.
  destruct op as [|index|bi ui|now lastUpdate]; cbn [applyOp].
  - now apply sameConfig_buildings.
  - destruct (buyBuilding index s) as [[ok s']|] eqn:H; [|apply sameConfig_refl].
    eapply sameConfig_buyBuilding; eauto.
  - destruct (buyUpgrade bi ui s) as [[ok s']|] eqn:H; [|apply sameConfig_refl].
    eapply sameConfig_buyUpgrade; eauto.
  - now apply sameConfig_buildings.
Qed.

Lemma sameConfig_equiv (s s' : GameState) : state_equiv s s' -> sameConfig s' s.
Proof.
  intros (_ & _ & Ec & Eb & _). split; [now symmetry|].
  clear - Eb. induction Eb as [|b b' bs bs' (E1 & _ & E2 & E3 & E4) _ IH]; constructor; [|exact IH].
  repeat split; try (symmetry; assumption).
  clear - E4. induction E4 as [|u u' us us' (F1 & _ & F2 & F3 & F4) _ IH]; constructor; [|exact IH].
  repeat split; symmetry; assumption.
Qed.

(** What the configuration of the initial state implies: three buildings
    with two upgrades each, no negative cost, and no multiplier below 1. *)
Lemma config_shape (s : GameState) :
  sameConfig s (initialGameState 0) ->
  clickPower s == 1 /\ length (buildings s) = 3%nat /\
  Forall (fun b => length (upgrades b) = 2%nat /\ 0 <= baseCost b /\
                   Forall (fun u => 0 <= cost u /\ 1 <= productionMultiplier u)
                          (upgrades b)) (buildings s).
Proof.
  intros [Hc Hb]. split; [exact Hc|]. cbn in Hb.
  assert (Hlen := Forall2_length _ _ _ Hb). split; [exact Hlen|].
  eapply Forall2_Forall_l; [exact Hb|]. clear.
  repeat apply List.Forall_cons; try apply List.Forall_nil;
    intros b (_ & Hcost & _ & Hus); cbn in *;
    (split; [exact (Forall2_length _ _ _ Hus)|]); (split; [rewrite Hcost; discriminate|]);
    (eapply Forall2_Forall_l; [exact Hus|]);
    repeat apply List.Forall_cons; try apply List.Forall_nil;
    intros u (_ & H1 & H2 & _); cbn in *; rewrite H1, H2; split; discriminate.
Qed.

(** ** Costs *)

Lemma floor_nonneg (x : Q) : 0 <= x -> 0 <= inject_Z (Qfloor x).
Proof.
  intros H. change 0 with (inject_Z 0). rewrite <- Zle_Qle.
  change 0%Z with (Qfloor 0). now apply Qfloor_resp_le.
Qed.

Lemma getBuildingCost_nonneg (building : Building) :
  0 <= baseCost building -> 0 <= getBuildingCost building.
Proof.
  intros H. apply floor_nonneg. apply Qmult_le_0_compat; [exact H|].
  apply Qpower_0_le. discriminate.
Qed.

Lemma getBuildingCost_le (building : Building) (m n : Z) :
  0 <= baseCost building -> (m <= n)%Z ->
  getBuildingCost (set_count m building) <= getBuildingCost (set_count n building).
Proof.
  intros Hbase Hmn. unfold getBuildingCost. cbn [baseCost count set_count].
  rewrite <- Zle_Qle. apply Qfloor_resp_le.
  assert (H : 1.15 ^ m <= 1.15 ^ n) by (apply Qpower_le_compat_l; [exact Hmn|discriminate]).
  nra.
Qed.

(** ** The states of the runs *)

Lemma run_state_initial (now : Z) : run_state (initialGameState now).
Proof. split; [now apply sameConfig_buildings|apply Qle_refl]. Qed.

Lemma run_state_click (s : GameState) : run_state s -> run_state (click s).
Proof.
  intros [Hc Hp]. split.
  - eapply sameConfig_trans; [apply (sameConfig_applyOp s DoClick)|exact Hc].
  - unfold click. cbn. lra.
Qed.

Lemma run_state_buyBuilding (index : nat) (s s' : GameState) (ok : bool) :
  run_state s -> buyBuilding index s = Some (ok, s') -> run_state s'.
Proof.
  intros [Hc Hp] H. split.
  - eapply sameConfig_trans; [eapply sameConfig_buyBuilding; eauto|exact Hc].
  - apply buyBuilding_inv in H as (b & Hb & H).
    destruct ok; destruct H as [_ ->]; [|exact Hp].
    destruct (config_shape s Hc) as (_ & _ & Hall).
    destruct (Forall_lookup_1 _ _ _ _ Hall Hb) as (_ & Hbase & _).
    pose proof (getBuildingCost_nonneg b Hbase). cbn. lra.
Qed.

Lemma run_state_buyUpgrade (bi ui : nat) (s s' : GameState) (ok : bool) :
  run_state s -> buyUpgrade bi ui s = Some (ok, s') -> run_state s'.
Proof.
  intros [Hc Hp] H. split.
  - eapply sameConfig_trans; [eapply sameConfig_buyUpgrade; eauto|exact Hc].
  - apply buyUpgrade_inv in H as (b & u & Hb & Hu & H).
    destruct ok; [destruct H as (_ & _ & ->)|destruct H as [_ ->]; exact Hp].
    destruct (config_shape s Hc) as (_ & _ & Hall).
    destruct (Forall_lookup_1 _ _ _ _ Hall Hb) as (_ & _ & Hus).
    destruct (Forall_lookup_1 _ _ _ _ Hus Hu) as [Hcost _]. cbn. lra.
Qed.

Lemma run_state_gameLoop (now lastUpdate : Z) (s : GameState) :
  run_state s -> run_state (snd (gameLoop now lastUpdate s)).
Proof.
  intros [Hc Hp]. split.
  - eapply sameConfig_trans; [apply (sameConfig_applyOp s (DoTick now lastUpdate))|exact Hc].
  - unfold gameLoop. cbn. lra.
Qed.

Lemma run_state_equiv (s s' : GameState) : state_equiv s s' -> run_state s -> run_state s'.
Proof.
  intros Hequiv [Hc Hp]. split.
  - eapply sameConfig_trans; [apply sameConfig_equiv; exact Hequiv|exact Hc].
  - destruct Hequiv as (E1 & E2 & _). now rewrite <- E1, <- E2.
Qed.

Lemma reachable_run_state (w : World) : reachable w -> run_invariant run_state w.
Proof.
  apply (reachable_invariant run_state (fun _ _ => true)); [| | | | | | |reflexivity].
  - apply run_state_initial.
  - intros s _. apply run_state_click.
  - intros index s ok s' _. apply run_state_buyBuilding.
  - intros bi ui s ok s' _. apply run_state_buyUpgrade.
  - intros now lastUpdate s _ _. apply run_state_gameLoop.
  - intros now s [Hc Hp]. split; [|exact Hp].
    eapply sameConfig_trans; [|exact Hc]. now apply sameConfig_buildings.
  - apply run_state_equiv.
Qed.





(** X3. With a base cost that is not negative the cost of a building is not
    negative and does not decrease with the count; from a cost of 7 on it
    grows with every further building. *)
Theorem getBuildingCost_monotone (building : Building) (m n : Z) :
  0 <= baseCost building -> (m <= n)%Z ->
  let c := fun k => getBuildingCost (set_count k building) in
  0 <= c m /\ c m <= c n /\ (7 <= c m -> (m < n)%Z -> c m < c n).
Proof.
  intros Hbase Hmn c. split; [now apply getBuildingCost_nonneg|].
  split; [now apply getBuildingCost_le|].
  intros H7 Hlt.
  assert (Hnext : c (m + 1)%Z <= c n) by (apply getBuildingCost_le; [exact Hbase|lia]).
  destruct (cost_growth building m) as [Hlow _]. subst c. cbv beta in *. lra.
Qed.

Lemma getBuildingCost_monotone_witness :
  let cursor := mkBuilding "Cursor" 0 15 0.1 [] in
  let c := fun k => getBuildingCost (set_count k cursor) in
  0 <= baseCost cursor /\ (0 <= 5)%Z /\
  0 <= c 0%Z /\ c 0%Z <= c 5%Z /\ (7 <= c 0%Z -> (0 < 5)%Z -> c 0%Z < c 5%Z).
Proof.
  split; [discriminate|]. split; [lia|].
  apply (getBuildingCost_monotone (mkBuilding "Cursor" 0 15 0.1 []) 0 5); [discriminate|lia].
Defined.

(** ** Runs do not stop short *)

Lemma buyBuilding_None (index : nat) (s : GameState) :
  buyBuilding index s = None <-> (length (buildings s) <= index)%nat.
Proof.
  rewrite <- lookup_ge_None. unfold buyBuilding.
  destruct (buildings s !! index) as [b|]; [|tauto].
  cbv zeta. destruct (geq _ _); split; discriminate.
Qed.

Lemma buyUpgrade_None (bi ui : nat) (s : GameState) :
  buyUpgrade bi ui s = None <->
  match buildings s !! bi with
  | Some building => (length (upgrades building) <= ui)%nat
  | None => True
  end.
Proof.
  unfold buyUpgrade. destruct (buildings s !! bi) as [b|]; [|tauto].
  rewrite <- lookup_ge_None. destruct (upgrades b !! ui) as [u|]; [|tauto].
  cbv zeta. destruct (_ && _); split; discriminate.
Qed.

Lemma run_buyBuilding (s : GameState) (index : nat) (w : World) :
  sameConfig s (initialGameState 0) -> (index < 3)%nat ->
  exists w', purchaseResult w (buyBuilding index s) = Some w'.
Proof.
  intros Hc Hi. destruct (config_shape s Hc) as (_ & Hlen & _).
  destruct (buyBuilding index s) as [[ok s']|] eqn:H; [cbn; eauto|].
  apply buyBuilding_None in H. lia.
Qed.

Lemma run_buyUpgrade (s : GameState) (bi ui : nat) (w : World) :
  sameConfig s (initialGameState 0) -> (bi < 3)%nat -> (ui < 2)%nat ->
  exists w', purchaseResult w (buyUpgrade bi ui s) = Some w'.
Proof.
  intros Hc Hbi Hui. destruct (config_shape s Hc) as (_ & Hlen & Hall).
  destruct (buyUpgrade bi ui s) as [[ok s']|] eqn:H; [cbn; eauto|].
  apply buyUpgrade_None in H.
  destruct (buildings s !! bi) as [b|] eqn:Hb.
  - destruct (Forall_lookup_1 _ _ _ _ Hall Hb) as (Hlen' & _). lia.
  - apply lookup_ge_None in Hb. lia.
Qed.

Lemma run_loadGame (w : World) : valid_world w -> exists ok w', loadGame w = Some (ok, w').
Proof.
  intros [_ Hfile]. destruct (saveFile w) as [data|] eqn:Hdata.
  - destruct (Hfile data eq_refl) as (s & Hs & ->).
    destruct (loadGame_written w s Hdata (proj1 Hs)) as (s' & Hload & _). eauto.
  - unfold loadGame. rewrite Hdata. eauto.
Qed.



(** ** Reading the commands *)

Lemma chars_app (s t : string) : chars (s ++ t) = chars s ++ chars t.
Proof. induction s as [|c s IH]; cbn; [reflexivity|]. f_equal. exact IH. Qed.

Lemma chars_of_list (cs : list ascii) : chars (string_of_list_ascii cs) = cs.
Proof. apply list_ascii_of_string_of_list_ascii. Qed.

Lemma trimStart_app_l (l cs : list ascii) :
  Forall (fun c => isTrimmed c = true) l -> trimStart (l ++ cs) = trimStart cs.
Proof. induction 1 as [|c l Hc _ IH]; cbn [app trimStart]; [reflexivity|]. now rewrite Hc. Qed.

Lemma trimStart_app_r (cs r : list ascii) :
  Forall (fun c => isTrimmed c = true) r ->
  trimStart (cs ++ r) = match trimStart cs with [] => [] | t => t ++ r end.
Proof.
  intros Hr. induction cs as [|c cs IH]; cbn [app trimStart].
  - rewrite <- (app_nil_r r). now rewrite trimStart_app_l.
  - destruct (isTrimmed c); [exact IH|reflexivity].
Qed.

Lemma trim_padding (l input r : string) :
  Forall (fun c => isTrimmed c = true) (chars l) ->
  Forall (fun c => isTrimmed c = true) (chars r) ->
  trim (l ++ input ++ r) = trim input.
Proof.
  intros Hl Hr. unfold trim. f_equal. f_equal.
  rewrite !chars_app, trimStart_app_l by exact Hl.
  rewrite trimStart_app_r by exact Hr.
  destruct (trimStart (chars input)) as [|c t]; [reflexivity|].
  rewrite rev_app_distr. apply trimStart_app_l. now apply List.Forall_rev.
Qed.

Lemma isTrimmed_lowerChar (c : ascii) : isTrimmed (lowerChar c) = isTrimmed c.
Proof. destruct c as [[] [] [] [] [] [] [] []]; reflexivity. Qed.

Lemma trimStart_lower (cs : list ascii) :
  trimStart (map lowerChar cs) = map lowerChar (trimStart cs).
Proof.
  induction cs as [|c cs IH]; cbn [map trimStart]; [reflexivity|].
  rewrite isTrimmed_lowerChar. destruct (isTrimmed c); [exact IH|reflexivity].
Qed.

Lemma toLowerCase_trim (s : string) : toLowerCase (trim s) = trim (toLowerCase s).
Proof.
  unfold toLowerCase, trim. rewrite !chars_of_list. f_equal.
  now rewrite trimStart_lower, <- map_rev, trimStart_lower, map_rev.
Qed.

Lemma handleInput_command (input input' : string) (now : Z) (w : World) :
  toLowerCase (trim input') = toLowerCase (trim input) ->
  handleInput input' now w = handleInput input now w.
Proof. intros H. unfold handleInput. cbv zeta. now rewrite H. Qed.

(** X5. A command is read whatever stands around it and in either case: a
    line that differs from another one only by white space at its ends and
    by the case of its letters has the same effect. *)
Theorem handleInput_normalises (l input' r input : string) (now : Z) (w : World) :
  Forall (fun c => isTrimmed c = true) (chars l) ->
  Forall (fun c => isTrimmed c = true) (chars r) ->
  toLowerCase input' = toLowerCase input ->
  handleInput (l ++ input' ++ r) now w = handleInput input now w.
Proof.
  intros Hl Hr Hcase. apply handleInput_command.
  rewrite trim_padding by assumption. now rewrite !toLowerCase_trim, Hcase.
Qed.

Lemma handleInput_normalises_witness :
  let w := mkWorld (initialGameState 0) 0 None in
  handleInput ("  " ++ "C" ++ " ") 7 w = handleInput "c" 7 w.
Proof.
  apply handleInput_normalises; [repeat constructor..|reflexivity].
Defined.

(** X6. No command writes [lastUpdate], and only the command [s] writes the
    save file; what [s] leaves is the world [saveGame] returns. *)
Theorem handleInput_frame (input : string) (now : Z) (w w' : World) :
  handleInput input now w = Some w' ->
  lastUpdate w' = lastUpdate w /\
  if String.eqb (toLowerCase (trim input)) "s" then w' = saveGame now w
  else saveFile w' = saveFile w.
Proof. apply handleInput_effect. Qed.

Lemma handleInput_frame_witness :
  let w := mkWorld (initialGameState 0) 3 None in
  lastUpdate (set_gameState (click (gameState w)) w) = lastUpdate w /\
  saveFile (set_gameState (click (gameState w)) w) = saveFile w.
Proof.
  exact (handleInput_frame "c" 9 (mkWorld (initialGameState 0) 3 None) _ eq_refl).
Defined.

(** ** The save file over a run *)

Lemma step_file (e : Event) (w w' : World) :
  step e w = Some w' -> isSave e = false -> saveFile w' = saveFile w.
Proof.
  destruct e as [input now|now]; cbn [step isSave].
  - intros H Hs. apply handleInput_effect in H as [_ H]. now rewrite Hs in H.
  - now intros [= <-].
Qed.

Lemma run_file (events : list Event) (w w' : World) :
  forallb (fun e => negb (isSave e)) events = true ->
  run events w = Some w' -> saveFile w' = saveFile w.
Proof.
  revert w. induction events as [|e es IH]; intros w Hes; [now intros [= <-]|].
  cbn [forallb] in Hes. apply andb_prop in Hes as [He Hes].
  apply negb_true_iff in He. rewrite run_cons.
  destruct (step e w) as [w1|] eqn:Hstep; [|discriminate].
  intros Hrun. rewrite (IH w1 Hes Hrun). eapply step_file; eauto.
Qed.





(** ** Purchases and production *)

Lemma sum_insert {A : Type} (f : A -> Q) (bs : list A) (i : nat) (b b' : A) :
  bs !! i = Some b ->
  fold_right Qplus 0 (map f (<[i := b']> bs))
  == fold_right Qplus 0 (map f bs) - f b + f b'.
Proof.
  revert i. induction bs as [|x bs IH]; intros [|i] Hb; try discriminate.
  - injection Hb as ->. cbn. ring.
  - cbn [insert list_insert map fold_right]. cbn in Hb.
    change (list_insert i b' bs) with (<[i := b']> bs). rewrite (IH i Hb). ring.
Qed.

Lemma getTotalProduction_sum (s : GameState) :
  getTotalProduction s == fold_right Qplus 0 (map productionFormula (buildings s)).
Proof. unfold getTotalProduction. rewrite sum_fold. ring. Qed.

Lemma getTotalProduction_insert (s s' : GameState) (i : nat) (b b' : Building) :
  buildings s !! i = Some b -> buildings s' = <[i := b']> (buildings s) ->
  getTotalProduction s'
  == getTotalProduction s - getBuildingProduction b + getBuildingProduction b'.
Proof.
  intros Hb Hs'. rewrite !getTotalProduction_sum, Hs', (sum_insert _ _ _ _ _ Hb).
  now rewrite !getBuildingProduction_formula.
Qed.

Lemma multiplier_insert (us : list Upgrade) (ui : nat) (u : Upgrade) (acc : Q) :
  us !! ui = Some u -> purchased u = false ->
  fold_left applyUpgrade
    (<[ui := mkUpgrade (upgradeName u) true (cost u) (productionMultiplier u)
               (description u)]> us) acc
  == productionMultiplier u * fold_left applyUpgrade us acc.
Proof.
  revert ui acc. induction us as [|x us IH]; intros [|ui] acc Hu Hp; try discriminate.
  - injection Hu as ->. cbn [insert list_insert fold_left].
    unfold applyUpgrade at 2 4. cbn [purchased productionMultiplier]. rewrite Hp.
    rewrite !applyUpgrade_fold. ring.
  - cbn [insert list_insert fold_left]. cbn in Hu.
    change (list_insert ui ?y us) with (<[ui := y]> us). now apply IH.
Qed.

Lemma boughtBuilding_production (index : nat) (b : Building) (s : GameState) :
  buildings s !! index = Some b ->
  getTotalProduction (boughtBuilding index b s)
  == getTotalProduction s + getBuildingProduction (set_count 1 b).
Proof.
  intros Hb. rewrite (getTotalProduction_insert s (boughtBuilding index b s) index b _ Hb eq_refl).
  unfold getBuildingProduction, set_count. cbn [count baseProduction upgrades].
  rewrite inject_Z_plus. ring.
Qed.

Lemma boughtUpgrade_production (bi ui : nat) (b : Building) (u : Upgrade) (s : GameState) :
  buildings s !! bi = Some b -> upgrades b !! ui = Some u -> purchased u = false ->
  getTotalProduction (boughtUpgrade bi ui b u s)
  == getTotalProduction s + (productionMultiplier u - 1) * getBuildingProduction b.
Proof.
  intros Hb Hu Hp. rewrite (getTotalProduction_insert s (boughtUpgrade bi ui b u s) bi b _ Hb eq_refl).
  unfold getBuildingProduction. cbn [count baseProduction upgrades].
  rewrite (multiplier_insert _ _ _ _ Hu Hp). ring.
Qed.







(** ** Clicks and ticks *)

Lemma upgrades_equiv_refl (us : list Upgrade) : Forall2 upgrade_equiv us us.
Proof. induction us; constructor; [repeat split; reflexivity|assumption]. Qed.

Lemma buildings_equiv_refl (bs : list Building) : Forall2 building_equiv bs bs.
Proof.
  induction bs; constructor; [|assumption].
  repeat split; try reflexivity. apply upgrades_equiv_refl.
Qed.

Lemma state_equiv_points (s s' : GameState) :
  points s == points s' -> totalPointsEarned s == totalPointsEarned s' ->
  clickPower s = clickPower s' -> buildings s = buildings s' ->
  lastSaved s = lastSaved s' -> state_equiv s s'.
Proof.
  intros Hp Ht Hc Hb Hl. repeat split; [exact Hp|exact Ht|now rewrite Hc| |now rewrite Hl].
  rewrite Hb. apply buildings_equiv_refl.
Qed.

Lemma no_buildings_no_production (bs : list Building) (acc : Q) :
  Forall (fun b => count b = 0%Z) bs ->
  fold_left (fun total building => total + getBuildingProduction building) bs acc == acc.
Proof.
  intros H. revert acc. induction H as [|b bs Hb _ IH]; intros acc; [reflexivity|].
  cbn [fold_left]. rewrite IH. unfold getBuildingProduction. rewrite Hb. ring.
Qed.

(** X12. Without buildings nothing is produced: while every count is 0 the
    total production is 0 and a tick, whatever the clock shows, leaves the
    state as it is, up to the representation of the numbers. *)
Theorem idle_without_buildings (s : GameState) (now lastUpdate : Z) :
  Forall (fun b => count b = 0%Z) (buildings s) ->
  getTotalProduction s == 0 /\ state_equiv (snd (gameLoop now lastUpdate s)) s.
Proof.
  intros H. pose proof (no_buildings_no_production _ 0 H) as Hprod.
  split; [exact Hprod|].
  apply state_equiv_points; try reflexivity; unfold gameLoop; cbn;
    change (fold_left _ (buildings s) 0) with (getTotalProduction s);
    unfold getTotalProduction; rewrite Hprod; ring.
Qed.

Lemma idle_without_buildings_witness :
  getTotalProduction (click (initialGameState 0)) == 0 /\
  state_equiv (snd (gameLoop 500 0 (click (initialGameState 0)))) (click (initialGameState 0)).
Proof. apply idle_without_buildings. repeat constructor. Defined.

(** X13. The tick does not guard against a clock that runs backwards: with
    a production above 0 and a clock value below [lastUpdate] it takes
    points away, from the points at hand and from the points earned in
    total alike. *)
Theorem gameLoop_clock_backwards (s : GameState) (now lastUpdate : Z) :
  0 < getTotalProduction s -> (now < lastUpdate)%Z ->
  let s' := snd (gameLoop now lastUpdate s) in
  points s' < points s /\ totalPointsEarned s' < totalPointsEarned s.
Proof.
  intros Hprod Hclock. unfold gameLoop. cbn.
  change (fold_left _ (buildings s) 0) with (getTotalProduction s).
  assert (Helapsed : inject_Z (now - lastUpdate) / 1000 < 0).
  { apply Qlt_shift_div_r; [reflexivity|]. rewrite Qmult_0_l.
    change 0 with (inject_Z 0). rewrite <- Zlt_Qlt. lia. }
  assert (getTotalProduction s * (inject_Z (now - lastUpdate) / 1000) < 0) by nra.
  split; lra.
Qed.

Lemma gameLoop_clock_backwards_witness :
  let s := applyOps [DoBuyBuilding 1] (set_points 100 (initialGameState 0)) in
  let s' := snd (gameLoop 1000 3000 s) in
  points s' < points s /\ totalPointsEarned s' < totalPointsEarned s.
Proof.
  apply (gameLoop_clock_backwards
           (applyOps [DoBuyBuilding 1] (set_points 100 (initialGameState 0))) 1000 3000);
    reflexivity.
Defined.

Lemma clicks_step (n : nat) (s : GameState) :
  applyOps (repeat DoClick (S n)) s = applyOps (repeat DoClick n) (click s).
Proof. reflexivity. Qed.

Lemma clicks_points (n : nat) (s : GameState) :
  let s' := applyOps (repeat DoClick n) s in
  points s' == points s + inject_Z (Z.of_nat n) * clickPower s /\
  totalPointsEarned s' == totalPointsEarned s + inject_Z (Z.of_nat n) * clickPower s /\
  clickPower s' = clickPower s /\ buildings s' = buildings s /\
  lastSaved s' = lastSaved s.
Proof.
  revert s. induction n as [|n IH]; intros s.
  - cbn. repeat split; ring.
  - cbv zeta. rewrite clicks_step. destruct (IH (click s)) as (Hp & Ht & Hc & Hb & Hl).
    rewrite Hp, Ht, Hc, Hb, Hl, Nat2Z.inj_succ. unfold Z.succ. rewrite inject_Z_plus.
    unfold click. cbn. repeat split; ring.
Qed.



(** X16. With a click power above 0 every building comes within reach:
    after enough clicks its purchase goes through. *)
Theorem building_eventually_affordable (s : GameState) (index : nat) (b : Building) :
  0 < clickPower s -> buildings s !! index = Some b ->
  exists (n : nat) (s' : GameState),
    buyBuilding index (applyOps (repeat DoClick n) s) = Some (true, s').
Proof.
  intros Hcp Hb.
  set (x := (getBuildingCost b - points s) / clickPower s).
  set (n := Z.to_nat (Qceiling x)).
  destruct (clicks_points n s) as (Hp & _ & _ & Hbs & _).
  exists n. eexists. apply buyBuilding_commit; [rewrite Hbs; exact Hb|].
  rewrite Hp.
  assert (Hx : x <= inject_Z (Z.of_nat n)).
  { eapply Qle_trans; [apply Qle_ceiling|]. rewrite <- Zle_Qle. unfold n. lia. }
  assert (Hmul : x * clickPower s == getBuildingCost b - points s).
  { unfold x. field. intros H0. rewrite H0 in Hcp. discriminate. }
  assert (x * clickPower s <= inject_Z (Z.of_nat n) * clickPower s) by nra.
  lra.
Qed.

Lemma building_eventually_affordable_witness :
  exists (n : nat) (s' : GameState),
    buyBuilding 2 (applyOps (repeat DoClick n) (initialGameState 0)) = Some (true, s').
Proof.
  eapply (building_eventually_affordable (initialGameState 0) 2); reflexivity.
Defined.

(** ** The order of purchases *)

(** X17. Two buildings of different kinds can be bought in either order:
    when the purchases go through one way they go through the other way,
    and end in the same state, up to the representation of the numbers.
    The base cost of the building bought first must not be negative. *)
Theorem purchases_commute (i j : nat) (s s1 s2 : GameState) (b : Building) :
  i <> j -> buildings s !! i = Some b -> 0 <= baseCost b ->
  buyBuilding i s = Some (true, s1) -> buyBuilding j s1 = Some (true, s2) ->
  exists s1' s2',
    buyBuilding j s = Some (true, s1') /\ buyBuilding i s1' = Some (true, s2') /\
    state_equiv s2 s2'.
Proof.
  intros Hij Hb Hbase H1 H2.
  apply buyBuilding_inv in H1 as (b1 & Hb1 & Hc1 & ->).
  assert (b1 = b) as -> by congruence.
  apply buyBuilding_inv in H2 as (b2 & Hb2 & Hc2 & ->).
  cbn [boughtBuilding buildings points] in Hb2, Hc2.
  rewrite list_lookup_insert_ne in Hb2 by exact Hij.
  pose proof (getBuildingCost_nonneg b Hbase) as Hcost.
  assert (Hj : getBuildingCost b2 <= points s) by lra.
  exists (boughtBuilding j b2 s), (boughtBuilding i b (boughtBuilding j b2 s)).
  split; [now apply buyBuilding_commit|]. split.
  - apply buyBuilding_commit; cbn [boughtBuilding buildings points]; [|lra].
    rewrite list_lookup_insert_ne by auto. exact Hb.
  - apply state_equiv_points; try reflexivity; cbn; [ring|].
    apply list_insert_insert_ne; auto.
Qed.

Lemma purchases_commute_witness :
  let s := set_points 200 (initialGameState 0) in
  exists s2 s1' s2',
    applyOps [DoBuyBuilding 0; DoBuyBuilding 1] s = s2 /\
    buyBuilding 1 s = Some (true, s1') /\ buyBuilding 0 s1' = Some (true, s2') /\
    state_equiv s2 s2'.
Proof.
  eexists. 
  destruct (purchases_commute 0 1 (set_points 200 (initialGameState 0)) _ _ _
              ltac:(discriminate) eq_refl ltac:(discriminate) eq_refl eq_refl)
    as (s1' & s2' & H).
  exists s1', s2'. split; [reflexivity|exact H].
Defined.

(** ** The display *)

(** The display of the state the program starts from. *)
Example displayStatus_initial :
  displayStatus (initialGameState 0)
  = [ "=== TERMINAL CLICKER GAME ===";
      "Points: 0.0 (0.0 per second)";
      "Total earned: 0.0";
      String newline "=== BUILDINGS ===";
      "1. Cursor: 0 | Cost: 15.0 points | Producing: 0.0 per second";
      "2. Farm: 0 | Cost: 100.0 points | Producing: 0.0 per second";
      "3. Factory: 0 | Cost: 1.10K points | Producing: 0.0 per second";
      String newline "=== UPGRADES ===";
      "1a. Cursor - Faster Clicking: 100.0 points | Double the production of Cursors";
      "1b. Cursor - Auto Clicker: 500.0 points | Triple the production of Cursors";
      "2a. Farm - Fertilizer: 1.00K points | Double the production of Farms";
      "2b. Farm - Irrigation: 5.00K points | Triple the production of Farms";
      "3a. Factory - Assembly Line: 12.00K points | Double the production of Factories";
      "3b. Factory - Automation: 60.00K points | Triple the production of Factories";
      String newline "=== COMMANDS ===";
      "C - Click for points";
      "1-3 - Buy building (number corresponds to the building)";
      "1a, 1b, 2a, 2b, 3a, 3b - Buy upgrade";
      "S - Save game";
      "L - Load game";
      "Q - Quit game" ]%string.
Proof. vm_compute. reflexivity. Qed.

Lemma imap_insert_split {A B : Type} (f : nat -> A -> B) (l : list A) (i : nat) (x y : A) :
  l !! i = Some x ->
  exists pre post,
    imap f l = pre ++ f i x :: post /\ imap f (<[i := y]> l) = pre ++ f i y :: post.
Proof.
  revert f i. induction l as [|a l IH]; intros f [|i] H; try discriminate.
  - injection H as ->. exists [], (imap (f ∘ S) l). split; reflexivity.
  - cbn in H. destruct (IH (f ∘ S) i H) as (pre & post & H1 & H2).
    exists (f 0%nat a :: pre), post. cbn [imap insert list_insert].
    split; cbn [app]; f_equal; [exact H1|exact H2].
Qed.

Lemma concat_imap_length {A B : Type} (f : nat -> A -> list B) (g : A -> nat) (l : list A) :
  (forall i x, length (f i x) = g x) ->
  length (concat (imap f l)) = list_sum (map g l).
Proof.
  revert f. induction l as [|a l IH]; intros f Hf; [reflexivity|].
  cbn [imap concat map]. rewrite length_app, Hf, (IH (f ∘ S)); [reflexivity|].
  intros i x. apply Hf.
Qed.

Lemma filter_length_sum {A : Type} (p : A -> bool) (l : list A) :
  length (List.filter p l) = list_sum (map (fun x => if p x then 1%nat else 0%nat) l).
Proof.
  induction l as [|a l IH]; [reflexivity|]. cbn [List.filter map].
  destruct (p a); cbn [length]; rewrite IH; reflexivity.
Qed.

Lemma upgradeLinesOf_length (i : nat) (building : Building) :
  length (upgradeLinesOf i building)
  = length (List.filter (fun upgrade => negb (purchased upgrade)) (upgrades building)).
Proof.
  unfold upgradeLinesOf. rewrite filter_length_sum. apply concat_imap_length.
  intros j u. now destruct (negb (purchased u)).
Qed.

(** X18. The display has a line for every building and a line for every
    upgrade that is not purchased, and twelve lines of headings, totals
    and commands around them. *)
Theorem displayStatus_length (s : GameState) :
  length (displayStatus s) = (12 + length (buildings s) + unpurchased s)%nat.
Proof.
  unfold displayStatus, buildingLines, upgradeLines, unpurchased.
  rewrite !length_app, length_imap.
  rewrite (concat_imap_length upgradeLinesOf
             (fun building => length (List.filter (fun upgrade => negb (purchased upgrade))
                                                  (upgrades building)))).
  - cbn [length]. lia.
  - apply upgradeLinesOf_length.
Qed.

(** X19. A purchased upgrade leaves the display: after [buyUpgrade] has
    gone through, the list of upgrades shown is the one shown before
    without the line of that upgrade, and every other line of it is as it
    was. *)
Theorem bought_upgrade_leaves_display (bi ui : nat) (s s' : GameState)
    (b : Building) (u : Upgrade) :
  buildings s !! bi = Some b -> upgrades b !! ui = Some u ->
  buyUpgrade bi ui s = Some (true, s') ->
  exists pre post,
    upgradeLines s = pre ++ upgradeLine bi b ui u :: post /\
    upgradeLines s' = pre ++ post.
Proof.
  intros Hb Hu H. apply buyUpgrade_inv in H as (b' & u' & Hb' & Hu' & Hp & _ & ->).
  assert (b' = b) as -> by congruence. assert (u' = u) as -> by congruence.
  unfold upgradeLines, boughtUpgrade. cbn [buildings].
  set (u1 := mkUpgrade _ _ _ _ _). set (b1 := mkBuilding _ _ _ _ _).
  destruct (imap_insert_split upgradeLinesOf (buildings s) bi b b1 Hb)
    as (pre & post & -> & ->).
  set (line := fun j upgrade =>
                 if negb (purchased upgrade) then [upgradeLine bi b j upgrade] else []).
  destruct (imap_insert_split line (upgrades b) ui u u1 Hu) as (pre' & post' & H1 & H2).
  assert (Hb1 : upgradeLinesOf bi b1 = concat pre' ++ concat post').
  { unfold upgradeLinesOf. cbn [upgrades b1]. change (imap _ ?l) with (imap line l).
    rewrite H2, concat_app. cbn [concat]. unfold line, u1. cbn [purchased negb app].
    reflexivity. }
  assert (Hb0 : upgradeLinesOf bi b = concat pre' ++ upgradeLine bi b ui u :: concat post').
  { unfold upgradeLinesOf. change (imap _ ?l) with (imap line l).
    rewrite H1, concat_app. cbn [concat]. unfold line. rewrite Hp. cbn [negb app].
    reflexivity. }
  exists (concat pre ++ concat pre'), (concat post' ++ concat post).
  rewrite !concat_app. cbn [concat]. rewrite Hb0, Hb1, <- !app_assoc. split; reflexivity.
Qed.

Lemma bought_upgrade_leaves_display_witness :
  let s := set_points 600 (initialGameState 0) in
  exists s' b u pre post,
    buyUpgrade 0 1 s = Some (true, s') /\
    buildings s !! 0%nat = Some b /\ upgrades b !! 1%nat = Some u /\
    upgradeLines s = pre ++ upgradeLine 0 b 1 u :: post /\
    upgradeLines s' = pre ++ post.
Proof.
  eexists. eexists. eexists.
  destruct (bought_upgrade_leaves_display 0 1 (set_points 600 (initialGameState 0)) _ _ _
              eq_refl eq_refl eq_refl) as (pre & post & H).
  exists pre, post. split; [reflexivity|]. split; [reflexivity|]. split; [reflexivity|exact H].
Defined.



(** ** The formatter at the edges of its ranges *)

Lemma floor_unique (x : Q) (z : Z) :
  inject_Z z <= x -> x < inject_Z z + 1 -> Qfloor x = z.
Proof.
  intros Hlow Hhigh. destruct (floor_bounds x) as [Hle Hlt].
  assert (H1 : inject_Z z < inject_Z (Qfloor x + 1)) by (rewrite inject_Z_plus; change (inject_Z 1) with 1; lra).
  assert (H2 : inject_Z (Qfloor x) < inject_Z (z + 1)) by (rewrite inject_Z_plus; change (inject_Z 1) with 1; lra).
  rewrite <- Zlt_Qlt in H1, H2. lia.
Qed.

Lemma toFixed_nearest (x : Q) (f : nat) (z : Z) :
  0 <= x -> x < 10 ^ 21 -> inject_Z z / 10 ^ Z.of_nat f < 10 ^ 21 ->
  inject_Z z <= x * 10 ^ Z.of_nat f + (1 # 2) ->
  x * 10 ^ Z.of_nat f + (1 # 2) < inject_Z z + 1 ->
  toFixed x f = toFixed (inject_Z z / 10 ^ Z.of_nat f) f.
Proof.
  intros H0 H21 Hy21 Hlow Hhigh. unfold toFixed, toFixedChars. f_equal.
  assert (Hp : 0 < 10 ^ Z.of_nat f) by (apply Qpower_0_lt; reflexivity).
  assert (Hz : 0 <= inject_Z z).
  { assert (H : - (1) < inject_Z z) by nra.
    change (- (1)) with (inject_Z (-1)) in H. rewrite <- Zlt_Qlt in H.
    change 0 with (inject_Z 0). rewrite <- Zle_Qle. lia. }
  set (y := inject_Z z / 10 ^ Z.of_nat f).
  assert (Hy : y * 10 ^ Z.of_nat f == inject_Z z).
  { unfold y. field. intros E. rewrite E in Hp. discriminate. }
  assert (Hy0 : 0 <= y) by (apply Qle_shift_div_l; [exact Hp|lra]).
  assert (Hfloor : Qfloor (x * 10 ^ Z.of_nat f + (1 # 2))
                   = Qfloor (y * 10 ^ Z.of_nat f + (1 # 2))).
  { rewrite (floor_unique _ z Hlow Hhigh). symmetry. apply floor_unique; lra. }
  replace (ltb x 0) with false by (symmetry; now apply ltb_false).
  replace (ltb y 0) with false by (symmetry; now apply ltb_false).
  replace (geq x (10 ^ 21)) with false by (symmetry; apply geq_false; lra).
  replace (geq y (10 ^ 21)) with false by (symmetry; apply geq_false; fold y in Hy21; lra).
  unfold toFixedDigits. now rewrite Hfloor.
Qed.

Ltac decimal_bound :=
  change (10 ^ Z.of_nat 1) with 10; change (10 ^ Z.of_nat 2) with 100;
  unfold inject_Z; lra.

(** X21. The formatter at the top of a range and below 0: a number that
    rounds up to 1000 of a unit is shown as 1000 of that unit, not as 1 of
    the next one; and a negative number is never abbreviated: it is the
    minus sign and its absolute value to one decimal place, whatever its
    size. *)
Theorem formatNumber_edges (n : Q) :
  (999.95 <= n -> n < 1000 -> formatNumber n = "1000.0"%string) /\
  (999995 <= n -> n < 1000000 -> formatNumber n = "1000.00K"%string) /\
  (999995000 <= n -> n < 1000000000 -> formatNumber n = "1000.00M"%string) /\
  (n < 0 -> formatNumber n = String "-" (toFixed (- n) 1)).
Proof.
  unfold formatNumber. repeat split.
  - intros Hlow Hhigh.
    replace (ltb n 1000) with true by (symmetry; now apply ltb_true).
    rewrite (toFixed_nearest n 1 10000); [reflexivity|lra| |reflexivity|decimal_bound..].
    eapply Qlt_trans; [exact Hhigh|reflexivity].
  - intros Hlow Hhigh.
    replace (ltb n 1000) with false by (symmetry; apply ltb_false; lra).
    replace (ltb n 1000000) with true by (symmetry; now apply ltb_true).
    assert (Hx : 999.995 <= n / 1000 /\ n / 1000 < 1000)
      by (split; [apply Qle_shift_div_l|apply Qlt_shift_div_r]; (reflexivity || lra)).
    destruct Hx as [Hx Hx']. set (x := n / 1000) in *.
    rewrite (toFixed_nearest x 2 100000); [reflexivity|lra| |reflexivity|decimal_bound..].
    apply Qlt_trans with 1000; [lra|reflexivity].
  - intros Hlow Hhigh.
    replace (ltb n 1000) with false by (symmetry; apply ltb_false; lra).
    replace (ltb n 1000000) with false by (symmetry; apply ltb_false; lra).
    replace (ltb n 1000000000) with true by (symmetry; now apply ltb_true).
    assert (Hx : 999.995 <= n / 1000000 /\ n / 1000000 < 1000)
      by (split; [apply Qle_shift_div_l|apply Qlt_shift_div_r]; (reflexivity || lra)).
    destruct Hx as [Hx Hx']. set (x := n / 1000000) in *.
    rewrite (toFixed_nearest x 2 100000); [reflexivity|lra| |reflexivity|decimal_bound..].
    apply Qlt_trans with 1000; [lra|reflexivity].
  - intros Hneg.
    replace (ltb n 1000) with true by (symmetry; apply ltb_true; lra).
    unfold toFixed, toFixedChars.
    replace (ltb n 0) with true by (symmetry; now apply ltb_true).
    replace (ltb (- n) 0) with false by (symmetry; apply ltb_false; lra).
    now destruct (geq (- n) (10 ^ 21)).
Qed.

Lemma formatNumber_edges_witness :
  formatNumber 999.97 = "1000.0"%string /\
  formatNumber 999999 = "1000.00K"%string /\
  formatNumber 999999999 = "1000.00M"%string /\
  formatNumber (- 5000000) = String "-" (toFixed (- - 5000000) 1).
Proof.
  destruct (formatNumber_edges 999.97) as (H1 & _).
  destruct (formatNumber_edges 999999) as (_ & H2 & _).
  destruct (formatNumber_edges 999999999) as (_ & _ & H3 & _).
  destruct (formatNumber_edges (- 5000000)) as (_ & _ & _ & H4).
  split; [apply H1|split; [apply H2|split; [apply H3|apply H4]]];
    (reflexivity || discriminate).
Defined.

(** ** Points under a clock that runs forwards *)

Lemma nonneg_points_click (s : GameState) :
  valid_state s -> 0 <= points s -> 0 <= points (click s).
Proof. intros [_ [Hcp _]] Hp. unfold click. cbn. lra. Qed.

Lemma nonneg_points_buyBuilding (index : nat) (s s' : GameState) (ok : bool) :
  0 <= points s -> buyBuilding index s = Some (ok, s') -> 0 <= points s'.
Proof.
  intros Hp H. apply buyBuilding_inv in H as (b & _ & H).
  destruct ok; [destruct H as [Hc ->]; cbn; lra|destruct H as [_ ->]; exact Hp].
Qed.

Lemma nonneg_points_buyUpgrade (bi ui : nat) (s s' : GameState) (ok : bool) :
  0 <= points s -> buyUpgrade bi ui s = Some (ok, s') -> 0 <= points s'.
Proof.
  intros Hp H. apply buyUpgrade_inv in H as (b & u & _ & _ & H).
  destruct ok; [destruct H as (_ & Hc & ->); cbn; lra|destruct H as [_ ->]; exact Hp].
Qed.

Lemma nonneg_points_gameLoop (now lastUpdate : Z) (s : GameState) :
  (lastUpdate <=? now)%Z = true -> valid_state s -> 0 <= points s ->
  0 <= points (snd (gameLoop now lastUpdate s)).
Proof.
  intros Hclock [_ [_ Hn]] Hp. apply Z.leb_le in Hclock. unfold gameLoop. cbn.
  change (fold_left _ (buildings s) 0) with (getTotalProduction s).
  pose proof (nonneg_totalProduction s Hn) as Hprod.
  assert (Helapsed : 0 <= inject_Z (now - lastUpdate) / 1000).
  { apply Qle_shift_div_l; [reflexivity|]. rewrite Qmult_0_l.
    change 0 with (inject_Z 0). rewrite <- Zle_Qle. lia. }
  pose proof (Qmult_le_0_compat _ _ Hprod Helapsed). lra.
Qed.



(** ** Accounting *)

Lemma sum_app {A : Type} (f : A -> Q) (l l' : list A) :
  fold_right Qplus 0 (map f (l ++ l'))
  == fold_right Qplus 0 (map f l) + fold_right Qplus 0 (map f l').
Proof.
  induction l as [|x l IH]; cbn [app map fold_right]; [ring|]. rewrite IH. ring.
Qed.

Lemma sum_equiv {A : Type} (R : A -> A -> Prop) (f : A -> Q) (l l' : list A) :
  (forall x y, R x y -> f x == f y) -> Forall2 R l l' ->
  fold_right Qplus 0 (map f l) == fold_right Qplus 0 (map f l').
Proof.
  intros Hf H. induction H as [|x y l l' Hxy _ IH]; cbn [map fold_right]; [reflexivity|].
  now rewrite IH, (Hf x y Hxy).
Qed.

Lemma cost_of_count (b b' : Building) (k : Z) :
  baseCost b == baseCost b' ->
  getBuildingCost (set_count k b) = getBuildingCost (set_count k b').
Proof.
  intros H. unfold getBuildingCost, set_count. cbn [baseCost count]. f_equal.
  apply Qfloor_comp. now rewrite H.
Qed.

Lemma costs_of_counts (b b' : Building) (ks : list nat) :
  baseCost b == baseCost b' ->
  map (fun k => getBuildingCost (set_count (Z.of_nat k) b)) ks
  = map (fun k => getBuildingCost (set_count (Z.of_nat k) b')) ks.
Proof. intros H. apply map_ext. intros k. now apply cost_of_count. Qed.

Lemma buildingSpend_equiv (b b' : Building) :
  building_equiv b b' -> buildingSpend b == buildingSpend b'.
Proof.
  intros (_ & Hc & Hbase & _ & Hus). unfold buildingSpend.
  rewrite <- Hc, (costs_of_counts b b' _ Hbase).
  apply Qplus_comp; [reflexivity|]. eapply sum_equiv; [|exact Hus].
  intros u u' (_ & Hp & Hcost & _). unfold upgradeSpend. rewrite <- Hp.
  now destruct (purchased u).
Qed.

Lemma spent_equiv (s s' : GameState) : state_equiv s s' -> spent s == spent s'.
Proof.
  intros (_ & _ & _ & Hb & _). eapply sum_equiv; [|exact Hb]. apply buildingSpend_equiv.
Qed.

Lemma buildingSpend_bought (b : Building) :
  (0 <= count b)%Z ->
  buildingSpend (mkBuilding (name b) (count b + 1) (baseCost b) (baseProduction b)
                            (upgrades b))
  == buildingSpend b + getBuildingCost b.
Proof.
  intros Hc. unfold buildingSpend. cbn [count upgrades].
  set (b' := mkBuilding _ _ _ _ _).
  rewrite (costs_of_counts b' b) by reflexivity.
  replace (Z.to_nat (count b + 1)) with (S (Z.to_nat (count b))) by lia.
  rewrite seq_S, sum_app. cbn [map fold_right plus].
  replace (getBuildingCost (set_count (Z.of_nat (Z.to_nat (count b))) b))
    with (getBuildingCost b); [ring|].
  unfold getBuildingCost, set_count. cbn [baseCost count]. now rewrite Z2Nat.id.
Qed.

Lemma buildingSpend_upgraded (b : Building) (ui : nat) (u : Upgrade) :
  upgrades b !! ui = Some u -> purchased u = false ->
  buildingSpend
    (mkBuilding (name b) (count b) (baseCost b) (baseProduction b)
       (<[ui := mkUpgrade (upgradeName u) true (cost u) (productionMultiplier u)
                  (description u)]> (upgrades b)))
  == buildingSpend b + cost u.
Proof.
  intros Hu Hp.
  set (u' := mkUpgrade (upgradeName u) true (cost u) (productionMultiplier u) (description u)).
  pose proof (sum_insert upgradeSpend (upgrades b) ui u u' Hu) as H.
  assert (H0 : upgradeSpend u = 0) by (unfold upgradeSpend; now rewrite Hp).
  rewrite H0 in H. change (upgradeSpend u') with (cost u) in H.
  unfold buildingSpend. cbn [count upgrades]. set (b' := mkBuilding _ _ _ _ _).
  rewrite (costs_of_counts b' b) by reflexivity. rewrite H. ring.
Qed.

Lemma accounted_buyBuilding (index : nat) (s s' : GameState) (ok : bool) :
  valid_state s -> accounted s -> buyBuilding index s = Some (ok, s') -> accounted s'.
Proof.
  intros [_ [_ Hn]] Hacc H. apply buyBuilding_inv in H as (b & Hb & H).
  destruct ok; destruct H as [_ ->]; [|exact Hacc].
  destruct (Forall_lookup_1 _ _ _ _ Hn Hb) as [Hc _].
  unfold accounted, spent in *. cbn [boughtBuilding points buildings totalPointsEarned].
  rewrite (sum_insert buildingSpend _ _ _ _ Hb), (buildingSpend_bought b Hc).
  rewrite <- Hacc. ring.
Qed.

Lemma accounted_buyUpgrade (bi ui : nat) (s s' : GameState) (ok : bool) :
  accounted s -> buyUpgrade bi ui s = Some (ok, s') -> accounted s'.
Proof.
  intros Hacc H. apply buyUpgrade_inv in H as (b & u & Hb & Hu & H).
  destruct ok; [destruct H as (Hp & _ & ->)|destruct H as [_ ->]; exact Hacc].
  unfold accounted, spent in *. cbn [boughtUpgrade points buildings totalPointsEarned].
  rewrite (sum_insert buildingSpend _ _ _ _ Hb), (buildingSpend_upgraded b ui u Hu Hp).
  rewrite <- Hacc. ring.
Qed.


